(** * Saghat mutual-aid fund: the monthly loan assignment

    A shallow embedding of [apps/loans/algorithm.py] (the score calculator
    [compute_user_score] and the orchestrator [run_loan_assignment]) together
    with the parts of the Django models it reads and writes
    ([apps/users/models.py], [apps/payments/models.py], [apps/loans/models.py]).

    - [decimal.Decimal] values are modelled by the rational they denote
      ([Q]); multiplication and division go through the rounding of Python's
      default arithmetic context (28 significant digits, ROUND_HALF_EVEN).
    - The database is a record of tables, each table a list of rows in
      storage order; queries are list functions.
    - [run_loan_assignment] threads the database explicitly and returns
      either the created [Loan] or the exception it raises.
    - Around it: the properties of [Loan] ([total_paid],
      [remaining_balance], [is_settled]), the endpoint that starts the
      assignment and the response it builds ([apps/loans/api.py]), the
      gateway check ([apps/payments/bitpin.py]) and the payment endpoint
      [pay] ([apps/payments/api.py]). *)

From Stdlib Require Import ZArith QArith Qround Qpower Qabs.
From Stdlib Require Import List Bool String Ascii DecimalString Lia Lqa.
From Stdlib Require Import Permutation Sorted.
Import ListNotations.

Local Open Scope Z_scope.

(** ** Python's [Decimal] arithmetic, by value *)

Module Dec.

Local Open Scope Q_scope.

(** [getcontext().prec]: the module never changes the default context. *)
Definition prec : Z := 28.

Definition pow10 (k : Z) : Q := (10 # 1) ^ k.

(** [floor (log10 n)] for a positive integer [n]; the binary digits of the
    first argument bound the number of decimal digits of [n]. *)
Fixpoint ilog10_fuel (f : positive) (n : Z) : Z :=
  if (n <? 10)%Z then 0%Z
  else match f with
       | xH => 0%Z
       | xO f' | xI f' => (1 + ilog10_fuel f' (n / 10))%Z
       end.

Definition ilog10 (n : Z) : Z :=
  match n with
  | Zpos p => ilog10_fuel p n
  | _ => 0%Z
  end.

(** The adjusted exponent of a positive value: [floor (log10 q)]. *)
Definition adjusted (q : Q) : Z :=
  let a := ilog10 (Qnum q) in
  let b := ilog10 (Zpos (Qden q)) in
  if Qle_bool (pow10 (a - b)) q then (a - b)%Z else (a - b - 1)%Z.

(** ROUND_HALF_EVEN to an integer. *)
Definition round_half_even (x : Q) : Z :=
  let f := Qfloor x in
  match Qcompare (x - inject_Z f) (1 # 2) with
  | Lt => f
  | Gt => (f + 1)%Z
  | Eq => if Z.even f then f else (f + 1)%Z
  end.

(** [Decimal._fix] for a positive value: keep [prec] significant digits. *)
Definition fix_pos (q : Q) : Q :=
  let e := adjusted q in
  inject_Z (round_half_even (q * pow10 (prec - 1 - e))) * pow10 (e - (prec - 1)).

(** [Decimal._fix(context)] on values (the exponent limits Emin and Emax of
    the context, 999999 digits away, are out of reach and left out). *)
Definition fix_ctx (q : Q) : Q :=
  match Qnum q with
  | Z0 => 0
  | Zpos _ => fix_pos q
  | Zneg _ => - fix_pos (- q)
  end.

(** [Decimal.__mul__] and [Decimal.__truediv__]: the exact result, rounded
    once by the context. The division is only used on a positive divisor. *)
Definition mul (x y : Q) : Q := fix_ctx (x * y).
Definition div (x y : Q) : Q := fix_ctx (x / y).

(** [Decimal(str(n))] for a Python [int]. *)
Definition of_int (n : Z) : Q := inject_Z n.

End Dec.

(** ** The data model (Django models, the columns the algorithm touches) *)

(** [apps/users/models.py]: [User]. *)
Record User := {
  id : Z;
  username : string;
  balance : Q;
  is_main : bool;
  loan_request_amount : Q;
  is_active : bool
}.

(** [apps/payments/models.py]: [Config], the singleton row with [pk = 1]. *)
Record Config := {
  min_membership_fee : Q;
  max_month_for_loan_payment : nat;
  min_amount_for_loan_payment : Q
}.

(** The field defaults of [Config]. *)
Definition Config_default : Config :=
  {| min_membership_fee := 20;
     max_month_for_loan_payment := 24;
     min_amount_for_loan_payment := 20 |}.

(** [apps/payments/models.py]: [Payment]. *)
Record Payment := {
  p_id : Z;
  p_user : Z;
  p_amount : Q;
  p_jalali_year : nat;
  p_jalali_month : nat
}.

(** [apps/payments/models.py]: [LoanPayment], one-to-one with a [Payment]. *)
Record LoanPayment := {
  lp_payment : Z;
  lp_amount : Q
}.

(** [apps/loans/models.py]: [LoanState]. *)
Inductive LoanState := INITIAL | ACTIVE | NO_ONE.

(** The reason strings of [NotParticipatedEntry]; the first one is the
    f-string ["loan_request_amount (..) > balance (..)"] with its two
    decimals. *)
Inductive Reason :=
| RequestExceedsBalance (request bal : Q)
| HasActiveLoan
| OptedOut.

Record NotParticipatedEntry := {
  np_user_id : Z;
  np_username : string;
  np_reason : Reason
}.

(** The [point] of a [ParticipatedEntry]: ["unlimited"], or [str(score)]
    (kept as the decimal it prints). *)
Inductive Point :=
| PointUnlimited
| PointDecimal (score : Q).

Record ParticipatedEntry := {
  pe_user_id : Z;
  pe_username : string;
  pe_point : Point
}.

(** The JSON object stored in [Loan.log]. *)
Record LoanLog := {
  not_participated : list NotParticipatedEntry;
  participated : list ParticipatedEntry;
  selected : option Z;
  random_pool : list Z;
  note : option string
}.

(** [apps/loans/models.py]: [Loan]; [None] is SQL NULL. *)
Record Loan := {
  l_user : option Z;
  l_amount : option Q;
  l_state : LoanState;
  l_jalali_year : nat;
  l_jalali_month : nat;
  l_created_at : Z;
  l_min_amount_for_each_payment : option Q;
  l_log : LoanLog
}.

(** [UserScore]: [None] is the unlimited score. *)
Record UserScore := {
  us_user_id : Z;
  us_username : string;
  us_score : option Q;
  us_loan_request_amount : Q
}.

(** The database: every table in storage order. *)
Record DB := {
  users : list User;
  payments : list Payment;
  loan_payments : list LoanPayment;
  loans : list Loan;
  config : option Config
}.

Inductive Exception :=
| ValueError (message : string)
| IntegrityError
| IndexError
| StopIteration.

(** ** Queries *)

Local Open Scope Q_scope.

Definition Qgt_bool (x y : Q) : bool := negb (Qle_bool x y).

(** [X or Decimal("0")]. *)
Definition or_zero (x : option Q) : Q :=
  match x with
  | Some v => if Qeq_bool v 0 then 0 else v
  | None => 0
  end.

(** SQL [SUM] over a nullable column: NULL rows are skipped, and the sum of
    no row is NULL. *)
Fixpoint Sum (col : list (option Q)) : option Q :=
  match col with
  | [] => None
  | None :: rest => Sum rest
  | Some v :: rest =>
      match Sum rest with
      | Some t => Some (v + t)
      | None => Some v
      end
  end.

(** [Payment.objects.filter(user=user)]. *)
Definition payments_of (db : DB) (user : User) : list Payment :=
  filter (fun p => (p_user p =? id user)%Z) (payments db).

(** Is period [p] later than period [q] in the order
    [("-jalali_year", "-jalali_month")]? *)
Definition later (p q : Payment) : bool :=
  (p_jalali_year q <? p_jalali_year p)%nat
  || ((p_jalali_year q =? p_jalali_year p)%nat
      && (p_jalali_month q <? p_jalali_month p)%nat).

(** [.order_by("-jalali_year", "-jalali_month").first()]: the row of the
    latest period, the earliest stored one among equals. *)
Fixpoint latest_payment (ps : list Payment) : option Payment :=
  match ps with
  | [] => None
  | p :: rest =>
      match latest_payment rest with
      | Some q => if later q p then Some q else Some p
      | None => Some p
      end
  end.

Definition last_payment (db : DB) (user : User) : option Payment :=
  latest_payment (payments_of db user).

(** The [Payment] a [LoanPayment] row points to. *)
Definition payment_of (db : DB) (lp : LoanPayment) : option Payment :=
  find (fun p => (p_id p =? lp_payment lp)%Z) (payments db).

(** [LoanPayment.objects.filter(payment__user=user)]. *)
Definition loan_payments_of (db : DB) (user : User) : list LoanPayment :=
  filter (fun lp => match payment_of db lp with
                    | Some p => (p_user p =? id user)%Z
                    | None => false
                    end) (loan_payments db).

Definition is_active_state (s : LoanState) : bool :=
  match s with ACTIVE => true | _ => false end.

(** [Loan.objects.filter(user=user, state=LoanState.ACTIVE)]. *)
Definition active_loans_of (db : DB) (user : User) : list Loan :=
  filter (fun l => match l_user l with
                   | Some uid => (uid =? id user)%Z && is_active_state (l_state l)
                   | None => false
                   end) (loans db).

(** [.order_by("-created_at").first()]. *)
Fixpoint most_recent (ls : list Loan) : option Loan :=
  match ls with
  | [] => None
  | l :: rest =>
      match most_recent rest with
      | Some m => if (l_created_at l <? l_created_at m)%Z then Some m else Some l
      | None => Some l
      end
  end.

Definition period_eqb (a b : nat * nat) : bool :=
  (fst a =? fst b)%nat && (snd a =? snd b)%nat.

(** [.distinct()] on a list of periods. *)
Fixpoint distinct (l : list (nat * nat)) : list (nat * nat) :=
  match l with
  | [] => []
  | a :: rest => a :: filter (fun b => negb (period_eqb a b)) (distinct rest)
  end.

(** [.values("payment__jalali_year", "payment__jalali_month")] on the
    user's loan payments. *)
Definition loan_payment_periods (db : DB) (user : User) : list (nat * nat) :=
  flat_map (fun lp => match payment_of db lp with
                      | Some p => [(p_jalali_year p, p_jalali_month p)]
                      | None => []
                      end) (loan_payments_of db user).

(** [User.has_active_loan]. *)
Definition has_active_loan (db : DB) (user : User) : bool :=
  match active_loans_of db user with
  | [] => false
  | _ :: _ => true
  end.

(** ** The score calculator *)

(** What [compute_user_score] reads, each field named after the local
    variable (or attribute) that holds it. *)
Record History := {
  (** [last_payment.amount]; [None] when [last_payment is None]. *)
  h_last_payment : option Q;
  h_total_user_loan_payments : nat;
  h_total_loan_amount : Q;
  h_total_loan_user_get : nat;
  (** [user.loan_request_amount]. *)
  h_loan_request_amount : Q;
  (** [previous_loan.amount]: [None] when [previous_loan is None],
      [Some None] when the amount is NULL. *)
  h_previous_loan : option (option Q);
  (** [user.balance]. *)
  h_balance : Q;
  h_total_payments_count : nat;
  h_months_with_loan_payment : nat
}.

(** The queries of [compute_user_score]. *)
Definition history (db : DB) (user : User) : History :=
  {| h_last_payment := option_map p_amount (last_payment db user);
     h_total_user_loan_payments := List.length (loan_payments_of db user);
     h_total_loan_amount :=
       or_zero (Sum (map l_amount (active_loans_of db user)));
     h_total_loan_user_get := List.length (active_loans_of db user);
     h_loan_request_amount := loan_request_amount user;
     h_previous_loan :=
       option_map l_amount (most_recent (active_loans_of db user));
     h_balance := balance user;
     h_total_payments_count := List.length (payments_of db user);
     h_months_with_loan_payment :=
       List.length (distinct (loan_payment_periods db user)) |}.

(** The [return None] statements of [compute_user_score], in source order. *)
Inductive UnlimitedSite :=
| NoPaymentHistory
| LastPaymentNotPositive
| NoLoanPayments
| TotalLoanAmountNotPositive
| LogTotalLoanAmountNotPositive
| NoLoans
| LoanRequestNotPositive
| LogLoanRequestNotPositive
| DenominatorNotPositive.

Section Score.

(** [flog x] stands for [Decimal(str(math.log(float(x))))]: the natural
    logarithm taken in binary floating point and parsed back from its
    printed form. The code calls it on positive arguments only. The float
    [log_val] and its printed decimal have the same sign, so the tests
    [log_val > 0] of the numerator are tests on [flog]. *)
Variable flog : Q -> Q.

(** [denominator], given the amount of the last payment. *)
Definition denominator (h : History) (total_payment_for_last_month : Q) : Q :=
  Dec.mul
    (Dec.mul
       (Dec.mul
          (Dec.mul total_payment_for_last_month
                   (Dec.of_int (Z.of_nat (h_total_user_loan_payments h))))
          (flog (h_total_loan_amount h)))
       (Dec.of_int (Z.of_nat (h_total_loan_user_get h))))
    (flog (h_loan_request_amount h)).

(** [log_previous_loan]. *)
Definition log_previous_loan (h : History) : Q :=
  match h_previous_loan h with
  | None => 0
  | Some None => 0
  | Some (Some amount) =>
      if Qle_bool amount 0 then 0
      else if Qgt_bool (flog amount) 0 then flog amount else 0
  end.

(** [log_balance]. *)
Definition log_balance (h : History) : Q :=
  if Qle_bool (h_balance h) 0 then 0
  else if Qgt_bool (flog (h_balance h)) 0 then flog (h_balance h) else 0.

(** [total_month_no_loan]. *)
Definition total_month_no_loan (h : History) : Z :=
  Z.max 0 (Z.of_nat (h_total_payments_count h)
           - Z.of_nat (h_months_with_loan_payment h)).

(** [numerator]. *)
Definition numerator (h : History) : Q :=
  Dec.mul (Dec.mul (log_previous_loan h) (log_balance h))
          (Dec.of_int (total_month_no_loan h)).

(** The body of [compute_user_score] on the results of its queries; an
    unlimited score comes with the [return None] that produced it. *)
Definition score_trace (h : History) : UnlimitedSite + Q :=
  match h_last_payment h with
  | None => inl NoPaymentHistory
  | Some total_payment_for_last_month =>
      if Qle_bool total_payment_for_last_month 0
      then inl LastPaymentNotPositive
      else if (h_total_user_loan_payments h =? 0)%nat
      then inl NoLoanPayments
      else if Qle_bool (h_total_loan_amount h) 0
      then inl TotalLoanAmountNotPositive
      else if Qle_bool (flog (h_total_loan_amount h)) 0
      then inl LogTotalLoanAmountNotPositive
      else if (h_total_loan_user_get h =? 0)%nat
      then inl NoLoans
      else if Qle_bool (h_loan_request_amount h) 0
      then inl LoanRequestNotPositive
      else if Qle_bool (flog (h_loan_request_amount h)) 0
      then inl LogLoanRequestNotPositive
      else if Qle_bool (denominator h total_payment_for_last_month) 0
      then inl DenominatorNotPositive
      else if Qle_bool (numerator h) 0
      then inr 0
      else inr (Dec.div (numerator h)
                        (denominator h total_payment_for_last_month))
  end.

(** [None] is the unlimited score. *)
Definition score_of (h : History) : option Q :=
  match score_trace h with
  | inl _ => None
  | inr score => Some score
  end.

(** [compute_user_score(user)]. *)
Definition compute_user_score (db : DB) (user : User) : option Q :=
  score_of (history db user).

End Score.

(** ** The assignment orchestrator *)

Definition set_config (db : DB) (c : Config) : DB :=
  {| users := users db; payments := payments db;
     loan_payments := loan_payments db; loans := loans db;
     config := Some c |}.

Definition add_loan (db : DB) (l : Loan) : DB :=
  {| users := users db; payments := payments db;
     loan_payments := loan_payments db; loans := loans db ++ [l];
     config := config db |}.

(** [Config.get_config()]: [get_or_create(pk=1)]. *)
Definition get_config (db : DB) : DB * Config :=
  match config db with
  | Some c => (db, c)
  | None => (set_config db Config_default, Config_default)
  end.

(** Does the table hold a row for the period already? *)
Definition period_taken (db : DB) (jalali_year jalali_month : nat) : bool :=
  existsb (fun l => (l_jalali_year l =? jalali_year)%nat
                    && (l_jalali_month l =? jalali_month)%nat) (loans db).

(** The value fits a [PositiveIntegerField] column (32 bits on
    PostgreSQL, which refuses a larger one). *)
Definition fits_column (n : nat) : Prop := (Z.of_nat n <= 2147483647)%Z.

(** [with transaction.atomic(): Loan.objects.create(...)] under
    [unique_together = [("jalali_year", "jalali_month")]], for a period
    that fits the columns (see [fits_column]). *)
Definition Loan_create (db : DB) (l : Loan) : DB * (Exception + Loan) :=
  if period_taken db (l_jalali_year l) (l_jalali_month l)
  then (db, inl IntegrityError)
  else (add_loan db l, inr l).

Definition str_int (n : nat) : string :=
  NilEmpty.string_of_uint (Nat.to_uint n).

(** The message of the [ValueError] for unpaid users. *)
Definition unpaid_message (jalali_year jalali_month : nat)
    (unpaid_users : list User) : string :=
  ("Not all users have paid for " ++ str_int jalali_year ++ "/"
     ++ str_int jalali_month ++ ". " ++ "Unpaid: "
     ++ String.concat ", " (map username unpaid_users))%string.

(** The eligibility loop over [all_users], carrying [log.not_participated]
    and [eligible_users]. *)
Fixpoint eligibility_loop (db : DB) (all_users : list User)
    (log_np : list NotParticipatedEntry) (eligible_users : list User)
    : list NotParticipatedEntry * list User :=
  match all_users with
  | [] => (log_np, eligible_users)
  | user :: rest =>
      if negb (is_main user)
         && Qgt_bool (loan_request_amount user) (balance user)
      then eligibility_loop db rest
             (log_np ++ [{| np_user_id := id user;
                            np_username := username user;
                            np_reason := RequestExceedsBalance
                                           (loan_request_amount user)
                                           (balance user) |}])
             eligible_users
      else if has_active_loan db user
      then eligibility_loop db rest
             (log_np ++ [{| np_user_id := id user;
                            np_username := username user;
                            np_reason := HasActiveLoan |}])
             eligible_users
      else if Qle_bool (loan_request_amount user) 0
      then eligibility_loop db rest
             (log_np ++ [{| np_user_id := id user;
                            np_username := username user;
                            np_reason := OptedOut |}])
             eligible_users
      else eligibility_loop db rest log_np (eligible_users ++ [user])
  end.

(** [max(...)] keeps the first of the largest items. *)
Fixpoint max_from (best : Q) (items : list Q) : Q :=
  match items with
  | [] => best
  | x :: rest => max_from (if Qgt_bool x best then x else best) rest
  end.

Definition max_of (items : list Q) : option Q :=
  match items with
  | [] => None
  | x :: rest => Some (max_from x rest)
  end.

(** The decimals among the scores (all of them when none is unlimited). *)
Definition decimal_scores (l : list UserScore) : list Q :=
  flat_map (fun us => match us_score us with
                      | Some s => [s]
                      | None => []
                      end) l.

Definition is_unlimited (us : UserScore) : bool :=
  match us_score us with
  | None => true
  | Some _ => false
  end.

(** [us.score == max_score]. *)
Definition score_is (max_score : Q) (us : UserScore) : bool :=
  match us_score us with
  | Some s => Qeq_bool s max_score
  | None => false
  end.

(** [random.choice(seq)], with the index drawn by the generator reduced
    to the range of the sequence. *)
Definition random_choice {A : Type} (draw : nat) (seq : list A) : option A :=
  match seq with
  | [] => None
  | _ :: _ => nth_error seq (draw mod List.length seq)
  end.

Definition point_of (score : option Q) : Point :=
  match score with
  | None => PointUnlimited
  | Some s => PointDecimal s
  end.

(** [User.objects.filter(is_active=True)]. *)
Definition active_users (db : DB) : list User :=
  filter is_active (users db).

(** [paid_user_ids]. *)
Definition paid_user_ids (db : DB) (jalali_year jalali_month : nat) : list Z :=
  map p_user
      (filter (fun p => (p_jalali_year p =? jalali_year)%nat
                        && (p_jalali_month p =? jalali_month)%nat)
              (payments db)).

(** [unpaid_users]. *)
Definition unpaid_users (db : DB) (jalali_year jalali_month : nat) : list User :=
  filter (fun u => negb (existsb (Z.eqb (id u))
                                 (paid_user_ids db jalali_year jalali_month)))
         (active_users db).

(** [saghat_balance]: [Sum("balance")] over the active users, or zero. *)
Definition saghat_balance (db : DB) : Q :=
  or_zero (Sum (map (fun u => Some (balance u)) (active_users db))).

Section Assignment.

Variable flog : Q -> Q.

(** The scoring loop: [log.participated] and [user_scores]. *)
Definition participated_entry (db : DB) (user : User) : ParticipatedEntry :=
  {| pe_user_id := id user;
     pe_username := username user;
     pe_point := point_of (compute_user_score flog db user) |}.

Definition user_score (db : DB) (user : User) : UserScore :=
  {| us_user_id := id user;
     us_username := username user;
     us_score := compute_user_score flog db user;
     us_loan_request_amount := loan_request_amount user |}.

(** The max-score group of the fundable scores; [None] when [max] is
    given nothing. *)
Definition max_score_group (fundable_scores : list UserScore)
    : option (list UserScore) :=
  if existsb is_unlimited fundable_scores
  then Some (filter is_unlimited fundable_scores)
  else match max_of (decimal_scores fundable_scores) with
       | None => None
       | Some max_score => Some (filter (score_is max_score) fundable_scores)
       end.

(** [run_loan_assignment(jalali_year, jalali_month)]. [now] is the clock
    read by [auto_now_add], [draw] the number drawn by [random.choice]. *)
Definition run_loan_assignment (db0 : DB) (jalali_year jalali_month : nat)
    (now : Z) (draw : nat) : DB * (Exception + Loan) :=
  let (db, config) := get_config db0 in
  let all_users := active_users db in
  match unpaid_users db jalali_year jalali_month with
  | _ :: _ =>
      (db, inl (ValueError
                  (unpaid_message jalali_year jalali_month
                     (unpaid_users db jalali_year jalali_month))))
  | [] =>
      let saghat_balance := saghat_balance db in
      let (log_not_participated, eligible_users) :=
        eligibility_loop db all_users [] [] in
      match eligible_users with
      | [] =>
          Loan_create db
            {| l_user := None; l_amount := None; l_state := NO_ONE;
               l_jalali_year := jalali_year; l_jalali_month := jalali_month;
               l_created_at := now;
               l_min_amount_for_each_payment := None;
               l_log := {| not_participated := log_not_participated;
                           participated := [];
                           selected := None;
                           random_pool := [];
                           note := None |} |}
      | _ :: _ =>
          let log_participated := map (participated_entry db) eligible_users in
          let user_scores := map (user_score db) eligible_users in
          let fundable_scores :=
            filter (fun us => Qle_bool (us_loan_request_amount us) saghat_balance)
                   user_scores in
          match fundable_scores with
          | [] =>
              Loan_create db
                {| l_user := None; l_amount := None; l_state := NO_ONE;
                   l_jalali_year := jalali_year; l_jalali_month := jalali_month;
                   l_created_at := now;
                   l_min_amount_for_each_payment := None;
                   l_log := {| not_participated := log_not_participated;
                               participated := log_participated;
                               selected := None;
                               random_pool := [];
                               note := Some "No user's loan_request_amount fits within saghat_balance"%string |} |}
          | _ :: _ =>
              match max_score_group fundable_scores with
              | None => (db, inl (ValueError "max() arg is an empty sequence"))
              | Some group =>
                  let log_random_pool := map us_user_id group in
                  match random_choice draw group with
                  | None => (db, inl IndexError)
                  | Some winner_score =>
                      let log_selected := us_user_id winner_score in
                      match find (fun u => (id u =? us_user_id winner_score)%Z)
                                 eligible_users with
                      | None => (db, inl StopIteration)
                      | Some winner_user =>
                          Loan_create db
                            {| l_user := Some (id winner_user);
                               l_amount := Some (us_loan_request_amount winner_score);
                               l_state := ACTIVE;
                               l_jalali_year := jalali_year;
                               l_jalali_month := jalali_month;
                               l_created_at := now;
                               l_min_amount_for_each_payment :=
                                 Some (min_amount_for_loan_payment config);
                               l_log := {| not_participated := log_not_participated;
                                           participated := log_participated;
                                           selected := Some log_selected;
                                           random_pool := log_random_pool;
                                           note := None |} |}
                      end
                  end
              end
          end
      end
  end.

End Assignment.

(** ** The specification's vocabulary *)

(** The five denominator conditions of the score calculator, in the order
    the specification lists them. *)
Section Conditions.

Variable flog : Q -> Q.

(** (1) no periodic payment, or the amount of the most recent one is not
    positive. *)
Definition cond_payment (h : History) : bool :=
  match h_last_payment h with
  | None => true
  | Some amount => Qle_bool amount 0
  end.

(** (2) no loan-repayment portion. *)
Definition cond_portions (h : History) : bool :=
  (h_total_user_loan_payments h =? 0)%nat.

(** (3) the total of the ACTIVE allocations, or its logarithm, is not
    positive. *)
Definition cond_total (h : History) : bool :=
  Qle_bool (h_total_loan_amount h) 0
  || Qle_bool (flog (h_total_loan_amount h)) 0.

(** (4) no ACTIVE allocation. *)
Definition cond_count (h : History) : bool :=
  (h_total_loan_user_get h =? 0)%nat.

(** (5) the current request, or its logarithm, is not positive. *)
Definition cond_request (h : History) : bool :=
  Qle_bool (h_loan_request_amount h) 0
  || Qle_bool (flog (h_loan_request_amount h)) 0.

(** The number of the first condition that holds, if any. *)
Definition first_condition (h : History) : option nat :=
  if cond_payment h then Some 1%nat
  else if cond_portions h then Some 2%nat
  else if cond_total h then Some 3%nat
  else if cond_count h then Some 4%nat
  else if cond_request h then Some 5%nat
  else None.

End Conditions.

(** The condition each [return None] belongs to; the residual check of the
    denominator product goes with the last one. *)
Definition site_condition (site : UnlimitedSite) : nat :=
  match site with
  | NoPaymentHistory | LastPaymentNotPositive => 1
  | NoLoanPayments => 2
  | TotalLoanAmountNotPositive | LogTotalLoanAmountNotPositive => 3
  | NoLoans => 4
  | LoanRequestNotPositive | LogLoanRequestNotPositive
  | DenominatorNotPositive => 5
  end.

(** The history with one input replaced. *)
Definition with_balance (h : History) (b : Q) : History :=
  {| h_last_payment := h_last_payment h;
     h_total_user_loan_payments := h_total_user_loan_payments h;
     h_total_loan_amount := h_total_loan_amount h;
     h_total_loan_user_get := h_total_loan_user_get h;
     h_loan_request_amount := h_loan_request_amount h;
     h_previous_loan := h_previous_loan h;
     h_balance := b;
     h_total_payments_count := h_total_payments_count h;
     h_months_with_loan_payment := h_months_with_loan_payment h |}.

Definition with_loan_request_amount (h : History) (r : Q) : History :=
  {| h_last_payment := h_last_payment h;
     h_total_user_loan_payments := h_total_user_loan_payments h;
     h_total_loan_amount := h_total_loan_amount h;
     h_total_loan_user_get := h_total_loan_user_get h;
     h_loan_request_amount := r;
     h_previous_loan := h_previous_loan h;
     h_balance := h_balance h;
     h_total_payments_count := h_total_payments_count h;
     h_months_with_loan_payment := h_months_with_loan_payment h |}.

(** The two counts behind [total_month_no_loan] replaced. *)
Definition with_period_counts (h : History) (paid repaid : nat) : History :=
  {| h_last_payment := h_last_payment h;
     h_total_user_loan_payments := h_total_user_loan_payments h;
     h_total_loan_amount := h_total_loan_amount h;
     h_total_loan_user_get := h_total_loan_user_get h;
     h_loan_request_amount := h_loan_request_amount h;
     h_previous_loan := h_previous_loan h;
     h_balance := h_balance h;
     h_total_payments_count := paid;
     h_months_with_loan_payment := repaid |}.

(** A value with at most [places] fractional digits. *)
Definition fractional_digits_within (places : Z) (q : Q) : Prop :=
  exists k : Z, q == inject_Z k * Dec.pow10 (- places).

(** Division in fixed point with [places] fractional digits (the quotient
    rounded half-even at that digit), as the specification words it. *)
Definition fixed_point_div (places : Z) (n d : Q) : Q :=
  inject_Z (Dec.round_half_even (n / d * Dec.pow10 places))
  * Dec.pow10 (- places).

(** The first failing eligibility condition of a member, in the order
    (a), (b), (c) of the specification. *)
Definition exclusion_reason (db : DB) (user : User) : option Reason :=
  if negb (is_main user) && Qgt_bool (loan_request_amount user) (balance user)
  then Some (RequestExceedsBalance (loan_request_amount user) (balance user))
  else if has_active_loan db user then Some HasActiveLoan
  else if Qle_bool (loan_request_amount user) 0 then Some OptedOut
  else None.

Definition not_participated_entries (db : DB) (l : list User)
    : list NotParticipatedEntry :=
  flat_map (fun user => match exclusion_reason db user with
                        | Some reason => [{| np_user_id := id user;
                                             np_username := username user;
                                             np_reason := reason |}]
                        | None => []
                        end) l.

Definition eligible_set (db : DB) (l : list User) : list User :=
  filter (fun user => match exclusion_reason db user with
                      | Some _ => false
                      | None => true
                      end) l.

(** The sum of the balances of the members. *)
Definition sum_balance (l : list User) : Q :=
  fold_right (fun u acc => balance u + acc) 0 l.

(** [a]'s score is at most [b]'s, the unlimited score being the largest. *)
Definition score_le (a b : UserScore) : bool :=
  match us_score a, us_score b with
  | _, None => true
  | None, Some _ => false
  | Some x, Some y => Qle_bool x y
  end.

(** Membership in the winner group of the affordable candidates: the
    unlimited ones if there is any, else those of maximal score. *)
Definition in_winner_group (affordable : list UserScore) (us : UserScore) : bool :=
  if existsb is_unlimited affordable then is_unlimited us
  else forallb (fun other => score_le other us) affordable.

(** [name] occurs in [message]. *)
Definition names (message name : string) : Prop :=
  exists before after : string, message = (before ++ name ++ after)%string.

(** No two rows of the table share a period. *)
Definition unique_periods (ls : list Loan) : Prop :=
  NoDup (map (fun l => (l_jalali_year l, l_jalali_month l)) ls).

(** The configuration a run works with: the stored row, or the defaults
    [get_or_create] writes when there is none. *)
Definition current_config (db : DB) : Config :=
  match config db with
  | Some c => c
  | None => Config_default
  end.

(** The eligible set of a run. *)
Definition eligible_users (db : DB) : list User :=
  eligible_set db (active_users db).

(** The scored members of a run, and the affordable ones among them. *)
Definition scored (flog : Q -> Q) (db : DB) : list UserScore :=
  map (user_score flog db) (eligible_users db).

Definition affordable (flog : Q -> Q) (db : DB) : list UserScore :=
  filter (fun us => Qle_bool (us_loan_request_amount us) (saghat_balance db))
         (scored flog db).

(** An UNALLOCATED allocation of the period with the given audit log. *)
Definition unallocated (jalali_year jalali_month : nat) (now : Z)
    (log : LoanLog) : Loan :=
  {| l_user := None; l_amount := None; l_state := NO_ONE;
     l_jalali_year := jalali_year; l_jalali_month := jalali_month;
     l_created_at := now;
     l_min_amount_for_each_payment := None;
     l_log := log |}.

(** The ACTIVE allocation of the period for a winner. *)
Definition allocated (jalali_year jalali_month : nat) (now : Z)
    (c : Config) (winner : UserScore) (log : LoanLog) : Loan :=
  {| l_user := Some (us_user_id winner);
     l_amount := Some (us_loan_request_amount winner);
     l_state := ACTIVE;
     l_jalali_year := jalali_year; l_jalali_month := jalali_month;
     l_created_at := now;
     l_min_amount_for_each_payment := Some (min_amount_for_loan_payment c);
     l_log := log |}.

(** A terminal allocation: ACTIVE or UNALLOCATED, with an amount, a winning
    member and a selected id exactly when it is ACTIVE. *)
Definition terminal_allocation (l : Loan) : Prop :=
  (l_state l = ACTIVE \/ l_state l = NO_ONE)
  /\ (l_amount l <> None <-> l_state l = ACTIVE)
  /\ (l_user l <> None <-> l_state l = ACTIVE)
  /\ (selected (l_log l) <> None <-> l_state l = ACTIVE).

(** The note of an allocation nobody could afford. *)
Definition affordability_note : string :=
  "No user's loan_request_amount fits within saghat_balance".

(** ** Sample data *)

Module Sample.

Local Open Scope Q_scope.

(** What CPython prints for [math.log(float(x))] (IEEE-754 binary64) at the
    amounts used below, read back as a decimal. The table says nothing
    about other arguments. *)
Definition flog (x : Q) : Q :=
  if Qeq_bool x 1 then 0
  else if Qeq_bool x 50 then 3912023005428146 # 1000000000000000
  else if Qeq_bool x 100 then 4605170185988092 # 1000000000000000
  else if Qeq_bool x 150 then 50106352940962555 # 10000000000000000
  else if Qeq_bool x 200 then 5298317366548036 # 1000000000000000
  else if Qeq_bool x 500 then 6214608098422191 # 1000000000000000
  else if Qeq_bool x 600 then 6396929655216146 # 1000000000000000
  else if Qeq_bool x 100000000000
       then 25328436022934504 # 1000000000000000
  else if Qeq_bool x (10000000000000000001 # 100000000)
       then 25328436022934504 # 1000000000000000
  else 0.

(** A monotone stand-in for the logarithm: the binary logarithm of the
    integer part. *)
Definition log2_floor (x : Q) : Q := inject_Z (Z.log2 (Qfloor x)).

Definition member (uid : Z) (name : string) (bal request : Q) (main : bool) : User :=
  {| id := uid; username := name; balance := bal; is_main := main;
     loan_request_amount := request; is_active := true |}.

Definition paid (pid uid : Z) (amount : Q) (year month : nat) : Payment :=
  {| p_id := pid; p_user := uid; p_amount := amount;
     p_jalali_year := year; p_jalali_month := month |}.

Definition empty_log : LoanLog :=
  {| not_participated := []; participated := []; selected := None;
     random_pool := []; note := None |}.

Definition active_loan (uid : Z) (amount : Q) (year month : nat) (at_ : Z) : Loan :=
  {| l_user := Some uid; l_amount := Some amount; l_state := ACTIVE;
     l_jalali_year := year; l_jalali_month := month; l_created_at := at_;
     l_min_amount_for_each_payment := Some 20; l_log := empty_log |}.

(** No row at all. *)
Definition db_empty : DB :=
  {| users := []; payments := []; loan_payments := []; loans := [];
     config := None |}.

(** One member without history who paid for 1403/1. *)
Definition alice : User := member 1 "alice" 100 50 false.

Definition db_single : DB :=
  {| users := [alice];
     payments := [paid 1 1 20 1403 1];
     loan_payments := [];
     loans := [];
     config := Some Config_default |}.



(** An active member who has not paid, before the configuration row
    exists. *)
Definition db_unpaid : DB :=
  {| users := [member 1 "alice" 100 50 false];
     payments := [];
     loan_payments := [];
     loans := [];
     config := None |}.

(** A member who paid a fee for 1403/1, holds an ACTIVE loan of 200 and
    repaid a portion of it with the payment of 1403/2. *)
Definition carol (bal request : Q) : User := member 3 "carol" bal request false.

Definition db_history (bal request : Q) : DB :=
  {| users := [carol bal request];
     payments := [paid 1 3 20 1403 1; paid 2 3 20 1403 2];
     loan_payments := [{| lp_payment := 2; lp_amount := 20 |}];
     loans := [active_loan 3 200 1402 1 0];
     config := Some Config_default |}.

(** The same member without the fee payment of 1403/1: every paid period
    holds a repayment. *)
Definition db_repaid_only (bal request : Q) : DB :=
  {| users := [carol bal request];
     payments := [paid 2 3 20 1403 2];
     loan_payments := [{| lp_payment := 2; lp_amount := 20 |}];
     loans := [active_loan 3 200 1402 1 0];
     config := Some Config_default |}.

(** The same member with one more fee payment, of the same amount, for
    1403/3. *)
Definition db_one_more_period (bal request : Q) : DB :=
  {| users := [carol bal request];
     payments := [paid 1 3 20 1403 1; paid 2 3 20 1403 2; paid 3 3 20 1403 3];
     loan_payments := [{| lp_payment := 2; lp_amount := 20 |}];
     loans := [active_loan 3 200 1402 1 0];
     config := Some Config_default |}.

(** Two members without history who paid for 1403/1: both are scored
    unlimited and both requests fit the fund of 200. *)
Definition bob : User := member 2 "bob" 100 60 false.

Definition db_pair : DB :=
  {| users := [alice; bob];
     payments := [paid 1 1 20 1403 1; paid 2 2 20 1403 1];
     loan_payments := [];
     loans := [];
     config := Some Config_default |}.




(** The allocation of 1403/1 went to alice; bob became an active member
    afterwards and has no payment for 1403/1; the configuration row has
    been deleted since. *)
Definition db_taken_unpaid : DB :=
  {| users := [alice; bob];
     payments := [paid 1 1 20 1403 1];
     loan_payments := [];
     loans := [active_loan 1 50 1403 1 0];
     config := None |}.

(** No member at all, and the allocation of 1403/1 already decided. *)
Definition db_taken_empty : DB :=
  {| users := [];
     payments := [];
     loan_payments := [];
     loans := [unallocated 1403 1 0 empty_log];
     config := Some Config_default |}.

End Sample.

(** ** The rest of the loan model *)

(** [Decimal.__sub__]: exact, then rounded by the context. *)
Definition dec_sub (x y : Q) : Q := Dec.fix_ctx (x - y).

(** [Loan.total_paid]; [payments] is the related set [self.payments], the
    repayment portions whose [loan] is this allocation. *)
Definition total_paid (payments : list LoanPayment) : Q :=
  or_zero (Sum (map (fun lp => Some (lp_amount lp)) payments)).

(** [Loan.remaining_balance]. *)
Definition remaining_balance (l : Loan) (payments : list LoanPayment) : Q :=
  match l_amount l with
  | None => 0
  | Some amount => dec_sub amount (total_paid payments)
  end.

(** [Loan.is_settled]. *)
Definition is_settled (l : Loan) (payments : list LoanPayment) : bool :=
  Qle_bool (remaining_balance l payments) 0.

(** A value a [DecimalField(max_digits=20, decimal_places=8)] column can
    hold: at most 8 fractional digits and 12 integer digits. *)
Definition column_value (q : Q) : Prop :=
  exists k : Z, q == inject_Z k * Dec.pow10 (- 8)
                /\ (Z.abs k < 10 ^ 20)%Z.

(** The sum of the amounts of repayment portions. *)
Definition sum_amount (payments : list LoanPayment) : Q :=
  fold_right (fun lp acc => lp_amount lp + acc) 0 payments.

(** ** The endpoint that starts the assignment ([apps/loans/api.py]) *)

Record LoanPaymentSummary := {
  lps_id : Z;
  lps_amount : Q;
  lps_jalali_year : nat;
  lps_jalali_month : nat
}.

Record LoanResponse := {
  r_user_id : option Z;
  r_username : option string;
  r_amount : option Q;
  r_state : LoanState;
  r_jalali_year : nat;
  r_jalali_month : nat;
  r_min_amount_for_each_payment : option Q;
  r_total_paid : Q;
  r_remaining_balance : Q;
  r_log : LoanLog;
  r_payments : list LoanPaymentSummary
}.

(** A repayment portion joined with its payment ([select_related]). *)
Definition loan_payment_summary (db : DB) (lp : LoanPayment)
    : list LoanPaymentSummary :=
  match payment_of db lp with
  | Some p => [{| lps_id := p_id p; lps_amount := lp_amount lp;
                  lps_jalali_year := p_jalali_year p;
                  lps_jalali_month := p_jalali_month p |}]
  | None => []
  end.

Definition summary_leb (a b : LoanPaymentSummary) : bool :=
  (lps_jalali_year a <? lps_jalali_year b)%nat
  || ((lps_jalali_year a =? lps_jalali_year b)%nat
      && (lps_jalali_month a <=? lps_jalali_month b)%nat).

(** [.order_by("payment__jalali_year", "payment__jalali_month")]. *)
Fixpoint insert_summary (a : LoanPaymentSummary) (l : list LoanPaymentSummary)
    : list LoanPaymentSummary :=
  match l with
  | [] => [a]
  | b :: rest => if summary_leb a b then a :: l else b :: insert_summary a rest
  end.

Definition order_by_period (l : list LoanPaymentSummary) : list LoanPaymentSummary :=
  fold_right insert_summary [] l.

(** [_build_loan_response(loan)]; [payments] is [loan.payments]. *)
Definition _build_loan_response (db : DB) (loan : Loan)
    (payments : list LoanPayment) : LoanResponse :=
  {| r_user_id := l_user loan;
     r_username :=
       match l_user loan with
       | Some uid => option_map username (find (fun u => (id u =? uid)%Z) (users db))
       | None => None
       end;
     r_amount := l_amount loan;
     r_state := l_state loan;
     r_jalali_year := l_jalali_year loan;
     r_jalali_month := l_jalali_month loan;
     r_min_amount_for_each_payment := l_min_amount_for_each_payment loan;
     r_total_paid := total_paid payments;
     r_remaining_balance := remaining_balance loan payments;
     r_log := l_log loan;
     r_payments := order_by_period (flat_map (loan_payment_summary db) payments) |}.

(** The values of [state_messages]; the first one is the f-string
    ["Loan assigned to user .. for amount .."]. *)
Inductive StartMessage :=
| AssignedTo (user_id : option Z) (amount : option Q)
| NoEligibleUser
| Initiated.

Definition state_message (loan : Loan) : StartMessage :=
  match l_state loan with
  | ACTIVE => AssignedTo (l_user loan) (l_amount loan)
  | NO_ONE => NoEligibleUser
  | INITIAL => Initiated
  end.

Inductive StartBody :=
| StartLoanResponse (loan : LoanResponse) (message : StartMessage)
| ErrorResponse (detail : string).

Definition already_done_detail (jalali_year jalali_month : nat) : string :=
  ("Loan assignment already done for " ++ str_int jalali_year ++ "/"
     ++ str_int jalali_month)%string.

Section Endpoint.

Variable flog : Q -> Q.

(** [start_loan_assignment(request)]: the status and body it returns, or
    the exception it lets through. [jalali] is [get_current_jalali()]. The
    allocation is new when its response is built, so no repayment portion
    refers to it yet. *)
Definition start_loan_assignment (db : DB) (jalali : nat * nat) (now : Z)
    (draw : nat) : DB * (Exception + nat * StartBody) :=
  if period_taken db (fst jalali) (snd jalali)
  then (db, inr (409%nat,
                 ErrorResponse (already_done_detail (fst jalali) (snd jalali))))
  else
    match run_loan_assignment flog db (fst jalali) (snd jalali) now draw with
    | (db', inl (ValueError e)) => (db', inr (400%nat, ErrorResponse e))
    | (db', inl exn) => (db', inl exn)
    | (db', inr loan) =>
        (db', inr (201%nat,
                   StartLoanResponse (_build_loan_response db' loan [])
                                     (state_message loan)))
    end.

End Endpoint.

(** ** The payment gateway check ([apps/payments/bitpin.py]) *)

Record BitpinPaymentInfo := {
  bp_payment_id : string;
  bp_amount : Q;
  bp_status : string;
  bp_currency : string
}.

(** The reason string of [verify_payment_amount]: empty, or one of its
    three messages. *)
Inductive VerifyReason :=
| NoReason
| NotFoundInBitpin (payment_id : string)
| StatusNotCompleted (payment_id status : string)
| AmountLessThanRequired (amount expected : Q).

Definition completed_statuses : list string :=
  ["completed"; "paid"; "confirmed"; "done"]%string.

(** [BitpinClient.verify_payment_amount]; [get_payment] is the method of
    that name, the answer of the exchange. *)
Definition verify_payment_amount (get_payment : string -> option BitpinPaymentInfo)
    (payment_id : string) (expected_amount : Q) : bool * VerifyReason :=
  match get_payment payment_id with
  | None => (false, NotFoundInBitpin payment_id)
  | Some info =>
      if negb (existsb (String.eqb (bp_status info)) completed_statuses)
      then (false, StatusNotCompleted payment_id (bp_status info))
      else if negb (Qle_bool expected_amount (bp_amount info))
      then (false, AmountLessThanRequired (bp_amount info) expected_amount)
      else (true, NoReason)
  end.

(** ** The payment endpoint ([apps/payments/api.py]) *)

(** [PaymentRequest]. *)
Record PaymentRequest := {
  pr_membership_fee : Q;
  pr_loan : option Q;
  pr_loan_request_amount : option Q;
  pr_bitpin_payment_id : string
}.

(** The [Field] constraints of [PaymentRequest], checked before [pay]
    runs. *)
Definition valid_request (payload : PaymentRequest) : Prop :=
  0 < pr_membership_fee payload
  /\ (forall l : Q, pr_loan payload = Some l -> 0 < l)
  /\ (forall r : Q, pr_loan_request_amount payload = Some r -> 0 <= r)
  /\ pr_bitpin_payment_id payload <> ""%string.

(** [apps/payments/models.py]: [MembershipFeePayment], one-to-one with a
    [Payment]. *)
Record MembershipFeePayment := {
  mf_payment : Z;
  mf_amount : Q
}.

(** The database with the table of membership fees. *)
Record Books := {
  books_db : DB;
  membership_fee_payments : list MembershipFeePayment
}.

(** The [detail] strings of the error responses of [pay]. *)
Inductive PayError :=
| AlreadySubmitted (jalali_year jalali_month : nat)
| FeeBelowMinimum (fee minimum : Q)
| LoanRepaymentRequired
| LoanPaymentBelowMinimum (repayment minimum : Q)
| LoanPaymentMustBeNull
| BitpinVerificationFailed (reason : VerifyReason).

(** [PaymentResponse] (without the id of the loan, which the model of
    [Loan] leaves out). *)
Record PaymentResponse := {
  resp_id : Z;
  resp_user_id : Z;
  resp_amount : Q;
  resp_jalali_year : nat;
  resp_jalali_month : nat;
  resp_bitpin_payment_id : string;
  resp_membership_fee : Q;
  resp_loan_payment : option Q
}.

Inductive PayBody :=
| PaymentCreated (response : PaymentResponse)
| PayErrorResponse (detail : PayError).

(** What [pay] lets through: [Loan.MultipleObjectsReturned] of [get], the
    [TypeError] of comparing with [None], [decimal.Overflow] of an
    addition, and [DatabaseError] (with its subclasses [DataError] and
    [IntegrityError]) from inside the atomic block. *)
Inductive PayException :=
| MultipleObjectsReturned
| TypeError
| Overflow
| DatabaseError.

(** [user.loans.get(state=LoanState.ACTIVE)]. *)
Inductive GetLoan :=
| DoesNotExist
| Got (active_loan : Loan)
| MoreThanOne.

Definition loans_get_active (db : DB) (user : User) : GetLoan :=
  match active_loans_of db user with
  | [] => DoesNotExist
  | [l] => Got l
  | _ :: _ :: _ => MoreThanOne
  end.

(** [Payment.objects.filter(user=user, jalali_year=.., jalali_month=..)
    .exists()]. *)
Definition paid_for (db : DB) (uid : Z) (jalali : nat * nat) : bool :=
  existsb (fun p => (p_user p =? uid)%Z
                    && (p_jalali_year p =? fst jalali)%nat
                    && (p_jalali_month p =? snd jalali)%nat) (payments db).

(** The new version of a row that [UPDATE users SET balance = ..,
    loan_request_amount = .. WHERE id = ..] rewrites. *)
Definition update_user (uid : Z) (new_balance new_request : Q) (u : User) : User :=
  if (id u =? uid)%Z
  then {| id := id u; username := username u; balance := new_balance;
          is_main := is_main u; loan_request_amount := new_request;
          is_active := is_active u |}
  else u.

(** The exponent limits of the default context. The score calculator
    stays far from them; the amounts of a payload need not. *)
Definition Emax : Z := 999999.
Definition Emin : Z := (- 999999)%Z.
Definition Etiny : Z := (Emin - Dec.prec + 1)%Z.

(** [Decimal._fix(context)] with the limits. [None] is [decimal.Overflow],
    which the default context traps: the rounded result has an adjusted
    exponent above [Emax]. A value below [10 ** Emin] is subnormal and is
    rounded at [Etiny] ([Underflow] is not trapped). *)
Definition fix_limits (q : Q) : option Q :=
  if Qeq_bool q 0 then Some 0
  else if (Dec.adjusted (Qabs q) <? Emin)%Z
  then Some (inject_Z (Dec.round_half_even (q * Dec.pow10 (- Etiny)))
             * Dec.pow10 Etiny)
  else if (Emax <? Dec.adjusted (Qabs (Dec.fix_ctx q)))%Z
  then None
  else Some (Dec.fix_ctx q).

(** [Decimal.__add__]: exact, then [_fix]. *)
Definition decimal_add (x y : Q) : option Q := fix_limits (x + y).

(** The rows of the table after [UPDATE users SET balance = ..,
    loan_request_amount = .. WHERE id = ..]: PostgreSQL writes the new
    version of the row where it finds room, here after [slot] of the other
    rows, and a query without [ORDER BY] lists it there; the other rows
    keep their order. *)
Definition move_row (slot : nat) (uid : Z) (new_balance new_request : Q)
    (rows : list User) : list User :=
  let others := filter (fun u => negb (id u =? uid)%Z) rows in
  let updated := map (update_user uid new_balance new_request)
                     (filter (fun u => (id u =? uid)%Z) rows) in
  firstn slot others ++ updated ++ skipn slot others.

Section Pay.

(** What a [DecimalField(max_digits=20, decimal_places=8)] column keeps of
    a decimal; [None] when the database rejects the value. *)
Variable store : Q -> option Q.

(** Where the storage puts the new version of an updated row. *)
Variable slot : nat.

(** The exchange behind [get_bitpin_client()], when [BITPIN_API_KEY] is
    set. *)
Variable bitpin : option (string -> option BitpinPaymentInfo).

(** The atomic block of [pay]: the new tables, or the error that rolls
    everything back (an addition that overflows, a value the column
    rejects, no row to update, a primary key or a uniqueness constraint
    violated). *)
Definition pay_commit (books : Books) (user : User) (payload : PaymentRequest)
    (jalali : nat * nat) (new_id : Z) (total_amount : Q)
    (active_loan : option Loan) : PayException + Books :=
  let db := books_db books in
  let new_request :=
    match pr_loan_request_amount payload with
    | Some r => r
    | None => loan_request_amount user
    end in
  match decimal_add (balance user) (pr_membership_fee payload) with
  | None => inl Overflow
  | Some new_balance =>
  match store new_balance, store new_request with
  | Some stored_balance, Some stored_request =>
      if negb (existsb (fun u => (id u =? id user)%Z) (users db))
      then inl DatabaseError
      else
        match store total_amount with
        | None => inl DatabaseError
        | Some stored_total =>
            if existsb (fun p => (p_id p =? new_id)%Z) (payments db)
               || paid_for db (id user) jalali
            then inl DatabaseError
            else
              match store (pr_membership_fee payload) with
              | None => inl DatabaseError
              | Some stored_fee =>
                  if existsb (fun mf => (mf_payment mf =? new_id)%Z)
                             (membership_fee_payments books)
                  then inl DatabaseError
                  else
                    let payment :=
                      {| p_id := new_id; p_user := id user;
                         p_amount := stored_total;
                         p_jalali_year := fst jalali;
                         p_jalali_month := snd jalali |} in
                    let fees :=
                      membership_fee_payments books
                      ++ [{| mf_payment := new_id; mf_amount := stored_fee |}] in
                    let tables (lps : list LoanPayment) :=
                      {| books_db :=
                           {| users := move_row slot (id user) stored_balance
                                                stored_request (users db);
                              payments := payments db ++ [payment];
                              loan_payments := lps;
                              loans := loans db;
                              config := config db |};
                         membership_fee_payments := fees |} in
                    match active_loan, pr_loan payload with
                    | Some _, Some repayment =>
                        match store repayment with
                        | None => inl DatabaseError
                        | Some stored_repayment =>
                            if existsb (fun lp => (lp_payment lp =? new_id)%Z)
                                       (loan_payments db)
                            then inl DatabaseError
                            else inr (tables
                                        (loan_payments db
                                         ++ [{| lp_payment := new_id;
                                                lp_amount := stored_repayment |}]))
                        end
                    | _, _ => inr (tables (loan_payments db))
                    end
              end
        end
  | _, _ => inl DatabaseError
  end
  end.

(** The steps of [pay] after the validation of the repayment. *)
Definition pay_verified (books : Books) (user : User) (payload : PaymentRequest)
    (jalali : nat * nat) (new_id : Z) (active_loan : option Loan)
    : Books * (PayException + nat * PayBody) :=
  match (match pr_loan payload with
         | Some repayment => decimal_add (pr_membership_fee payload) repayment
         | None => Some (pr_membership_fee payload)
         end) with
  | None => (books, inl Overflow)
  | Some total_amount =>
  let verification :=
    match bitpin with
    | Some get_payment =>
        verify_payment_amount get_payment (pr_bitpin_payment_id payload)
                              total_amount
    | None => (true, NoReason)
    end in
  if negb (fst verification)
  then (books, inr (400%nat,
                    PayErrorResponse (BitpinVerificationFailed (snd verification))))
  else
    match pay_commit books user payload jalali new_id total_amount active_loan with
    | inl e => (books, inl e)
    | inr books' =>
        (books',
         inr (201%nat,
              PaymentCreated
                {| resp_id := new_id;
                   resp_user_id := id user;
                   resp_amount := total_amount;
                   resp_jalali_year := fst jalali;
                   resp_jalali_month := snd jalali;
                   resp_bitpin_payment_id := pr_bitpin_payment_id payload;
                   resp_membership_fee := pr_membership_fee payload;
                   resp_loan_payment :=
                     match active_loan with
                     | Some _ => pr_loan payload
                     | None => None
                     end |}))
    end
  end.

(** [pay(request, payload)]: [user] is [request.auth], [jalali] is
    [get_current_jalali()], [new_id] the [uuid4] of the new payment. *)
Definition pay (books0 : Books) (user : User) (payload : PaymentRequest)
    (jalali : nat * nat) (new_id : Z) : Books * (PayException + nat * PayBody) :=
  let (db, config) := get_config (books_db books0) in
  let books := {| books_db := db;
                  membership_fee_payments := membership_fee_payments books0 |} in
  if paid_for db (id user) jalali
  then (books, inr (409%nat,
                    PayErrorResponse (AlreadySubmitted (fst jalali) (snd jalali))))
  else if negb (Qle_bool (min_membership_fee config) (pr_membership_fee payload))
  then (books, inr (400%nat,
                    PayErrorResponse
                      (FeeBelowMinimum (pr_membership_fee payload)
                                       (min_membership_fee config))))
  else
    match loans_get_active db user with
    | MoreThanOne => (books, inl MultipleObjectsReturned)
    | Got active_loan =>
        match pr_loan payload with
        | None => (books, inr (400%nat, PayErrorResponse LoanRepaymentRequired))
        | Some repayment =>
            match l_min_amount_for_each_payment active_loan with
            | None => (books, inl TypeError)
            | Some minimum =>
                if negb (Qle_bool minimum repayment)
                then (books, inr (400%nat,
                                  PayErrorResponse
                                    (LoanPaymentBelowMinimum repayment minimum)))
                else pay_verified books user payload jalali new_id
                                  (Some active_loan)
            end
        end
    | DoesNotExist =>
        match pr_loan payload with
        | Some _ => (books, inr (400%nat, PayErrorResponse LoanPaymentMustBeNull))
        | None => pay_verified books user payload jalali new_id None
        end
    end.

End Pay.

(** Every member holds at most one ACTIVE allocation. *)
Definition at_most_one_active_loan (db : DB) : Prop :=
  forall user : User, (List.length (active_loans_of db user) <= 1)%nat.

(** At most one payment per member and period, and no two payments with
    the same id. *)
Definition unique_payments (db : DB) : Prop :=
  NoDup (map (fun p => (p_user p, (p_jalali_year p, p_jalali_month p)))
             (payments db))
  /\ NoDup (map p_id (payments db)).

(** ** Samples of a payment *)

Module SamplePay.

Local Open Scope Q_scope.

(** A [numeric(20, 8)] column of PostgreSQL: the value rounded to 8
    fractional digits, ties away from zero; refused with 13 or more
    integer digits. *)
Definition numeric_20_8 (q : Q) : option Q :=
  let scaled := q * Dec.pow10 8 in
  let k := if Qle_bool 0 scaled
           then Qfloor (scaled + (1 # 2))
           else Qceiling (scaled - (1 # 2)) in
  if (Z.abs k <? 10 ^ 20)%Z
  then Some (Qred (inject_Z k * Dec.pow10 (- 8)))
  else None.

(** An exchange that knows one completed payment of 20. *)
Definition exchange (payment_id : string) : option BitpinPaymentInfo :=
  if String.eqb payment_id "bp-3"
  then Some {| bp_payment_id := "bp-3"; bp_amount := 20;
               bp_status := "completed"; bp_currency := "USDT" |}
  else None.

(** The new version of an updated row comes after one other row. *)
Definition slot : nat := 1.

(** The two members of [Sample.db_pair], who paid the fee of 1403/1. *)
Definition books : Books :=
  {| books_db := Sample.db_pair;
     membership_fee_payments := [{| mf_payment := 1; mf_amount := 20 |};
                                 {| mf_payment := 2; mf_amount := 20 |}] |}.

(** The fee of 1403/2 together with a new request of 60. *)
Definition request : PaymentRequest :=
  {| pr_membership_fee := 20; pr_loan := None;
     pr_loan_request_amount := Some 60; pr_bitpin_payment_id := "bp-3" |}.

End SamplePay.

(** * Theorems *)

(** ** The arithmetic context: rounding to 28 significant digits *)

Module DecFacts.
Import Dec.
Local Open Scope Q_scope.

Lemma pow10_pos (k : Z) : 0 < pow10 k.
Proof. unfold pow10. apply Qpower_0_lt. reflexivity. Qed.

Lemma pow10_add (a b : Z) : pow10 (a + b) == pow10 a * pow10 b.
Proof. unfold pow10. apply Qpower_plus. discriminate. Qed.

Lemma pow10_le (a b : Z) : (a <= b)%Z -> pow10 a <= pow10 b.
Proof. intros H. unfold pow10. apply Qpower_le_compat_l; [exact H | discriminate]. Qed.

Lemma pow10_lt (a b : Z) : (a < b)%Z -> pow10 a < pow10 b.
Proof. intros H. unfold pow10. apply Qpower_lt_compat_l; [exact H | reflexivity]. Qed.

Lemma pow10_nonneg_Z (k : Z) : (0 <= k)%Z -> pow10 k == inject_Z (10 ^ k).
Proof.
  intros Hk. unfold pow10.
  change (10 # 1) with (inject_Z 10).
  symmetry. apply Zpower_Qpower. exact Hk.
Qed.

Lemma pow10_0 : pow10 0 == 1.
Proof. reflexivity. Qed.

Lemma pow10_inv (a : Z) : pow10 a * pow10 (- a) == 1.
Proof. rewrite <- pow10_add. replace (a + - a)%Z with 0%Z by lia. reflexivity. Qed.


Lemma ilog10_fuel_spec (f : positive) :
  forall n : Z, (0 < n <= Zpos f)%Z ->
    (0 <= ilog10_fuel f n /\ 10 ^ ilog10_fuel f n <= n < 10 ^ (ilog10_fuel f n + 1))%Z.
Proof.
  induction f as [f IH | f IH | ]; intros n Hn; cbn [ilog10_fuel];
    destruct (Z.ltb_spec n 10) as [Hlt | Hge];
    try (change (10 ^ 0)%Z with 1%Z; change (10 ^ (0 + 1))%Z with 10%Z; lia).
  all: assert (Hq : (0 < n / 10 <= Zpos f)%Z)
         by (split; [apply Z.div_str_pos; lia
                    | apply Z.div_le_upper_bound; lia]).
  all: destruct (IH _ Hq) as [H0 [Hlo Hhi]].
  all: set (r := ilog10_fuel f (n / 10)) in *.
  all: pose proof (Z.div_mod n 10 ltac:(lia)) as Hdm.
  all: pose proof (Z.mod_pos_bound n 10 ltac:(lia)) as Hmb.
  all: replace (1 + r + 1)%Z with (Z.succ (r + 1)) by lia.
  all: replace (1 + r)%Z with (Z.succ r) by lia.
  all: rewrite !Z.pow_succ_r by lia.
  all: lia.
Qed.

Lemma ilog10_spec (n : Z) : (0 < n)%Z ->
  (0 <= ilog10 n /\ 10 ^ ilog10 n <= n < 10 ^ (ilog10 n + 1))%Z.
Proof.
  intros Hn. destruct n as [ | p | p ]; try lia.
  unfold ilog10. apply ilog10_fuel_spec. lia.
Qed.


Lemma pow10_succ (a : Z) : pow10 (a + 1) == 10 * pow10 a.
Proof. rewrite pow10_add. change (pow10 1) with (10 # 1). ring. Qed.

Lemma inject_Z_pow10_bounds (n : Z) : (0 < n)%Z ->
  pow10 (ilog10 n) <= inject_Z n /\ inject_Z n < 10 * pow10 (ilog10 n).
Proof.
  intros Hn. destruct (ilog10_spec n Hn) as [H0 [Hlo Hhi]].
  rewrite <- pow10_succ.
  rewrite !pow10_nonneg_Z by lia.
  rewrite <- Zle_Qle, <- Zlt_Qlt. lia.
Qed.

Lemma adjusted_spec (q : Q) : 0 < q ->
  pow10 (adjusted q) <= q /\ q < pow10 (adjusted q + 1).
Proof.
  intros Hq.
  assert (Hn : (0 < Qnum q)%Z).
  { destruct q as [n d]. unfold Qlt in Hq. cbn in *. lia. }
  destruct (inject_Z_pow10_bounds _ Hn) as [HA1 HA2].
  destruct (inject_Z_pow10_bounds (Zpos (Qden q)) ltac:(lia)) as [HB1 HB2].
  unfold adjusted.
  set (a := ilog10 (Qnum q)) in *. set (b := ilog10 (Zpos (Qden q))) in *.
  assert (HqD : q * inject_Z (Zpos (Qden q)) == inject_Z (Qnum q)).
  { destruct q as [n d]. cbn. unfold Qeq, Qmult, inject_Z. cbn. lia. }
  pose proof (pow10_pos a) as HA0. pose proof (pow10_pos b) as HB0.
  assert (HP : pow10 (a - b) * pow10 b == pow10 a).
  { rewrite <- pow10_add. replace (a - b + b)%Z with a by lia. reflexivity. }
  pose proof (pow10_pos (a - b)) as HP0.
  destruct (Qle_bool (pow10 (a - b)) q) eqn:Hc.
  - apply Qle_bool_iff in Hc. split; [exact Hc | ].
    rewrite pow10_succ.
    set (P := pow10 (a - b)) in *. set (A := pow10 a) in *. set (B := pow10 b) in *.
    set (N := inject_Z (Qnum q)) in *. set (D := inject_Z (Zpos (Qden q))) in *.
    nra.
  - assert (Hlt : q < pow10 (a - b)).
    { apply Qnot_le_lt. intros H. apply Qle_bool_iff in H. congruence. }
    replace (a - b - 1 + 1)%Z with (a - b)%Z by lia.
    split; [ | exact Hlt].
    assert (HP' : 10 * pow10 (a - b - 1) == pow10 (a - b)).
    { rewrite <- pow10_succ. replace (a - b - 1 + 1)%Z with (a - b)%Z by lia. reflexivity. }
    pose proof (pow10_pos (a - b - 1)) as HP'0.
    set (P' := pow10 (a - b - 1)) in *.
    set (P := pow10 (a - b)) in *. set (A := pow10 a) in *. set (B := pow10 b) in *.
    set (N := inject_Z (Qnum q)) in *. set (D := inject_Z (Zpos (Qden q))) in *.
    nra.
Qed.


Lemma adjusted_unique (q : Q) (e : Z) :
  pow10 e <= q -> q < pow10 (e + 1) -> adjusted q = e.
Proof.
  intros Hlo Hhi.
  assert (Hq : 0 < q) by (pose proof (pow10_pos e); lra).
  destruct (adjusted_spec q Hq) as [Hlo' Hhi'].
  destruct (Z.lt_trichotomy (adjusted q) e) as [H | [H | H]]; [ | exact H | ].
  - assert (pow10 (adjusted q + 1) <= pow10 e) by (apply pow10_le; lia). lra.
  - assert (pow10 (e + 1) <= pow10 (adjusted q)) by (apply pow10_le; lia). lra.
Qed.

Lemma adjusted_mono (q q' : Q) : 0 < q -> q <= q' -> (adjusted q <= adjusted q')%Z.
Proof.
  intros Hq Hle.
  destruct (adjusted_spec q Hq) as [Hlo Hhi].
  destruct (adjusted_spec q' ltac:(lra)) as [Hlo' Hhi'].
  destruct (Z_le_gt_dec (adjusted q) (adjusted q')) as [H | H]; [exact H | ].
  assert (pow10 (adjusted q' + 1) <= pow10 (adjusted q)) by (apply pow10_le; lia). lra.
Qed.

Lemma round_half_even_bounds (x : Q) :
  x - (1 # 2) <= inject_Z (round_half_even x) /\
  inject_Z (round_half_even x) <= x + (1 # 2).
Proof.
  unfold round_half_even.
  pose proof (Qfloor_le x) as Hlo. pose proof (Qlt_floor x) as Hhi.
  rewrite inject_Z_plus in Hhi. change (inject_Z 1) with 1 in Hhi.
  set (f := Qfloor x) in *.
  destruct (Qcompare_spec (x - inject_Z f) (1 # 2)) as [H | H | H];
    [ destruct (Z.even f) | | ];
    rewrite ?inject_Z_plus; change (inject_Z 1) with 1; lra.
Qed.

Lemma round_half_even_mono (x y : Q) :
  x <= y -> (round_half_even x <= round_half_even y)%Z.
Proof.
  intros Hxy. unfold round_half_even.
  pose proof (Qfloor_resp_le _ _ Hxy) as Hf.
  pose proof (Qfloor_le x) as Hlx. pose proof (Qlt_floor x) as Hhx.
  pose proof (Qfloor_le y) as Hly. pose proof (Qlt_floor y) as Hhy.
  rewrite inject_Z_plus in Hhx, Hhy. change (inject_Z 1) with 1 in Hhx, Hhy.
  set (f := Qfloor x) in *. set (g := Qfloor y) in *.
  destruct (Z.eq_dec f g) as [E | NE].
  - rewrite <- E in *. clear E.
    destruct (Qcompare_spec (x - inject_Z f) (1 # 2)) as [H | H | H];
    destruct (Qcompare_spec (y - inject_Z f) (1 # 2)) as [H' | H' | H'];
      try destruct (Z.even f); try lia; lra.
  - assert (Hlt : (f + 1 <= g)%Z) by lia.
    destruct (Qcompare (x - inject_Z f) (1 # 2));
    destruct (Qcompare (y - inject_Z g) (1 # 2));
      try destruct (Z.even f); try destruct (Z.even g); lia.
Qed.

Lemma round_half_even_inject_Z (k : Z) : round_half_even (inject_Z k) = k.
Proof.
  unfold round_half_even. rewrite Qfloor_Z.
  destruct (Qcompare_spec (inject_Z k - inject_Z k) (1 # 2)) as [H | H | H];
    [ lra | reflexivity | lra ].
Qed.

Lemma round_half_even_comp (x y : Q) : x == y -> round_half_even x = round_half_even y.
Proof.
  intros H. apply Z.le_antisymm; apply round_half_even_mono; lra.
Qed.


(** The coefficient kept by the context for a positive value. *)
Lemma scaled_bounds (q : Q) : 0 < q ->
  pow10 (prec - 1) <= q * pow10 (prec - 1 - adjusted q) /\
  q * pow10 (prec - 1 - adjusted q) < pow10 prec.
Proof.
  intros Hq. destruct (adjusted_spec q Hq) as [Hlo Hhi].
  set (e := adjusted q) in *.
  pose proof (pow10_pos (prec - 1 - e)) as Hs.
  assert (H1 : pow10 (prec - 1) == pow10 e * pow10 (prec - 1 - e)).
  { rewrite <- pow10_add. replace (e + (prec - 1 - e))%Z with (prec - 1)%Z by lia. reflexivity. }
  assert (H2 : pow10 prec == pow10 (e + 1) * pow10 (prec - 1 - e)).
  { rewrite <- pow10_add. replace (e + 1 + (prec - 1 - e))%Z with prec by lia. reflexivity. }
  rewrite H1, H2. split.
  - apply Qmult_le_compat_r; lra.
  - apply Qmult_lt_compat_r; lra.
Qed.

Lemma coefficient_bounds (q : Q) : 0 < q ->
  (10 ^ (prec - 1) <= round_half_even (q * pow10 (prec - 1 - adjusted q)) <= 10 ^ prec)%Z.
Proof.
  intros Hq. destruct (scaled_bounds q Hq) as [Hlo Hhi].
  rewrite (pow10_nonneg_Z (prec - 1)) in Hlo by (unfold prec; lia).
  rewrite (pow10_nonneg_Z prec) in Hhi by (unfold prec; lia).
  split.
  - rewrite <- (round_half_even_inject_Z (10 ^ (prec - 1))).
    apply round_half_even_mono. exact Hlo.
  - rewrite <- (round_half_even_inject_Z (10 ^ prec)).
    apply round_half_even_mono. lra.
Qed.

Lemma fix_pos_bounds (q : Q) : 0 < q ->
  pow10 (adjusted q) <= fix_pos q /\ fix_pos q <= pow10 (adjusted q + 1).
Proof.
  intros Hq. destruct (coefficient_bounds q Hq) as [Hlo Hhi].
  unfold fix_pos. set (e := adjusted q) in *.
  set (c := round_half_even (q * pow10 (prec - 1 - e))) in *.
  pose proof (pow10_pos (e - (prec - 1))) as Hs.
  assert (H1 : pow10 e == inject_Z (10 ^ (prec - 1)) * pow10 (e - (prec - 1))).
  { rewrite <- pow10_nonneg_Z by (unfold prec; lia). rewrite <- pow10_add.
    replace (prec - 1 + (e - (prec - 1)))%Z with e by lia. reflexivity. }
  assert (H2 : pow10 (e + 1) == inject_Z (10 ^ prec) * pow10 (e - (prec - 1))).
  { rewrite <- pow10_nonneg_Z by (unfold prec; lia). rewrite <- pow10_add.
    replace (prec + (e - (prec - 1)))%Z with (e + 1)%Z by lia. reflexivity. }
  rewrite H1, H2. split; apply Qmult_le_compat_r; try lra; rewrite <- Zle_Qle; lia.
Qed.

Lemma fix_pos_pos (q : Q) : 0 < q -> 0 < fix_pos q.
Proof.
  intros Hq. destruct (fix_pos_bounds q Hq) as [Hlo _].
  pose proof (pow10_pos (adjusted q)). lra.
Qed.

Lemma fix_pos_mono (q q' : Q) : 0 < q -> q <= q' -> fix_pos q <= fix_pos q'.
Proof.
  intros Hq Hle.
  pose proof (adjusted_mono q q' Hq Hle) as He.
  destruct (Z.eq_dec (adjusted q) (adjusted q')) as [E | NE].
  - unfold fix_pos. rewrite <- E.
    apply Qmult_le_compat_r; [ | pose proof (pow10_pos (adjusted q - (prec - 1))); lra].
    rewrite <- Zle_Qle. apply round_half_even_mono.
    apply Qmult_le_compat_r; [exact Hle | ].
    pose proof (pow10_pos (prec - 1 - adjusted q)); lra.
  - destruct (fix_pos_bounds q Hq) as [_ Hhi].
    destruct (fix_pos_bounds q' ltac:(lra)) as [Hlo _].
    assert (pow10 (adjusted q + 1) <= pow10 (adjusted q')) by (apply pow10_le; lia).
    lra.
Qed.

Lemma fix_pos_error (q : Q) : 0 < q ->
  Qabs (fix_pos q - q) <= (1 # 2) * pow10 (adjusted q - (prec - 1)).
Proof.
  intros Hq. unfold fix_pos. set (e := adjusted q).
  pose proof (round_half_even_bounds (q * pow10 (prec - 1 - e))) as [Hlo Hhi].
  set (c := inject_Z (round_half_even (q * pow10 (prec - 1 - e)))) in *.
  pose proof (pow10_pos (e - (prec - 1))) as Hs.
  assert (Hinv : pow10 (prec - 1 - e) * pow10 (e - (prec - 1)) == 1).
  { rewrite <- pow10_add. replace (prec - 1 - e + (e - (prec - 1)))%Z with 0%Z by lia. reflexivity. }
  set (u := pow10 (e - (prec - 1))) in *. set (v := pow10 (prec - 1 - e)) in *.
  assert (Hq' : q == q * v * u) by (rewrite <- Qmult_assoc, Hinv; ring).
  apply Qabs_Qle_condition. split.
  - assert (H : (q * v - (1 # 2)) * u <= c * u) by (apply Qmult_le_compat_r; lra).
    nra.
  - assert (H : c * u <= (q * v + (1 # 2)) * u) by (apply Qmult_le_compat_r; lra).
    nra.
Qed.

Lemma fix_pos_comp (q q' : Q) : 0 < q -> q == q' -> fix_pos q == fix_pos q'.
Proof.
  intros Hq E. apply Qle_antisym; apply fix_pos_mono; lra.
Qed.


Lemma Qnum_sign (q : Q) :
  match Qnum q with
  | Z0 => q == 0
  | Zpos _ => 0 < q
  | Zneg _ => q < 0
  end.
Proof. destruct q as [[ | p | p] d]; unfold Qeq, Qlt; cbn; lia. Qed.

Lemma fix_ctx_pos_eq (q : Q) : 0 < q -> fix_ctx q = fix_pos q.
Proof.
  intros Hq. unfold fix_ctx. pose proof (Qnum_sign q) as H.
  destruct (Qnum q); [lra | reflexivity | lra].
Qed.

Lemma fix_ctx_zero (q : Q) : q == 0 -> fix_ctx q = 0.
Proof.
  intros Hq. unfold fix_ctx. pose proof (Qnum_sign q) as H.
  destruct (Qnum q); [reflexivity | lra | lra].
Qed.

Lemma fix_ctx_neg_eq (q : Q) : q < 0 -> fix_ctx q = - fix_pos (- q).
Proof.
  intros Hq. unfold fix_ctx. pose proof (Qnum_sign q) as H.
  destruct (Qnum q); [lra | lra | reflexivity].
Qed.

Lemma fix_ctx_pos (q : Q) : 0 < q -> 0 < fix_ctx q.
Proof. intros Hq. rewrite fix_ctx_pos_eq by exact Hq. apply fix_pos_pos, Hq. Qed.

Lemma fix_ctx_nonneg (q : Q) : 0 <= q -> 0 <= fix_ctx q.
Proof.
  intros Hq. destruct (Qlt_le_dec 0 q) as [H | H].
  - apply Qlt_le_weak, fix_ctx_pos, H.
  - rewrite fix_ctx_zero by lra. lra.
Qed.

Lemma fix_ctx_nonpos (q : Q) : q <= 0 -> fix_ctx q <= 0.
Proof.
  intros Hq. destruct (Qlt_le_dec q 0) as [H | H].
  - rewrite fix_ctx_neg_eq by exact H.
    pose proof (fix_pos_pos (- q) ltac:(lra)). lra.
  - rewrite fix_ctx_zero by lra. lra.
Qed.

Lemma fix_ctx_mono (q q' : Q) : q <= q' -> fix_ctx q <= fix_ctx q'.
Proof.
  intros Hle.
  destruct (Qlt_le_dec 0 q) as [Hq | Hq].
  - rewrite !fix_ctx_pos_eq by lra. apply fix_pos_mono; assumption.
  - destruct (Qlt_le_dec q' 0) as [Hq' | Hq'].
    + rewrite !fix_ctx_neg_eq by lra.
      pose proof (fix_pos_mono (- q') (- q) ltac:(lra) ltac:(lra)). lra.
    + pose proof (fix_ctx_nonpos q Hq). pose proof (fix_ctx_nonneg q' Hq'). lra.
Qed.

Lemma mul_pos (x y : Q) : 0 < x -> 0 < y -> 0 < mul x y.
Proof. intros Hx Hy. apply fix_ctx_pos. nra. Qed.

Lemma mul_nonneg (x y : Q) : 0 <= x -> 0 <= y -> 0 <= mul x y.
Proof. intros Hx Hy. apply fix_ctx_nonneg. nra. Qed.

Lemma mul_le_mono (x x' y y' : Q) :
  0 <= x -> x <= x' -> 0 <= y -> y <= y' -> mul x y <= mul x' y'.
Proof. intros Hx Hxx Hy Hyy. apply fix_ctx_mono. nra. Qed.

Lemma mul_zero_l (x y : Q) : x == 0 -> mul x y = 0.
Proof. intros Hx. apply fix_ctx_zero. rewrite Hx. ring. Qed.

Lemma mul_zero_r (x y : Q) : y == 0 -> mul x y = 0.
Proof. intros Hy. apply fix_ctx_zero. rewrite Hy. ring. Qed.

Lemma div_pos (x y : Q) : 0 < x -> 0 < y -> 0 < div x y.
Proof.
  intros Hx Hy. apply fix_ctx_pos. unfold Qdiv.
  apply Qmult_lt_0_compat; [exact Hx | apply Qinv_lt_0_compat, Hy].
Qed.

Lemma div_le_mono (n n' d d' : Q) :
  0 <= n -> n <= n' -> 0 < d' -> d' <= d -> div n d <= div n' d'.
Proof.
  intros Hn Hnn Hd Hdd. apply fix_ctx_mono.
  assert (Hd0 : 0 < d) by lra.
  apply Qle_shift_div_l; [exact Hd | ].
  unfold Qdiv. rewrite <- Qmult_assoc, (Qmult_comm (/ d)), Qmult_assoc.
  apply Qle_shift_div_r; [exact Hd0 | ].
  nra.
Qed.

(** The relative error of one rounding: half a unit of the 28th digit. *)
Lemma fix_ctx_relative (q : Q) : 0 < q ->
  q - q * (1 # 2000000000000000000000000000) <= fix_ctx q
  /\ fix_ctx q <= q + q * (1 # 2000000000000000000000000000).
Proof.
  intros Hq. rewrite fix_ctx_pos_eq by exact Hq.
  pose proof (fix_pos_error q Hq) as He.
  destruct (adjusted_spec q Hq) as [Hlo _].
  assert (Hp : pow10 (adjusted q - (prec - 1))
               == pow10 (adjusted q) * (1 # 1000000000000000000000000000)).
  { replace (adjusted q - (prec - 1))%Z with (adjusted q + - (prec - 1))%Z by lia.
    rewrite pow10_add. apply Qmult_comp; [reflexivity | ]. vm_compute. reflexivity. }
  rewrite Hp in He. apply Qabs_Qle_condition in He. destruct He as [He1 He2].
  set (f := fix_pos q) in *. set (t := pow10 (adjusted q)) in *.
  split; lra.
Qed.

(** Values at least four relative units apart are rounded apart. *)
Lemma fix_ctx_separates (q q' : Q) : 0 < q ->
  q + q * (4 # 2000000000000000000000000000) <= q' ->
  fix_ctx q < fix_ctx q'.
Proof.
  intros Hq Hsep.
  destruct (fix_ctx_relative q Hq) as [_ Hhi].
  destruct (fix_ctx_relative q' ltac:(lra)) as [Hlo _].
  set (f := fix_ctx q) in *. set (f' := fix_ctx q') in *.
  lra.
Qed.

Lemma mul_int_separates (x : Q) (c c' : Z) :
  0 < x -> (1 <= c)%Z -> (c < c')%Z ->
  (c <= 100000000000000000000000000)%Z ->
  mul x (of_int c) + mul x (of_int c) * (4 # 2000000000000000000000000000)
  <= mul x (of_int c').
Proof.
  intros Hx Hc Hcc Hbound. unfold mul, of_int.
  assert (Hc0 : 1 <= inject_Z c) by (change 1 with (inject_Z 1); rewrite <- Zle_Qle; lia).
  assert (Hc1 : inject_Z c + 1 <= inject_Z c').
  { change 1 with (inject_Z 1). rewrite <- inject_Z_plus, <- Zle_Qle. lia. }
  assert (Hc2 : inject_Z c <= 100000000000000000000000000).
  { change 100000000000000000000000000 with (inject_Z 100000000000000000000000000).
    rewrite <- Zle_Qle. exact Hbound. }
  destruct (fix_ctx_relative (x * inject_Z c) ltac:(nra)) as [_ Hhi].
  destruct (fix_ctx_relative (x * inject_Z c') ltac:(nra)) as [Hlo _].
  set (f := fix_ctx (x * inject_Z c)) in *.
  set (f' := fix_ctx (x * inject_Z c')) in *.
  set (a := inject_Z c) in *. set (b := inject_Z c') in *.
  assert (Hxb : x * a + x <= x * b) by nra.
  assert (Hxa : x * a <= x * 100000000000000000000000000)
    by (apply Qmult_le_l; assumption).
  assert (H0 : 0 < x * a) by nra.
  lra.
Qed.

Lemma div_separates (n n' d : Q) :
  0 < n -> 0 < d -> n + n * (4 # 2000000000000000000000000000) <= n' ->
  div n d < div n' d.
Proof.
  intros Hn Hd Hsep. unfold div. apply fix_ctx_separates.
  - apply Qlt_shift_div_l; lra.
  - unfold Qdiv. set (i := / d).
    assert (Hi : 0 < i) by (apply Qinv_lt_0_compat, Hd).
    nra.
Qed.

End DecFacts.

(** ** The score calculator *)

Section ScoreFacts.

Variable flog : Q -> Q.

Lemma Qle_bool_false (x y : Q) : Qle_bool x y = false <-> y < x.
Proof.
  split; intros H.
  - apply Qnot_le_lt. intros Hle. apply Qle_bool_iff in Hle. congruence.
  - destruct (Qle_bool x y) eqn:E; [ | reflexivity].
    apply Qle_bool_iff in E. lra.
Qed.

Lemma of_int_pos (n : nat) : n <> 0%nat -> 0 < Dec.of_int (Z.of_nat n).
Proof.
  intros Hn. unfold Dec.of_int. change 0 with (inject_Z 0).
  rewrite <- Zlt_Qlt. lia.
Qed.

Lemma denominator_pos (h : History) (p : Q) :
  0 < p ->
  h_total_user_loan_payments h <> 0%nat ->
  0 < flog (h_total_loan_amount h) ->
  h_total_loan_user_get h <> 0%nat ->
  0 < flog (h_loan_request_amount h) ->
  0 < denominator flog h p.
Proof.
  intros Hp Hn1 Hl1 Hn2 Hl2. unfold denominator.
  repeat apply DecFacts.mul_pos; auto using of_int_pos.
Qed.

Lemma log_previous_loan_nonneg (h : History) : 0 <= log_previous_loan flog h.
Proof.
  unfold log_previous_loan, Qgt_bool.
  destruct (h_previous_loan h) as [[amount | ] | ]; try lra.
  destruct (Qle_bool amount 0); [lra | ].
  destruct (Qle_bool (flog amount) 0) eqn:E; cbn; [lra | ].
  apply Qle_bool_false in E. lra.
Qed.

Lemma log_balance_nonneg (h : History) : 0 <= log_balance flog h.
Proof.
  unfold log_balance, Qgt_bool.
  destruct (Qle_bool (h_balance h) 0); [lra | ].
  destruct (Qle_bool (flog (h_balance h)) 0) eqn:E; cbn; [lra | ].
  apply Qle_bool_false in E. lra.
Qed.

Lemma total_month_no_loan_nonneg (h : History) :
  0 <= Dec.of_int (total_month_no_loan h).
Proof.
  unfold Dec.of_int, total_month_no_loan. change 0 with (inject_Z 0).
  rewrite <- Zle_Qle. lia.
Qed.

Lemma numerator_nonneg (h : History) : 0 <= numerator flog h.
Proof.
  unfold numerator.
  auto using DecFacts.mul_nonneg, log_previous_loan_nonneg, log_balance_nonneg,
    total_month_no_loan_nonneg.
Qed.

(** C1. [compute_user_score] is [score_of] on the history it queries. The
    score is unlimited exactly when one of the five denominator conditions
    holds; the [return None] that fires belongs to the first condition that
    holds, in the listed order (the residual check of the denominator
    product never fires); and when none holds, a numerator that is not
    positive gives the finite score 0, a positive one the positive quotient. *)
Theorem score_unlimited_exactly (h : History) :
  (forall (db : DB) (user : User),
     history db user = h -> compute_user_score flog db user = score_of flog h)
  /\ (score_of flog h = None <->
   cond_payment h || cond_portions h || cond_total flog h
   || cond_count h || cond_request flog h = true)
  /\ match score_trace flog h with
     | inl site => first_condition flog h = Some (site_condition site)
     | inr score =>
         first_condition flog h = None
         /\ if Qle_bool (numerator flog h) 0 then score = 0
            else score = Dec.div (numerator flog h)
                                 (denominator flog h
                                    (match h_last_payment h with
                                     | Some amount => amount
                                     | None => 0
                                     end))
                 /\ 0 < score
     end.
Proof.
  split; [intros db user <-; reflexivity | ].
  unfold score_of, score_trace, first_condition, cond_payment, cond_portions,
    cond_total, cond_count, cond_request.
  destruct (h_last_payment h) as [p | ]; cbn [orb]; [ | now split ].
  destruct (Qle_bool p 0) eqn:Hp; cbn [orb]; [now split | ].
  destruct (h_total_user_loan_payments h =? 0)%nat eqn:Hc1; cbn [orb]; [now split | ].
  destruct (Qle_bool (h_total_loan_amount h) 0) eqn:Ht; cbn [orb]; [now split | ].
  destruct (Qle_bool (flog (h_total_loan_amount h)) 0) eqn:Hlt; cbn [orb]; [now split | ].
  destruct (h_total_loan_user_get h =? 0)%nat eqn:Hc2; cbn [orb]; [now split | ].
  destruct (Qle_bool (h_loan_request_amount h) 0) eqn:Hr; cbn [orb]; [now split | ].
  destruct (Qle_bool (flog (h_loan_request_amount h)) 0) eqn:Hlr; cbn [orb]; [now split | ].
  apply Qle_bool_false in Hp, Hlt, Hlr.
  apply Nat.eqb_neq in Hc1, Hc2.
  pose proof (denominator_pos h p Hp Hc1 Hlt Hc2 Hlr) as Hd.
  apply Qle_bool_false in Hd. rewrite Hd.
  destruct (Qle_bool (numerator flog h) 0) eqn:Hn.
  - split; [split; discriminate | split; reflexivity].
  - split; [split; discriminate | ].
    split; [reflexivity | split; [reflexivity | ]].
    apply DecFacts.div_pos; apply Qle_bool_false; assumption.
Qed.


(** A finite score, unfolded: none of the [return None] fired. *)
Lemma score_of_finite (h : History) (score : Q) :
  score_of flog h = Some score ->
  exists p, h_last_payment h = Some p
    /\ 0 < p
    /\ h_total_user_loan_payments h <> 0%nat
    /\ 0 < h_total_loan_amount h
    /\ 0 < flog (h_total_loan_amount h)
    /\ h_total_loan_user_get h <> 0%nat
    /\ 0 < h_loan_request_amount h
    /\ 0 < flog (h_loan_request_amount h)
    /\ score = if Qle_bool (numerator flog h) 0 then 0
               else Dec.div (numerator flog h) (denominator flog h p).
Proof.
  unfold score_of, score_trace.
  destruct (h_last_payment h) as [p | ]; [ | discriminate].
  destruct (Qle_bool p 0) eqn:Hp; [discriminate | ].
  destruct (h_total_user_loan_payments h =? 0)%nat eqn:Hc1; [discriminate | ].
  destruct (Qle_bool (h_total_loan_amount h) 0) eqn:Ht; [discriminate | ].
  destruct (Qle_bool (flog (h_total_loan_amount h)) 0) eqn:Hlt; [discriminate | ].
  destruct (h_total_loan_user_get h =? 0)%nat eqn:Hc2; [discriminate | ].
  destruct (Qle_bool (h_loan_request_amount h) 0) eqn:Hr; [discriminate | ].
  destruct (Qle_bool (flog (h_loan_request_amount h)) 0) eqn:Hlr; [discriminate | ].
  destruct (Qle_bool (denominator flog h p) 0) eqn:Hd; [discriminate | ].
  apply Qle_bool_false in Hp, Ht, Hlt, Hr, Hlr.
  apply Nat.eqb_neq in Hc1, Hc2.
  intros H. exists p. repeat (split; [assumption || reflexivity | ]).
  destruct (Qle_bool (numerator flog h) 0); congruence.
Qed.

(** And back: the guards passed, the score is finite. *)
Lemma score_of_guards (h : History) (p : Q) :
  h_last_payment h = Some p ->
  0 < p ->
  h_total_user_loan_payments h <> 0%nat ->
  0 < h_total_loan_amount h ->
  0 < flog (h_total_loan_amount h) ->
  h_total_loan_user_get h <> 0%nat ->
  0 < h_loan_request_amount h ->
  0 < flog (h_loan_request_amount h) ->
  score_of flog h = Some (if Qle_bool (numerator flog h) 0 then 0
                          else Dec.div (numerator flog h) (denominator flog h p)).
Proof.
  intros Hl Hp Hc1 Ht Hlt Hc2 Hr Hlr.
  pose proof (denominator_pos h p Hp Hc1 Hlt Hc2 Hlr) as Hd.
  unfold score_of, score_trace. rewrite Hl.
  apply Qle_bool_false in Hp, Ht, Hlt, Hr, Hlr, Hd.
  apply Nat.eqb_neq in Hc1, Hc2.
  rewrite Hp, Hc1, Ht, Hlt, Hc2, Hr, Hlr, Hd.
  destruct (Qle_bool (numerator flog h) 0); reflexivity.
Qed.


(** C9 (amended). A finite positive score is the quotient of the numerator
    product by the denominator product as Python's default decimal context
    rounds it: the nearest decimal of 28 significant digits (an integer
    coefficient between 10^27 and 10^28 at the exponent of the quotient),
    within half a unit of its last digit, and not a value cut at 8
    fractional digits. *)
Theorem score_rounded_by_context (h : History) (score : Q) :
  score_of flog h = Some score -> 0 < score ->
  exists p : Q,
    h_last_payment h = Some p
    /\ let n := numerator flog h in
       let d := denominator flog h p in
       0 < n /\ 0 < d
       /\ score = Dec.div n d
       /\ (exists c : Z,
             (10 ^ 27 <= c <= 10 ^ 28)%Z
             /\ score = inject_Z c * Dec.pow10 (Dec.adjusted (n / d) - 27))
       /\ Qabs (score - n / d) <= (1 # 2) * Dec.pow10 (Dec.adjusted (n / d) - 27).
Proof.
  intros H Hpos.
  destruct (score_of_finite h score H)
    as (p & Hl & Hp & Hc1 & Ht & Hlt & Hc2 & Hr & Hlr & Hs).
  pose proof (denominator_pos h p Hp Hc1 Hlt Hc2 Hlr) as Hd.
  exists p. split; [exact Hl | ]. cbv zeta.
  destruct (Qle_bool (numerator flog h) 0) eqn:E; [subst score; lra | ].
  apply Qle_bool_false in E.
  assert (Hq : 0 < numerator flog h / denominator flog h p).
  { unfold Qdiv. apply Qmult_lt_0_compat; [exact E | apply Qinv_lt_0_compat, Hd]. }
  repeat (split; [assumption | ]).
  subst score. unfold Dec.div. rewrite DecFacts.fix_ctx_pos_eq by exact Hq.
  split.
  - exists (Dec.round_half_even
              (numerator flog h / denominator flog h p
               * Dec.pow10 (Dec.prec - 1
                            - Dec.adjusted (numerator flog h / denominator flog h p)))).
    split; [exact (DecFacts.coefficient_bounds _ Hq) | reflexivity].
  - exact (DecFacts.fix_pos_error _ Hq).
Qed.

Section Monotone.

(** The floating-point logarithm does not decrease. *)
Hypothesis flog_mono : forall x y : Q, 0 < x -> x <= y -> flog x <= flog y.

Lemma log_balance_mono (h : History) (b : Q) :
  h_balance h <= b -> log_balance flog h <= log_balance flog (with_balance h b).
Proof.
  intros Hb. pose proof (log_balance_nonneg (with_balance h b)) as Hnn.
  revert Hnn. unfold log_balance, Qgt_bool. cbn [h_balance with_balance].
  destruct (Qle_bool (h_balance h) 0) eqn:E1; [auto | ].
  apply Qle_bool_false in E1.
  pose proof (flog_mono _ _ E1 Hb) as Hm.
  destruct (Qle_bool b 0) eqn:E2; [apply Qle_bool_iff in E2; lra | ].
  destruct (Qle_bool (flog (h_balance h)) 0) eqn:E3; cbn [negb]; [auto | ].
  apply Qle_bool_false in E3.
  destruct (Qle_bool (flog b) 0) eqn:E4; cbn [negb]; [ | auto].
  apply Qle_bool_iff in E4. lra.
Qed.

Lemma score_nonneg (h : History) (score : Q) :
  score_of flog h = Some score -> 0 <= score.
Proof.
  intros H. destruct (score_of_finite h score H)
    as (p & Hl & Hp & Hc1 & Ht & Hlt & Hc2 & Hr & Hlr & ->).
  destruct (Qle_bool (numerator flog h) 0) eqn:E; [lra | ].
  apply Qle_bool_false in E. apply Qlt_le_weak, DecFacts.div_pos; [exact E | ].
  apply denominator_pos; assumption.
Qed.

(** C7 (amended). With a logarithm that does not decrease, and every other
    input held fixed: a larger balance leaves the score finite and does
    not lower it; a larger request leaves it finite and does not raise it;
    a larger count of paid periods without a repayment leaves it finite and
    does not lower it, and strictly raises a positive score (for a count
    of at most 10^26, which the 28 digits of the context tell apart). *)
Theorem score_monotone (h : History) (score : Q) :
  score_of flog h = Some score ->
  (forall b : Q, h_balance h <= b ->
     exists score', score_of flog (with_balance h b) = Some score'
                    /\ score <= score')
  /\ (forall r : Q, h_loan_request_amount h <= r ->
       exists score', score_of flog (with_loan_request_amount h r) = Some score'
                      /\ score' <= score)
  /\ (forall paid repaid : nat,
       (total_month_no_loan h
        <= total_month_no_loan (with_period_counts h paid repaid))%Z ->
       exists score', score_of flog (with_period_counts h paid repaid) = Some score'
                      /\ score <= score')
  /\ (forall paid repaid : nat,
       0 < score ->
       (total_month_no_loan h
        < total_month_no_loan (with_period_counts h paid repaid))%Z ->
       (total_month_no_loan h <= 10 ^ 26)%Z ->
       exists score', score_of flog (with_period_counts h paid repaid) = Some score'
                      /\ score < score').
Proof.
  intros H.
  destruct (score_of_finite h score H)
    as (p & Hl & Hp & Hc1 & Ht & Hlt & Hc2 & Hr & Hlr & Hs).
  pose proof (denominator_pos h p Hp Hc1 Hlt Hc2 Hlr) as Hd.
  pose proof (numerator_nonneg h) as Hn.
  pose proof (log_previous_loan_nonneg h) as Hlp.
  pose proof (log_balance_nonneg h) as Hlb.
  pose proof (total_month_no_loan_nonneg h) as Hmn.
  split; [ | split; [ | split]].
  - intros b Hb.
    pose proof (score_of_guards (with_balance h b) p Hl Hp Hc1 Ht Hlt Hc2 Hr Hlr) as H'.
    eexists. split; [exact H' | ]. subst score.
    assert (Hnum : numerator flog h <= numerator flog (with_balance h b)).
    { unfold numerator.
      change (log_previous_loan flog (with_balance h b))
        with (log_previous_loan flog h).
      change (total_month_no_loan (with_balance h b))
        with (total_month_no_loan h).
      apply DecFacts.mul_le_mono; try assumption.
      - apply DecFacts.mul_nonneg; assumption.
      - apply DecFacts.mul_le_mono; try assumption.
        + apply Qle_refl.
        + apply log_balance_mono, Hb.
      - apply Qle_refl. }
    change (denominator flog (with_balance h b) p) with (denominator flog h p).
    destruct (Qle_bool (numerator flog h) 0) eqn:E1;
    destruct (Qle_bool (numerator flog (with_balance h b)) 0) eqn:E2;
      try apply Qle_bool_iff in E1; try apply Qle_bool_iff in E2;
      try apply Qle_bool_false in E1; try apply Qle_bool_false in E2.
    + lra.
    + apply Qlt_le_weak, DecFacts.div_pos; assumption.
    + lra.
    + apply DecFacts.div_le_mono; try assumption; lra.
  - intros r Hrr.
    assert (Hr' : 0 < r) by lra.
    pose proof (flog_mono _ _ Hr Hrr) as Hm.
    assert (Hlr' : 0 < flog r) by lra.
    pose proof (score_of_guards (with_loan_request_amount h r) p Hl Hp Hc1 Ht Hlt Hc2 Hr' Hlr') as H'.
    eexists. split; [exact H' | ]. subst score.
    change (numerator flog (with_loan_request_amount h r)) with (numerator flog h).
    assert (Hden : denominator flog h p <= denominator flog (with_loan_request_amount h r) p).
    { unfold denominator. cbn [with_loan_request_amount h_loan_request_amount
        h_total_user_loan_payments h_total_loan_amount h_total_loan_user_get].
      apply DecFacts.mul_le_mono; try lra.
      apply Qlt_le_weak. repeat apply DecFacts.mul_pos; auto using of_int_pos. }
    destruct (Qle_bool (numerator flog h) 0) eqn:E1; [lra | ].
    apply Qle_bool_false in E1.
    apply DecFacts.div_le_mono; try assumption; lra.
  - intros paid repaid Hc.
    pose proof (score_of_guards (with_period_counts h paid repaid) p Hl Hp Hc1 Ht Hlt Hc2 Hr Hlr) as H'.
    eexists. split; [exact H' | ]. subst score.
    assert (Hnum : numerator flog h <= numerator flog (with_period_counts h paid repaid)).
    { unfold numerator.
      change (log_previous_loan flog (with_period_counts h paid repaid))
        with (log_previous_loan flog h).
      change (log_balance flog (with_period_counts h paid repaid))
        with (log_balance flog h).
      apply DecFacts.mul_le_mono; try assumption.
      - apply DecFacts.mul_nonneg; assumption.
      - apply Qle_refl.
      - unfold Dec.of_int. rewrite <- Zle_Qle. exact Hc. }
    change (denominator flog (with_period_counts h paid repaid) p) with (denominator flog h p).
    destruct (Qle_bool (numerator flog h) 0) eqn:E1;
    destruct (Qle_bool (numerator flog (with_period_counts h paid repaid)) 0) eqn:E2;
      try apply Qle_bool_iff in E1; try apply Qle_bool_iff in E2;
      try apply Qle_bool_false in E1; try apply Qle_bool_false in E2.
    + lra.
    + apply Qlt_le_weak, DecFacts.div_pos; assumption.
    + lra.
    + apply DecFacts.div_le_mono; try assumption; lra.
  - intros paid repaid Hpos Hc Hbound.
    pose proof (score_of_guards (with_period_counts h paid repaid) p Hl Hp Hc1 Ht Hlt Hc2 Hr Hlr) as H'.
    eexists. split; [exact H' | ]. subst score.
    change (denominator flog (with_period_counts h paid repaid) p)
      with (denominator flog h p).
    destruct (Qle_bool (numerator flog h) 0) eqn:E1; [lra | ].
    apply Qle_bool_false in E1.
    set (x := Dec.mul (log_previous_loan flog h) (log_balance flog h)).
    assert (Hx0 : 0 <= x) by (apply DecFacts.mul_nonneg; assumption).
    assert (Hx : 0 < x).
    { destruct (Qlt_le_dec 0 x) as [Hx | Hx]; [exact Hx | exfalso].
      unfold numerator in E1. fold x in E1.
      rewrite (DecFacts.mul_zero_l x) in E1 by lra. lra. }
    assert (Hc0 : (1 <= total_month_no_loan h)%Z).
    { destruct (Z_lt_le_dec 0 (total_month_no_loan h)) as [Hz | Hz]; [lia | exfalso].
      unfold numerator in E1.
      rewrite (DecFacts.mul_zero_r _ (Dec.of_int (total_month_no_loan h))) in E1.
      - lra.
      - unfold Dec.of_int. apply Qle_antisym; [ | exact Hmn].
        change 0 with (inject_Z 0). rewrite <- Zle_Qle. exact Hz. }
    change (10 ^ 26)%Z with 100000000000000000000000000%Z in Hbound.
    pose proof (DecFacts.mul_int_separates x _ _ Hx Hc0 Hc Hbound) as Hsep.
    assert (Hnum : numerator flog (with_period_counts h paid repaid)
                   = Dec.mul x (Dec.of_int (total_month_no_loan
                                              (with_period_counts h paid repaid))))
      by reflexivity.
    assert (Hnum0 : numerator flog h = Dec.mul x (Dec.of_int (total_month_no_loan h)))
      by reflexivity.
    rewrite <- Hnum, <- Hnum0 in Hsep.
    destruct (Qle_bool (numerator flog (with_period_counts h paid repaid)) 0) eqn:E2.
    + apply Qle_bool_iff in E2. lra.
    + apply DecFacts.div_separates; assumption.
Qed.

End Monotone.

End ScoreFacts.

(** ** Samples of the score *)

Lemma log2_floor_mono (x y : Q) : 0 < x -> x <= y -> Sample.log2_floor x <= Sample.log2_floor y.
Proof.
  intros _ Hxy. unfold Sample.log2_floor. rewrite <- Zle_Qle.
  apply Z.log2_le_mono, Qfloor_resp_le, Hxy.
Qed.

(** C9, a run of the amended statement on the sample history. *)
Lemma score_rounded_by_context_witness :
  exists p : Q,
    h_last_payment (history (Sample.db_history 500 100) (Sample.carol 500 100)) = Some p
    /\ let n := numerator Sample.flog (history (Sample.db_history 500 100) (Sample.carol 500 100)) in
       let d := denominator Sample.flog (history (Sample.db_history 500 100) (Sample.carol 500 100)) p in
       0 < n /\ 0 < d
       /\ (6747425010840045279714030370 # 100000000000000000000000000000) = Dec.div n d
       /\ (exists c : Z,
             (10 ^ 27 <= c <= 10 ^ 28)%Z
             /\ (6747425010840045279714030370 # 100000000000000000000000000000)
                = inject_Z c * Dec.pow10 (Dec.adjusted (n / d) - 27))
       /\ Qabs ((6747425010840045279714030370 # 100000000000000000000000000000) - n / d)
          <= (1 # 2) * Dec.pow10 (Dec.adjusted (n / d) - 27).
Proof.
  apply (score_rounded_by_context Sample.flog
           (history (Sample.db_history 500 100) (Sample.carol 500 100))).
  - vm_compute. reflexivity.
  - reflexivity.
Defined.

(** C9, refuted as stated: the score of the sample member carries 28
    significant digits; it has more than 8 fractional digits and differs
    from the quotient cut at 8 fractional digits. *)
Lemma score_not_fixed_point_8 :
  compute_user_score Sample.flog (Sample.db_history 500 100) (Sample.carol 500 100)
  = Some (6747425010840045279714030370 # 100000000000000000000000000000)
  /\ ~ fractional_digits_within 8
         (6747425010840045279714030370 # 100000000000000000000000000000)
  /\ ~ (6747425010840045279714030370 # 100000000000000000000000000000)
       == fixed_point_div 8
            (numerator Sample.flog (history (Sample.db_history 500 100) (Sample.carol 500 100)))
            (denominator Sample.flog (history (Sample.db_history 500 100) (Sample.carol 500 100)) 20).
Proof.
  split; [vm_compute; reflexivity | split].
  - intros [k Hk]. revert Hk.
    replace (Dec.pow10 (- (8))) with (1 # 100000000) by (vm_compute; reflexivity).
    unfold Qeq, Qmult, inject_Z. cbn [Qnum Qden]. lia.
  - vm_compute. discriminate.
Qed.

(** C7, refuted as stated. A finite score of 0 stays 0 under a larger
    balance, a larger request and one more paid period without repayment;
    and a positive score stays the same under a larger balance, or a larger
    request, that the conversion to a binary float cannot tell apart
    (100000000000 and 100000000000.00000001 are the same float). *)
Lemma score_not_strictly_monotone :
  (500 < 600
   /\ compute_user_score Sample.flog (Sample.db_repaid_only 500 100) (Sample.carol 500 100) = Some 0
   /\ compute_user_score Sample.flog (Sample.db_repaid_only 600 100) (Sample.carol 600 100) = Some 0)
  /\ (100 < 150
      /\ compute_user_score Sample.flog (Sample.db_repaid_only 500 150) (Sample.carol 500 150) = Some 0)
  /\ ((total_month_no_loan (history (Sample.db_history 1 100) (Sample.carol 1 100))
       < total_month_no_loan (history (Sample.db_one_more_period 1 100) (Sample.carol 1 100)))%Z
      /\ compute_user_score Sample.flog (Sample.db_history 1 100) (Sample.carol 1 100) = Some 0
      /\ compute_user_score Sample.flog (Sample.db_one_more_period 1 100) (Sample.carol 1 100) = Some 0)
  /\ (100000000000 < (10000000000000000001 # 100000000)
      /\ compute_user_score Sample.flog (Sample.db_history 100000000000 100)
           (Sample.carol 100000000000 100)
         = Some (2749999999999999782852759048 # 10000000000000000000000000000)
      /\ compute_user_score Sample.flog
           (Sample.db_history (10000000000000000001 # 100000000) 100)
           (Sample.carol (10000000000000000001 # 100000000) 100)
         = Some (2749999999999999782852759048 # 10000000000000000000000000000))
  /\ (100000000000 < (10000000000000000001 # 100000000)
      /\ compute_user_score Sample.flog (Sample.db_history 500 100000000000)
           (Sample.carol 500 100000000000)
         = Some (1226804547425462875001541034 # 100000000000000000000000000000)
      /\ compute_user_score Sample.flog
           (Sample.db_history 500 (10000000000000000001 # 100000000))
           (Sample.carol 500 (10000000000000000001 # 100000000))
         = Some (1226804547425462875001541034 # 100000000000000000000000000000)).
Proof.
  repeat split; vm_compute; reflexivity.
Qed.

(** C7, a run of the amended statement: the sample history under the
    binary logarithm of the integer part. *)
Lemma score_monotone_witness :
  (forall b : Q,
     h_balance (history (Sample.db_history 500 100) (Sample.carol 500 100)) <= b ->
     exists score',
       score_of Sample.log2_floor
         (with_balance (history (Sample.db_history 500 100) (Sample.carol 500 100)) b)
       = Some score'
       /\ (6666666666666666666666666667 # 100000000000000000000000000000) <= score')
  /\ (forall r : Q,
       h_loan_request_amount (history (Sample.db_history 500 100) (Sample.carol 500 100)) <= r ->
       exists score',
         score_of Sample.log2_floor
           (with_loan_request_amount
              (history (Sample.db_history 500 100) (Sample.carol 500 100)) r)
         = Some score'
         /\ score' <= (6666666666666666666666666667 # 100000000000000000000000000000))
  /\ (forall paid repaid : nat,
       (total_month_no_loan (history (Sample.db_history 500 100) (Sample.carol 500 100))
        <= total_month_no_loan
             (with_period_counts
                (history (Sample.db_history 500 100) (Sample.carol 500 100)) paid repaid))%Z ->
       exists score',
         score_of Sample.log2_floor
           (with_period_counts
              (history (Sample.db_history 500 100) (Sample.carol 500 100)) paid repaid)
         = Some score'
         /\ (6666666666666666666666666667 # 100000000000000000000000000000) <= score')
  /\ (forall paid repaid : nat,
       0 < (6666666666666666666666666667 # 100000000000000000000000000000) ->
       (total_month_no_loan (history (Sample.db_history 500 100) (Sample.carol 500 100))
        < total_month_no_loan
            (with_period_counts
               (history (Sample.db_history 500 100) (Sample.carol 500 100)) paid repaid))%Z ->
       (total_month_no_loan (history (Sample.db_history 500 100) (Sample.carol 500 100))
        <= 10 ^ 26)%Z ->
       exists score',
         score_of Sample.log2_floor
           (with_period_counts
              (history (Sample.db_history 500 100) (Sample.carol 500 100)) paid repaid)
         = Some score'
         /\ (6666666666666666666666666667 # 100000000000000000000000000000) < score').
Proof.
  apply (score_monotone Sample.log2_floor log2_floor_mono
           (history (Sample.db_history 500 100) (Sample.carol 500 100)) (6666666666666666666666666667 # 100000000000000000000000000000)).
  vm_compute. reflexivity.
Defined.

(** ** The orchestrator: its steps *)

Lemma get_config_spec (db : DB) :
  get_config db = (set_config db (current_config db), current_config db).
Proof.
  unfold get_config, current_config, set_config.
  destruct db as [us ps lps ls [c | ]]; reflexivity.
Qed.

Lemma eligibility_loop_spec (db : DB) (all_users : list User) :
  forall (log_np : list NotParticipatedEntry) (eligible : list User),
    eligibility_loop db all_users log_np eligible
    = (log_np ++ not_participated_entries db all_users,
       eligible ++ eligible_set db all_users).
Proof.
  induction all_users as [ | user rest IH]; intros log_np eligible.
  - cbn. now rewrite !app_nil_r.
  - cbn [eligibility_loop not_participated_entries eligible_set flat_map filter].
    unfold exclusion_reason.
    destruct (negb (is_main user)
              && Qgt_bool (loan_request_amount user) (balance user));
      [ | destruct (has_active_loan db user);
          [ | destruct (Qle_bool (loan_request_amount user) 0) ] ];
      rewrite IH, <- ?app_assoc; reflexivity.
Qed.

(** *** The winner group *)

Lemma max_from_In (items : list Q) :
  forall best : Q, In (max_from best items) (best :: items).
Proof.
  induction items as [ | x rest IH]; intros best; cbn [max_from].
  - now left.
  - destruct (IH (if Qgt_bool x best then x else best)) as [H | H].
    + destruct (Qgt_bool x best); rewrite <- H; [right; now left | now left].
    + right. now right.
Qed.

Lemma max_from_ge (items : list Q) :
  forall best y : Q, In y (best :: items) -> y <= max_from best items.
Proof.
  induction items as [ | x rest IH]; intros best y Hy; cbn [max_from].
  - destruct Hy as [<- | []]. apply Qle_refl.
  - assert (Hb : best <= (if Qgt_bool x best then x else best)
                 /\ x <= (if Qgt_bool x best then x else best)).
    { unfold Qgt_bool. destruct (Qle_bool x best) eqn:E; cbn [negb].
      - apply Qle_bool_iff in E. split; [apply Qle_refl | exact E].
      - apply Qle_bool_false in E. split; [lra | apply Qle_refl]. }
    destruct Hb as [Hb Hx].
    destruct Hy as [<- | [<- | Hy]].
    + eapply Qle_trans; [exact Hb | apply IH; now left].
    + eapply Qle_trans; [exact Hx | apply IH; now left].
    + apply IH. now right.
Qed.

Lemma existsb_is_unlimited_false (l : list UserScore) :
  existsb is_unlimited l = false ->
  forall us, In us l -> exists s, us_score us = Some s.
Proof.
  intros H us Hin.
  destruct (us_score us) as [s | ] eqn:E; [now exists s | ].
  assert (existsb is_unlimited l = true).
  { apply existsb_exists. exists us. split; [exact Hin | ].
    unfold is_unlimited. now rewrite E. }
  congruence.
Qed.

Lemma decimal_scores_In (l : list UserScore) (s : Q) :
  In s (decimal_scores l) <-> exists us, In us l /\ us_score us = Some s.
Proof.
  unfold decimal_scores. rewrite in_flat_map. split.
  - intros (us & Hin & Hs). exists us. split; [exact Hin | ].
    destruct (us_score us); [destruct Hs as [<- | []]; reflexivity | destruct Hs].
  - intros (us & Hin & Hs). exists us. split; [exact Hin | ].
    rewrite Hs. now left.
Qed.

(** The group the code builds is the winner group of the specification,
    and it is not empty. *)
Lemma max_score_group_spec (l : list UserScore) :
  l <> [] ->
  exists group,
    max_score_group l = Some group
    /\ group = filter (in_winner_group l) l
    /\ group <> [].
Proof.
  intros Hne. unfold max_score_group.
  destruct (existsb is_unlimited l) eqn:Hu.
  - eexists. split; [reflexivity | split].
    + apply filter_ext. intros us. unfold in_winner_group. now rewrite Hu.
    + apply existsb_exists in Hu. destruct Hu as (us & Hin & Hus).
      intros E. assert (Hin' : In us (filter is_unlimited l))
        by (apply filter_In; split; assumption).
      rewrite E in Hin'. exact Hin'.
  - pose proof (existsb_is_unlimited_false l Hu) as Hall.
    destruct (decimal_scores l) as [ | x rest] eqn:Hd.
    + exfalso. destruct l as [ | us l']; [now apply Hne | ].
      destruct (Hall us (or_introl eq_refl)) as [s Hs].
      assert (Hin : In s (decimal_scores (us :: l')))
        by (apply decimal_scores_In; exists us; split; [now left | exact Hs]).
      rewrite Hd in Hin. exact Hin.
    + cbn [max_of]. set (m := max_from x rest).
      assert (Hm_in : In m (decimal_scores l))
        by (rewrite Hd; apply max_from_In).
      assert (Hm_ge : forall y, In y (decimal_scores l) -> y <= m)
        by (intros y Hy; rewrite Hd in Hy; apply max_from_ge, Hy).
      apply decimal_scores_In in Hm_in. destruct Hm_in as (top & Htop_in & Htop).
      eexists. split; [reflexivity | split].
      * apply filter_ext_in. intros us Hin.
        unfold in_winner_group, score_is. rewrite Hu.
        destruct (Hall us Hin) as [s Hs]. rewrite Hs.
        destruct (Qeq_bool s m) eqn:E.
        -- apply Qeq_bool_iff in E. symmetry. apply forallb_forall.
           intros other Ho. unfold score_le. rewrite Hs.
           destruct (Hall other Ho) as [t Ht]. rewrite Ht.
           apply Qle_bool_iff. rewrite E. apply Hm_ge.
           apply decimal_scores_In. exists other. split; assumption.
        -- symmetry. apply not_true_is_false. intros Hf.
           rewrite forallb_forall in Hf.
           pose proof (Hf top Htop_in) as Ht. unfold score_le in Ht.
           rewrite Htop, Hs in Ht. apply Qle_bool_iff in Ht.
           assert (Hsm : s <= m)
             by (apply Hm_ge, decimal_scores_In; exists us; split; assumption).
           assert (Heq : s == m) by (apply Qle_antisym; assumption).
           apply Qeq_bool_iff in Heq. congruence.
      * intros E.
        assert (Hin' : In top (filter (score_is m) l)).
        { apply filter_In. split; [exact Htop_in | ].
          unfold score_is. rewrite Htop. apply Qeq_bool_refl. }
        rewrite E in Hin'. exact Hin'.
Qed.

Lemma random_choice_In {A : Type} (draw : nat) (seq : list A) :
  seq <> [] -> exists x, random_choice draw seq = Some x /\ In x seq.
Proof.
  intros Hne. unfold random_choice. destruct seq as [ | a rest]; [now elim Hne | ].
  destruct (nth_error (a :: rest) (draw mod List.length (a :: rest))) as [x | ] eqn:E.
  - exists x. split; [reflexivity | eapply nth_error_In, E].
  - exfalso. apply nth_error_None in E.
    pose proof (Nat.mod_upper_bound draw (List.length (a :: rest))) as Hb.
    cbn [List.length] in *. lia.
Qed.

(** *** The four ways a run ends *)

Section RunFacts.

Variable flog : Q -> Q.

Lemma winner_user_found (db : DB) (winner : UserScore) :
  In winner (scored flog db) ->
  exists u, find (fun u => (id u =? us_user_id winner)%Z) (eligible_users db) = Some u
            /\ id u = us_user_id winner
            /\ In u (eligible_users db).
Proof.
  unfold scored. rewrite in_map_iff. intros (u0 & <- & Hin).
  destruct (find (fun u => (id u =? us_user_id (user_score flog db u0))%Z)
                 (eligible_users db)) as [u | ] eqn:E.
  - exists u. apply find_some in E. destruct E as [Hu E].
    apply Z.eqb_eq in E. repeat split; assumption.
  - exfalso. pose proof (find_none _ _ E u0 Hin) as Hn.
    cbn in Hn. rewrite Z.eqb_refl in Hn. discriminate.
Qed.

(** Some active member has not paid: the [ValueError]. *)
Lemma run_unpaid (db : DB) (jalali_year jalali_month : nat) (now : Z) (draw : nat) :
  unpaid_users db jalali_year jalali_month <> [] ->
  run_loan_assignment flog db jalali_year jalali_month now draw
  = (set_config db (current_config db),
     inl (ValueError (unpaid_message jalali_year jalali_month
                        (unpaid_users db jalali_year jalali_month)))).
Proof.
  intros Hne. unfold run_loan_assignment. rewrite get_config_spec.
  change (unpaid_users (set_config db (current_config db)) jalali_year jalali_month)
    with (unpaid_users db jalali_year jalali_month).
  destruct (unpaid_users db jalali_year jalali_month); [now elim Hne | reflexivity].
Qed.

(** Everybody paid, nobody is eligible. *)
Lemma run_no_eligible (db : DB) (jalali_year jalali_month : nat) (now : Z) (draw : nat) :
  unpaid_users db jalali_year jalali_month = [] ->
  eligible_users db = [] ->
  run_loan_assignment flog db jalali_year jalali_month now draw
  = Loan_create (set_config db (current_config db))
      (unallocated jalali_year jalali_month now
         {| not_participated := not_participated_entries db (active_users db);
            participated := [];
            selected := None;
            random_pool := [];
            note := None |}).
Proof.
  intros Hpaid Hel. unfold run_loan_assignment. rewrite get_config_spec.
  change (unpaid_users (set_config db (current_config db)) jalali_year jalali_month)
    with (unpaid_users db jalali_year jalali_month).
  rewrite Hpaid. cbv zeta. rewrite eligibility_loop_spec. cbn [app].
  change (eligible_set (set_config db (current_config db))
            (active_users (set_config db (current_config db))))
    with (eligible_users db).
  rewrite Hel. reflexivity.
Qed.

(** Somebody is eligible, nobody is affordable. *)
Lemma run_unaffordable (db : DB) (jalali_year jalali_month : nat) (now : Z) (draw : nat) :
  unpaid_users db jalali_year jalali_month = [] ->
  eligible_users db <> [] ->
  affordable flog db = [] ->
  run_loan_assignment flog db jalali_year jalali_month now draw
  = Loan_create (set_config db (current_config db))
      (unallocated jalali_year jalali_month now
         {| not_participated := not_participated_entries db (active_users db);
            participated := map (participated_entry flog db) (eligible_users db);
            selected := None;
            random_pool := [];
            note := Some affordability_note |}).
Proof.
  intros Hpaid Hel Haff. unfold run_loan_assignment. rewrite get_config_spec.
  change (unpaid_users (set_config db (current_config db)) jalali_year jalali_month)
    with (unpaid_users db jalali_year jalali_month).
  rewrite Hpaid. cbv zeta. rewrite eligibility_loop_spec. cbn [app].
  change (eligible_set (set_config db (current_config db))
            (active_users (set_config db (current_config db))))
    with (eligible_users db).
  destruct (eligible_users db) as [ | u0 rest] eqn:E; [now elim Hel | ].
  change (filter
            (fun us => Qle_bool (us_loan_request_amount us)
                                (saghat_balance (set_config db (current_config db))))
            (map (user_score flog (set_config db (current_config db))) (u0 :: rest)))
    with (filter (fun us => Qle_bool (us_loan_request_amount us) (saghat_balance db))
                 (map (user_score flog db) (u0 :: rest))).
  rewrite <- E. fold (scored flog db). fold (affordable flog db).
  rewrite Haff. reflexivity.
Qed.

(** Somebody is affordable: a winner is drawn from the winner group. *)
Lemma run_selected (db : DB) (jalali_year jalali_month : nat) (now : Z) (draw : nat) :
  unpaid_users db jalali_year jalali_month = [] ->
  affordable flog db <> [] ->
  exists winner,
    random_choice draw (filter (in_winner_group (affordable flog db)) (affordable flog db))
    = Some winner
    /\ In winner (filter (in_winner_group (affordable flog db)) (affordable flog db))
    /\ run_loan_assignment flog db jalali_year jalali_month now draw
       = Loan_create (set_config db (current_config db))
           (allocated jalali_year jalali_month now (current_config db) winner
              {| not_participated := not_participated_entries db (active_users db);
                 participated := map (participated_entry flog db) (eligible_users db);
                 selected := Some (us_user_id winner);
                 random_pool :=
                   map us_user_id
                       (filter (in_winner_group (affordable flog db)) (affordable flog db));
                 note := None |}).
Proof.
  intros Hpaid Haff.
  destruct (max_score_group_spec (affordable flog db) Haff) as (group & Hg & Hgs & Hgne).
  destruct (random_choice_In draw group Hgne) as (winner & Hw & Hwin).
  assert (Hscored : In winner (scored flog db)).
  { rewrite Hgs in Hwin. apply filter_In in Hwin. destruct Hwin as [Hwin _].
    unfold affordable in Hwin. apply filter_In in Hwin. tauto. }
  destruct (winner_user_found db winner Hscored) as (u & Hfind & Hid & _).
  exists winner. rewrite <- Hgs. split; [exact Hw | split; [exact Hwin | ]].
  unfold run_loan_assignment. rewrite get_config_spec.
  change (unpaid_users (set_config db (current_config db)) jalali_year jalali_month)
    with (unpaid_users db jalali_year jalali_month).
  rewrite Hpaid. cbv zeta. rewrite eligibility_loop_spec. cbn [app].
  change (eligible_set (set_config db (current_config db))
            (active_users (set_config db (current_config db))))
    with (eligible_users db).
  destruct (eligible_users db) as [ | u0 rest] eqn:E.
  { exfalso. apply Haff. unfold affordable, scored. rewrite E. reflexivity. }
  change (filter
            (fun us => Qle_bool (us_loan_request_amount us)
                                (saghat_balance (set_config db (current_config db))))
            (map (user_score flog (set_config db (current_config db))) (u0 :: rest)))
    with (filter (fun us => Qle_bool (us_loan_request_amount us) (saghat_balance db))
                 (map (user_score flog db) (u0 :: rest))).
  rewrite <- E. fold (scored flog db). fold (affordable flog db).
  destruct (affordable flog db) as [ | a0 arest] eqn:Ea; [now elim Haff | ].
  rewrite <- E in Hfind.
  rewrite Hg, Hw, Hfind. unfold allocated. rewrite Hid.
  reflexivity.
Qed.

End RunFacts.

(** *** Writing the allocation *)

Lemma Loan_create_free (db : DB) (l : Loan) :
  period_taken db (l_jalali_year l) (l_jalali_month l) = false ->
  Loan_create db l = (add_loan db l, inr l).
Proof. intros H. unfold Loan_create. now rewrite H. Qed.

Lemma Loan_create_taken (db : DB) (l : Loan) :
  period_taken db (l_jalali_year l) (l_jalali_month l) = true ->
  Loan_create db l = (db, inl IntegrityError).
Proof. intros H. unfold Loan_create. now rewrite H. Qed.

Lemma period_taken_In (db : DB) (y m : nat) :
  period_taken db y m = true
  <-> In (y, m) (map (fun l => (l_jalali_year l, l_jalali_month l)) (loans db)).
Proof.
  unfold period_taken. rewrite existsb_exists, in_map_iff. split.
  - intros (l & Hin & H). apply andb_true_iff in H. destruct H as [Hy Hm].
    apply Nat.eqb_eq in Hy, Hm. exists l. split; [congruence | exact Hin].
  - intros (l & E & Hin). injection E as Hy Hm. exists l. split; [exact Hin | ].
    now rewrite Hy, Hm, !Nat.eqb_refl.
Qed.

Lemma period_taken_add_loan (db : DB) (l : Loan) :
  period_taken (add_loan db l) (l_jalali_year l) (l_jalali_month l) = true.
Proof.
  apply period_taken_In. cbn [add_loan loans]. rewrite map_app. apply in_or_app.
  right. now left.
Qed.

Lemma unique_periods_add_loan (db : DB) (l : Loan) :
  unique_periods (loans db) ->
  period_taken db (l_jalali_year l) (l_jalali_month l) = false ->
  unique_periods (loans (add_loan db l)).
Proof.
  unfold unique_periods. intros Hu Hf. cbn [add_loan loans]. rewrite map_app.
  apply NoDup_app; [exact Hu | repeat constructor; intros [] | ].
  intros a Ha [<- | []].
  apply period_taken_In in Ha. congruence.
Qed.

(** *** Strings *)

Lemma append_nil_r (s : string) : (s ++ "")%string = s.
Proof. induction s as [ | c s IH]; cbn; [reflexivity | now rewrite IH]. Qed.

Lemma append_assoc (s t u : string) : ((s ++ t) ++ u = s ++ (t ++ u))%string.
Proof. induction s as [ | c s IH]; cbn; [reflexivity | now rewrite IH]. Qed.

Lemma names_append_r (prefix message name : string) :
  names message name -> names (prefix ++ message) name.
Proof.
  intros (before & after & ->). exists (prefix ++ before)%string, after.
  now rewrite append_assoc.
Qed.

Lemma concat_names (sep : string) (ls : list string) (name : string) :
  In name ls -> names (String.concat sep ls) name.
Proof.
  induction ls as [ | x rest IH]; intros Hin; [destruct Hin | ].
  destruct rest as [ | y rest'].
  - destruct Hin as [<- | []]. exists ""%string, ""%string. cbn.
    now rewrite append_nil_r.
  - change (String.concat sep (x :: y :: rest'))
      with (x ++ sep ++ String.concat sep (y :: rest'))%string.
    destruct Hin as [<- | Hin].
    + exists ""%string, (sep ++ String.concat sep (y :: rest'))%string. reflexivity.
    + apply names_append_r, names_append_r, IH, Hin.
Qed.

Lemma unpaid_message_names (y m : nat) (unpaid : list User) (u : User) :
  In u unpaid -> names (unpaid_message y m unpaid) (username u).
Proof.
  intros Hin. unfold unpaid_message.
  repeat apply names_append_r.
  apply concat_names, in_map, Hin.
Qed.

(** *** The fund balance *)

Lemma Sum_balance (l : list User) :
  match Sum (map (fun u => Some (balance u)) l) with
  | Some t => t == sum_balance l
  | None => l = []
  end.
Proof.
  induction l as [ | u rest IH]; cbn [map Sum sum_balance fold_right]; [reflexivity | ].
  destruct (Sum (map (fun u => Some (balance u)) rest)) as [t | ].
  - fold (sum_balance rest). now rewrite IH.
  - subst rest. cbn. ring.
Qed.

Lemma saghat_balance_sum (db : DB) : saghat_balance db == sum_balance (active_users db).
Proof.
  unfold saghat_balance, or_zero.
  pose proof (Sum_balance (active_users db)) as H.
  destruct (Sum (map (fun u => Some (balance u)) (active_users db))) as [t | ].
  - destruct (Qeq_bool t 0) eqn:E; [ | exact H].
    apply Qeq_bool_iff in E. now rewrite <- H, E.
  - rewrite H. reflexivity.
Qed.

(** ** The orchestrator: what a run guarantees *)

Section RunClaims.

Variable flog : Q -> Q.

Lemma exclusion_reason_None (db : DB) (user : User) :
  exclusion_reason db user = None
  <-> (is_main user = true \/ loan_request_amount user <= balance user)
      /\ has_active_loan db user = false
      /\ 0 < loan_request_amount user.
Proof.
  unfold exclusion_reason.
  assert (Ha : negb (is_main user)
               && Qgt_bool (loan_request_amount user) (balance user) = false
               <-> (is_main user = true
                    \/ loan_request_amount user <= balance user)).
  { unfold Qgt_bool. destruct (is_main user); cbn [negb andb].
    - split; auto.
    - destruct (Qle_bool (loan_request_amount user) (balance user)) eqn:E;
        cbn [negb].
      + apply Qle_bool_iff in E. split; auto.
      + apply Qle_bool_false in E. split; [discriminate | ].
        intros [H | H]; [discriminate | lra]. }
  destruct (negb (is_main user)
            && Qgt_bool (loan_request_amount user) (balance user)).
  - split; [discriminate | ]. intros (H & _). apply Ha in H. discriminate.
  - pose proof (proj1 Ha eq_refl) as Ha'.
    destruct (has_active_loan db user).
    + split; [discriminate | intros (_ & H & _); discriminate].
    + destruct (Qle_bool (loan_request_amount user) 0) eqn:Ec.
      * apply Qle_bool_iff in Ec. split; [discriminate | ].
        intros (_ & _ & H). lra.
      * apply Qle_bool_false in Ec. split; auto.
Qed.







(** Every run ends with the [ValueError] for unpaid members or with the
    creation of a terminal allocation of the period. *)
Lemma run_cases (db : DB) (jalali_year jalali_month : nat) (now : Z) (draw : nat) :
  (unpaid_users db jalali_year jalali_month <> []
   /\ run_loan_assignment flog db jalali_year jalali_month now draw
      = (set_config db (current_config db),
         inl (ValueError (unpaid_message jalali_year jalali_month
                            (unpaid_users db jalali_year jalali_month)))))
  \/ (unpaid_users db jalali_year jalali_month = []
      /\ exists loan : Loan,
           run_loan_assignment flog db jalali_year jalali_month now draw
           = Loan_create (set_config db (current_config db)) loan
           /\ l_jalali_year loan = jalali_year
           /\ l_jalali_month loan = jalali_month
           /\ terminal_allocation loan).
Proof.
  destruct (unpaid_users db jalali_year jalali_month) as [ | u0 urest] eqn:Hpaid.
  2: { left. split; [discriminate | ]. rewrite <- Hpaid. apply run_unpaid.
       rewrite Hpaid. discriminate. }
  right. split; [reflexivity | ].
  assert (Hno : forall log,
            terminal_allocation (unallocated jalali_year jalali_month now
               {| not_participated := not_participated_entries db (active_users db);
                  participated := log; selected := None; random_pool := [];
                  note := None |})
            /\ forall n, terminal_allocation (unallocated jalali_year jalali_month now
               {| not_participated := not_participated_entries db (active_users db);
                  participated := log; selected := None; random_pool := [];
                  note := n |})).
  { intros log. split; [ | intros n]; unfold terminal_allocation; cbn;
      (split; [now right | repeat split; intros H; congruence || discriminate]). }
  destruct (eligible_users db) as [ | e0 erest] eqn:Hel.
  - eexists. split; [apply run_no_eligible; assumption | ].
    split; [reflexivity | split; [reflexivity | apply Hno]].
  - destruct (affordable flog db) as [ | a0 arest] eqn:Haff.
    + eexists. split.
      * apply run_unaffordable; [assumption | rewrite Hel; discriminate | assumption].
      * split; [reflexivity | split; [reflexivity | apply Hno]].
    + assert (Hne : affordable flog db <> []) by (rewrite Haff; discriminate).
      destruct (run_selected flog db jalali_year jalali_month now draw Hpaid Hne)
        as (winner & _ & _ & Hrun).
      eexists. split; [exact Hrun | ].
      split; [reflexivity | split; [reflexivity | ]].
      unfold terminal_allocation. cbn.
      split; [now left | repeat split; intros H; congruence || discriminate].
Qed.


(** C8. Whatever a run adds to the table of allocations is one terminal
    record: a run that raises adds nothing, a run that returns an
    allocation has appended exactly that one, ACTIVE or UNALLOCATED, with
    amount, member and selected id present exactly when it is ACTIVE. *)
Theorem produced_allocation_terminal (db : DB) (jalali_year jalali_month : nat)
    (now : Z) (draw : nat) :
  match run_loan_assignment flog db jalali_year jalali_month now draw with
  | (db', inl _) => loans db' = loans db
  | (db', inr loan) =>
      loans db' = loans db ++ [loan]
      /\ terminal_allocation loan
      /\ l_state loan <> INITIAL
      /\ l_jalali_year loan = jalali_year
      /\ l_jalali_month loan = jalali_month
  end.
Proof.
  destruct (run_cases db jalali_year jalali_month now draw)
    as [[_ Hrun] | [_ (loan & Hrun & Hy & Hm & Hterm)]]; rewrite Hrun.
  - reflexivity.
  - unfold Loan_create.
    destruct (period_taken (set_config db (current_config db))
                (l_jalali_year loan) (l_jalali_month loan)).
    + reflexivity.
    + repeat split; try assumption; try apply Hterm.
      destruct Hterm as [[H | H] _]; rewrite H; discriminate.
Qed.

(** C10 (amended). Without any active member the run never raises the
    error for unpaid members. For a period that fits the columns: when the
    period is free the run succeeds, and the table of allocations then
    holds, as its last row, the UNALLOCATED allocation of the period with
    an empty audit log; when the period has its allocation the run raises
    the uniqueness violation and the table is as before. *)
Theorem no_active_members (db : DB) (jalali_year jalali_month : nat)
    (now : Z) (draw : nat) :
  active_users db = [] ->
  fits_column jalali_year ->
  fits_column jalali_month ->
  let loan :=
    unallocated jalali_year jalali_month now
      {| not_participated := []; participated := []; selected := None;
         random_pool := []; note := None |} in
  let outcome := run_loan_assignment flog db jalali_year jalali_month now draw in
  (forall message : string, snd outcome <> inl (ValueError message))
  /\ (period_taken db jalali_year jalali_month = false ->
      outcome = (add_loan (set_config db (current_config db)) loan, inr loan)
      /\ loans (fst outcome) = loans db ++ [loan]
      /\ In loan (loans (fst outcome))
      /\ l_state loan = NO_ONE
      /\ l_jalali_year loan = jalali_year
      /\ l_jalali_month loan = jalali_month
      /\ not_participated (l_log loan) = []
      /\ participated (l_log loan) = []
      /\ selected (l_log loan) = None
      /\ random_pool (l_log loan) = [])
  /\ (period_taken db jalali_year jalali_month = true ->
      outcome = (set_config db (current_config db), inl IntegrityError)
      /\ loans (fst outcome) = loans db).
Proof.
  intros Hnone _ _ loan outcome.
  assert (Hpaid : unpaid_users db jalali_year jalali_month = [])
    by (unfold unpaid_users; rewrite Hnone; reflexivity).
  assert (Hel : eligible_users db = [])
    by (unfold eligible_users; rewrite Hnone; reflexivity).
  pose proof (run_no_eligible flog db jalali_year jalali_month now draw Hpaid Hel)
    as Hrun.
  rewrite Hnone in Hrun. cbn [not_participated_entries flat_map] in Hrun.
  fold loan in Hrun. fold outcome in Hrun.
  assert (Hfree : period_taken db jalali_year jalali_month = false ->
                  outcome = (add_loan (set_config db (current_config db)) loan,
                             inr loan)).
  { intros H. rewrite Hrun. apply Loan_create_free. exact H. }
  assert (Htaken : period_taken db jalali_year jalali_month = true ->
                   outcome = (set_config db (current_config db),
                              inl IntegrityError)).
  { intros H. rewrite Hrun. apply Loan_create_taken. exact H. }
  split.
  - intros message.
    destruct (period_taken db jalali_year jalali_month);
      [rewrite (Htaken eq_refl) | rewrite (Hfree eq_refl)]; discriminate.
  - split.
    + intros H. rewrite (Hfree H). cbn [fst add_loan set_config loans].
      repeat split. apply in_or_app. right. now left.
    + intros H. rewrite (Htaken H). split; reflexivity.
Qed.

(** C5 (amended). A run keeps the periods of the allocations distinct; it
    can only return an allocation for a period that was free; after it has
    returned one, every further run for that period raises the uniqueness
    violation and leaves the database as it is. In general a run for a
    period that already has an allocation raises, and leaves the tables of
    members, payments, repayments and allocations as they are: the
    uniqueness violation when every active member has paid, the
    [ValueError] for the unpaid members otherwise; the one write it can
    leave is the configuration row, created when it is missing. *)
Theorem once_per_period (db : DB) (jalali_year jalali_month : nat)
    (now : Z) (draw : nat) :
  (unique_periods (loans db) ->
   unique_periods
     (loans (fst (run_loan_assignment flog db jalali_year jalali_month now draw))))
  /\ (forall (db' : DB) (loan : Loan),
        run_loan_assignment flog db jalali_year jalali_month now draw
        = (db', inr loan) ->
        period_taken db jalali_year jalali_month = false
        /\ loans db' = loans db ++ [loan]
        /\ forall (now' : Z) (draw' : nat),
             run_loan_assignment flog db' jalali_year jalali_month now' draw'
             = (db', inl IntegrityError))
  /\ (period_taken db jalali_year jalali_month = true ->
      exists e : Exception,
        run_loan_assignment flog db jalali_year jalali_month now draw
        = (set_config db (current_config db), inl e)
        /\ (unpaid_users db jalali_year jalali_month = [] -> e = IntegrityError)
        /\ (unpaid_users db jalali_year jalali_month <> [] ->
            e = ValueError (unpaid_message jalali_year jalali_month
                              (unpaid_users db jalali_year jalali_month)))
        /\ users (set_config db (current_config db)) = users db
        /\ payments (set_config db (current_config db)) = payments db
        /\ loan_payments (set_config db (current_config db)) = loan_payments db
        /\ loans (set_config db (current_config db)) = loans db
        /\ (config db <> None -> set_config db (current_config db) = db)).
Proof.
  assert (Hcfg : config db <> None -> set_config db (current_config db) = db).
  { intros Hc. unfold set_config, current_config.
    destruct db as [us ps lps ls [c | ]]; [reflexivity | now elim Hc]. }
  destruct (run_cases db jalali_year jalali_month now draw)
    as [[Hne Hrun] | [Hpaid (loan & Hrun & Hy & Hm & Hterm)]].
  - rewrite Hrun. split; [auto | split].
    + intros db' loan' E. discriminate.
    + intros _. eexists. split; [reflexivity | ].
      split; [intros E; now elim Hne | ].
      split; [reflexivity | ]. repeat split. exact Hcfg.
  - rewrite Hrun. unfold Loan_create. rewrite Hy, Hm.
    change (period_taken (set_config db (current_config db)) jalali_year jalali_month)
      with (period_taken db jalali_year jalali_month).
    destruct (period_taken db jalali_year jalali_month) eqn:Htaken.
    + split; [auto | split].
      * intros db' loan' E. discriminate.
      * intros _. exists IntegrityError. split; [reflexivity | ].
        split; [reflexivity | ].
        split; [intros Hne; now elim Hne | ]. repeat split. exact Hcfg.
    + split; [ | split].
      * intros Hu. cbn [fst].
        apply (unique_periods_add_loan (set_config db (current_config db)) loan Hu).
        rewrite Hy, Hm. exact Htaken.
      * intros db' loan' E. injection E as <- <-.
        split; [reflexivity | split; [reflexivity | ]].
        intros now' draw'.
        set (db' := add_loan (set_config db (current_config db)) loan).
        assert (Hpaid' : unpaid_users db' jalali_year jalali_month = [])
          by exact Hpaid.
        destruct (run_cases db' jalali_year jalali_month now' draw')
          as [[Hne' _] | [_ (loan' & Hrun' & Hy' & Hm' & _)]];
          [now elim Hne' | ].
        rewrite Hrun'.
        assert (Hcfg' : set_config db' (current_config db') = db') by reflexivity.
        rewrite Hcfg'. apply Loan_create_taken. rewrite Hy', Hm'.
        unfold db'. rewrite <- Hy, <- Hm. apply period_taken_add_loan.
      * discriminate.
Qed.

(** C6 (amended). With an active member that has not paid for the period,
    the run raises the [ValueError] whose message names every unpaid active
    member; no allocation is created and the tables of members, payments,
    repayments and allocations are left as they are. The one write on this
    path is the configuration row, created when it is missing: a database
    that has it is not modified at all. *)
Theorem unpaid_members_abort (db : DB) (jalali_year jalali_month : nat)
    (now : Z) (draw : nat) :
  unpaid_users db jalali_year jalali_month <> [] ->
  exists (db' : DB) (message : string),
    run_loan_assignment flog db jalali_year jalali_month now draw
    = (db', inl (ValueError message))
    /\ (forall u : User,
          In u (unpaid_users db jalali_year jalali_month) ->
          names message (username u))
    /\ (forall u : User,
          In u (unpaid_users db jalali_year jalali_month)
          <-> In u (users db) /\ is_active u = true
              /\ ~ In (id u) (paid_user_ids db jalali_year jalali_month))
    /\ users db' = users db
    /\ payments db' = payments db
    /\ loan_payments db' = loan_payments db
    /\ loans db' = loans db
    /\ config db' = Some (current_config db)
    /\ (config db <> None -> db' = db).
Proof.
  intros Hne. eexists _, _. split; [apply run_unpaid, Hne | ].
  split; [intros u Hu; apply unpaid_message_names, Hu | ].
  split.
  { intros u. unfold unpaid_users, active_users. rewrite !filter_In.
    rewrite negb_true_iff, <- not_true_iff_false, existsb_exists.
    split.
    - intros [[H1 H2] H3]. repeat split; try assumption.
      intros Hin. apply H3. exists (id u). split; [exact Hin | apply Z.eqb_refl].
    - intros (H1 & H2 & H3). repeat split; try assumption.
      intros (x & Hx & E). apply Z.eqb_eq in E. subst x. auto. }
  repeat (split; [reflexivity | ]).
  intros Hc. unfold set_config, current_config.
  destruct db as [us ps lps ls [c | ]]; [reflexivity | now elim Hc].
Qed.

End RunClaims.

(** ** Samples of the orchestrator *)




(** C10, refuted as stated: without any member, a run for a period that
    has its allocation raises the uniqueness violation and adds nothing. *)
Lemma no_active_members_period_taken :
  active_users Sample.db_taken_empty = []
  /\ period_taken Sample.db_taken_empty 1403 1 = true
  /\ run_loan_assignment Sample.flog Sample.db_taken_empty 1403 1 1 0
     = (Sample.db_taken_empty, inl IntegrityError)
  /\ loans (fst (run_loan_assignment Sample.flog Sample.db_taken_empty 1403 1 1 0))
     = loans Sample.db_taken_empty.
Proof.
  repeat split.
Qed.

(** C10 (amended) on the empty database. *)
Lemma no_active_members_witness :
  active_users Sample.db_empty = []
  /\ fits_column 1403 /\ fits_column 1
  /\ run_loan_assignment Sample.flog Sample.db_empty 1403 1 0 0
     = (add_loan (set_config Sample.db_empty Config_default)
          (unallocated 1403 1 0 Sample.empty_log),
        inr (unallocated 1403 1 0 Sample.empty_log))
  /\ loans (fst (run_loan_assignment Sample.flog Sample.db_empty 1403 1 0 0))
     = [unallocated 1403 1 0 Sample.empty_log].
Proof.
  assert (Hy : fits_column 1403) by (unfold fits_column; lia).
  assert (Hm : fits_column 1) by (unfold fits_column; lia).
  split; [reflexivity | split; [exact Hy | split; [exact Hm | ]]].
  destruct (no_active_members Sample.flog Sample.db_empty 1403 1 0 0 eq_refl Hy Hm)
    as (_ & Hok & _).
  destruct (Hok eq_refl) as (Hrun & Hloans & _).
  split; [exact Hrun | exact Hloans].
Defined.

(** C5, refuted as stated: the period 1403/1 has its allocation, a member
    who joined since has not paid for it and the configuration row is
    missing; the second run raises the [ValueError] for the unpaid member,
    not the uniqueness violation, and has written the configuration
    row. *)
Lemma second_run_reports_unpaid :
  period_taken Sample.db_taken_unpaid 1403 1 = true
  /\ run_loan_assignment Sample.flog Sample.db_taken_unpaid 1403 1 1 0
     = (set_config Sample.db_taken_unpaid Config_default,
        inl (ValueError "Not all users have paid for 1403/1. Unpaid: bob"))
  /\ run_loan_assignment Sample.flog Sample.db_taken_unpaid 1403 1 1 0
     <> (Sample.db_taken_unpaid, inl IntegrityError)
  /\ config Sample.db_taken_unpaid = None
  /\ config (fst (run_loan_assignment Sample.flog Sample.db_taken_unpaid 1403 1 1 0))
     = Some Config_default.
Proof.
  repeat split. discriminate.
Qed.

(** C5 on the sample of one member: the second run for 1403/1 fails. *)
Lemma once_per_period_witness :
  exists (db' : DB) (loan : Loan),
    run_loan_assignment Sample.flog Sample.db_single 1403 1 0 7 = (db', inr loan)
    /\ loans db' = [loan]
    /\ run_loan_assignment Sample.flog db' 1403 1 1 8 = (db', inl IntegrityError).
Proof.
  destruct (once_per_period Sample.flog Sample.db_single 1403 1 0 7)
    as (_ & Hsecond & _).
  destruct (run_loan_assignment Sample.flog Sample.db_single 1403 1 0 7)
    as [db' [e | loan]] eqn:E; [vm_compute in E; discriminate | ].
  destruct (Hsecond db' loan eq_refl) as (_ & Hloans & Hfail).
  exists db', loan. split; [reflexivity | split; [exact Hloans | apply Hfail]].
Defined.

(** C6, refuted as stated: on a database without configuration row the
    run that raises for the unpaid member has written that row. *)
Lemma unpaid_abort_writes_config :
  run_loan_assignment Sample.flog Sample.db_unpaid 1403 1 0 0
  = (set_config Sample.db_unpaid Config_default,
     inl (ValueError "Not all users have paid for 1403/1. Unpaid: alice"))
  /\ config Sample.db_unpaid = None
  /\ config (set_config Sample.db_unpaid Config_default) = Some Config_default
  /\ set_config Sample.db_unpaid Config_default <> Sample.db_unpaid.
Proof.
  repeat split. discriminate.
Qed.

(** C6 (amended) on the same sample. *)
Lemma unpaid_members_abort_witness :
  unpaid_users Sample.db_unpaid 1403 1 <> []
  /\ exists message : string,
       run_loan_assignment Sample.flog Sample.db_unpaid 1403 1 0 0
       = (set_config Sample.db_unpaid Config_default, inl (ValueError message))
       /\ names message "alice".
Proof.
  split; [vm_compute; discriminate | ].
  destruct (unpaid_members_abort Sample.flog Sample.db_unpaid 1403 1 0 0
              ltac:(vm_compute; discriminate))
    as (db' & message & Hrun & Hnames & _).
  exists message. split.
  - rewrite Hrun. vm_compute in Hrun. injection Hrun as <- _. reflexivity.
  - apply (Hnames Sample.alice). now left.
Defined.

(** ** Further properties of the assignment *)

Lemma filter_all {A : Type} (f : A -> bool) (l : list A) :
  (forall x, In x l -> f x = true) -> filter f l = l.
Proof.
  induction l as [ | a rest IH]; intros Hf; [reflexivity | ].
  cbn [filter]. rewrite (Hf a (or_introl eq_refl)). f_equal.
  apply IH. intros x Hin. apply Hf. now right.
Qed.

Section RunExtras.

Variable flog : Q -> Q.

(** What a run that returns an allocation has done. *)
Lemma run_returns (db : DB) (jalali_year jalali_month : nat) (now : Z)
    (draw : nat) (db' : DB) (loan : Loan) :
  run_loan_assignment flog db jalali_year jalali_month now draw = (db', inr loan) ->
  unpaid_users db jalali_year jalali_month = []
  /\ period_taken db jalali_year jalali_month = false
  /\ db' = add_loan (set_config db (current_config db)) loan
  /\ ((eligible_users db = []
       /\ loan = unallocated jalali_year jalali_month now
                   {| not_participated := not_participated_entries db (active_users db);
                      participated := [];
                      selected := None;
                      random_pool := [];
                      note := None |})
      \/ (eligible_users db <> [] /\ affordable flog db = []
          /\ loan = unallocated jalali_year jalali_month now
                      {| not_participated := not_participated_entries db (active_users db);
                         participated := map (participated_entry flog db) (eligible_users db);
                         selected := None;
                         random_pool := [];
                         note := Some affordability_note |})
      \/ (exists winner : UserScore,
            random_choice draw
              (filter (in_winner_group (affordable flog db)) (affordable flog db))
            = Some winner
            /\ In winner (filter (in_winner_group (affordable flog db))
                                (affordable flog db))
            /\ loan = allocated jalali_year jalali_month now (current_config db) winner
                        {| not_participated := not_participated_entries db (active_users db);
                           participated := map (participated_entry flog db) (eligible_users db);
                           selected := Some (us_user_id winner);
                           random_pool :=
                             map us_user_id
                                 (filter (in_winner_group (affordable flog db))
                                         (affordable flog db));
                           note := None |})).
Proof.
  intros Hrun.
  destruct (unpaid_users db jalali_year jalali_month) as [ | u0 urest] eqn:Hpaid.
  2: { rewrite (run_unpaid flog db jalali_year jalali_month now draw) in Hrun
         by (rewrite Hpaid; discriminate).
       discriminate. }
  split; [reflexivity | ].
  assert (Hcreate : forall l : Loan,
            l_jalali_year l = jalali_year -> l_jalali_month l = jalali_month ->
            Loan_create (set_config db (current_config db)) l = (db', inr loan) ->
            period_taken db jalali_year jalali_month = false
            /\ db' = add_loan (set_config db (current_config db)) loan
            /\ loan = l).
  { intros l Hy Hm. unfold Loan_create. rewrite Hy, Hm.
    change (period_taken (set_config db (current_config db)) jalali_year jalali_month)
      with (period_taken db jalali_year jalali_month).
    destruct (period_taken db jalali_year jalali_month); [discriminate | ].
    intros E. injection E as <- <-. auto. }
  destruct (eligible_users db) as [ | e0 erest] eqn:Hel.
  - rewrite (run_no_eligible flog db jalali_year jalali_month now draw Hpaid Hel) in Hrun.
    apply Hcreate in Hrun; [ | reflexivity | reflexivity].
    destruct Hrun as (Hfree & Hdb & Hloan).
    split; [exact Hfree | split; [exact Hdb | left; split; [reflexivity | exact Hloan]]].
  - assert (Hne : eligible_users db <> []) by (rewrite Hel; discriminate).
    rewrite <- Hel in *. clear Hel.
    destruct (affordable flog db) as [ | a0 arest] eqn:Haff.
    + rewrite (run_unaffordable flog db jalali_year jalali_month now draw Hpaid Hne Haff)
        in Hrun.
      apply Hcreate in Hrun; [ | reflexivity | reflexivity].
      destruct Hrun as (Hfree & Hdb & Hloan).
      split; [exact Hfree | split; [exact Hdb | ]].
      right. left. auto.
    + assert (Hane : affordable flog db <> []) by (rewrite Haff; discriminate).
      rewrite <- Haff in *. clear Haff.
      destruct (run_selected flog db jalali_year jalali_month now draw Hpaid Hane)
        as (winner & Hdraw & Hwin & Hrun').
      rewrite Hrun' in Hrun.
      apply Hcreate in Hrun; [ | reflexivity | reflexivity].
      destruct Hrun as (Hfree & Hdb & Hloan).
      split; [exact Hfree | split; [exact Hdb | ]].
      right. right. exists winner. auto.
Qed.


Lemma eligible_users_In (db : DB) (user : User) :
  In user (eligible_users db)
  <-> In user (active_users db) /\ exclusion_reason db user = None.
Proof.
  unfold eligible_users, eligible_set. rewrite filter_In.
  destruct (exclusion_reason db user); split; intros [H1 H2];
    (split; [exact H1 | ]); congruence.
Qed.

Lemma eligible_no_active_loan (db : DB) (user : User) :
  In user (eligible_users db) -> active_loans_of db user = [].
Proof.
  intros Hin. apply eligible_users_In in Hin. destruct Hin as [_ Hnone].
  apply (proj1 (exclusion_reason_None db user)) in Hnone.
  destruct Hnone as (_ & Hno & _). unfold has_active_loan in Hno.
  destruct (active_loans_of db user); [reflexivity | discriminate].
Qed.

Lemma score_unlimited_without_active_loan (db : DB) (user : User) :
  active_loans_of db user = [] -> compute_user_score flog db user = None.
Proof.
  intros Hno. unfold compute_user_score, score_of, score_trace, history.
  cbn [h_last_payment h_total_user_loan_payments h_total_loan_amount].
  rewrite Hno. cbn [map Sum or_zero].
  destruct (option_map p_amount (last_payment db user)) as [p | ]; [ | reflexivity].
  destruct (Qle_bool p 0); [reflexivity | ].
  destruct (List.length (loan_payments_of db user) =? 0)%nat; reflexivity.
Qed.

Lemma scored_unlimited (db : DB) (us : UserScore) :
  In us (scored flog db) -> us_score us = None.
Proof.
  unfold scored. rewrite in_map_iff. intros (user & <- & Hin).
  cbn [user_score us_score].
  apply score_unlimited_without_active_loan, eligible_no_active_loan, Hin.
Qed.

Lemma winner_group_all (db : DB) :
  filter (in_winner_group (affordable flog db)) (affordable flog db)
  = affordable flog db.
Proof.
  assert (Hall : forall us, In us (affordable flog db) -> is_unlimited us = true).
  { intros us Hin. unfold affordable in Hin. apply filter_In in Hin.
    unfold is_unlimited. now rewrite (scored_unlimited db us (proj1 Hin)). }
  assert (Hf : forall us, In us (affordable flog db) ->
                 in_winner_group (affordable flog db) us = true).
  { intros us Hin. unfold in_winner_group.
    destruct (existsb is_unlimited (affordable flog db)) eqn:E; [now apply Hall | ].
    exfalso. assert (existsb is_unlimited (affordable flog db) = true)
      by (apply existsb_exists; exists us; auto).
    congruence. }
  apply filter_all, Hf.
Qed.

(** X1. A member can only take part without an ACTIVE loan, and without one
    the score is unlimited: every participant of a run is scored unlimited,
    and the random pool of an ACTIVE allocation is the whole list of
    affordable participants. The finite scores never decide a run. *)
Theorem participants_always_unlimited (db : DB) (jalali_year jalali_month : nat)
    (now : Z) (draw : nat) :
  (forall user : User,
     In user (eligible_users db) -> compute_user_score flog db user = None)
  /\ (forall (db' : DB) (loan : Loan),
        run_loan_assignment flog db jalali_year jalali_month now draw
        = (db', inr loan) ->
        (forall e : ParticipatedEntry,
           In e (participated (l_log loan)) -> pe_point e = PointUnlimited)
        /\ (l_state loan = ACTIVE ->
            random_pool (l_log loan) = map us_user_id (affordable flog db))).
Proof.
  assert (Hscore : forall user : User,
            In user (eligible_users db) -> compute_user_score flog db user = None).
  { intros user Hin.
    apply score_unlimited_without_active_loan, eligible_no_active_loan, Hin. }
  split; [exact Hscore | ].
  assert (Hpart : forall e : ParticipatedEntry,
            In e (map (participated_entry flog db) (eligible_users db)) ->
            pe_point e = PointUnlimited).
  { intros e He. apply in_map_iff in He. destruct He as (user & <- & Hin).
    cbn [participated_entry pe_point]. now rewrite (Hscore user Hin). }
  intros db' loan Hrun.
  destruct (run_returns db jalali_year jalali_month now draw db' loan Hrun)
    as (_ & _ & _ & [[_ ->] | [(_ & _ & ->) | (winner & _ & _ & ->)]]);
    cbn [unallocated allocated l_log l_state participated random_pool].
  - split; [intros e [] | discriminate].
  - split; [exact Hpart | discriminate].
  - split; [exact Hpart | ]. intros _. now rewrite winner_group_all.
Qed.

Lemma log_ids_permutation (db : DB) (l : list User) :
  Permutation (map np_user_id (not_participated_entries db l)
               ++ map id (eligible_set db l))
              (map id l).
Proof.
  induction l as [ | u rest IH]; [constructor | ].
  cbn [not_participated_entries eligible_set flat_map filter map].
  fold (not_participated_entries db rest). fold (eligible_set db rest).
  destruct (exclusion_reason db u); cbn [app map np_user_id].
  - now constructor.
  - apply Permutation_sym, Permutation_cons_app, Permutation_sym, IH.
Qed.

(** X2. The audit log of every allocation a run returns accounts for each
    active member exactly once: the ids of its notParticipated entries
    followed by those of its participated entries are a rearrangement of
    the ids of the active members; inactive members appear nowhere. *)
Theorem log_accounts_for_active_members (db : DB) (jalali_year jalali_month : nat)
    (now : Z) (draw : nat) (db' : DB) (loan : Loan) :
  run_loan_assignment flog db jalali_year jalali_month now draw = (db', inr loan) ->
  Permutation (map np_user_id (not_participated (l_log loan))
               ++ map pe_user_id (participated (l_log loan)))
              (map id (active_users db)).
Proof.
  intros Hrun.
  assert (Hp : map pe_user_id (map (participated_entry flog db) (eligible_users db))
               = map id (eligible_users db))
    by (rewrite map_map; reflexivity).
  pose proof (log_ids_permutation db (active_users db)) as Hperm.
  fold (eligible_users db) in Hperm.
  destruct (run_returns db jalali_year jalali_month now draw db' loan Hrun)
    as (_ & _ & _ & [[Hel ->] | [(_ & _ & ->) | (winner & _ & _ & ->)]]);
    cbn [unallocated allocated l_log not_participated participated].
  - rewrite Hel in Hperm. exact Hperm.
  - now rewrite Hp.
  - now rewrite Hp.
Qed.


Lemma unpaid_users_nil (db : DB) (jalali_year jalali_month : nat) (user : User) :
  unpaid_users db jalali_year jalali_month = [] ->
  In user (active_users db) ->
  In (id user) (paid_user_ids db jalali_year jalali_month).
Proof.
  intros Hnil Hin.
  destruct (existsb (Z.eqb (id user)) (paid_user_ids db jalali_year jalali_month))
    eqn:E.
  - apply existsb_exists in E. destruct E as (x & Hx & E).
    apply Z.eqb_eq in E. now subst x.
  - exfalso. assert (Hu : In user (unpaid_users db jalali_year jalali_month)).
    { unfold unpaid_users. apply filter_In. split; [exact Hin | now rewrite E]. }
    rewrite Hnil in Hu. exact Hu.
Qed.

(** The member behind an ACTIVE allocation a run returns. *)
Lemma returned_active_member (db : DB) (jalali_year jalali_month : nat)
    (now : Z) (draw : nat) (db' : DB) (loan : Loan) :
  run_loan_assignment flog db jalali_year jalali_month now draw = (db', inr loan) ->
  l_state loan = ACTIVE ->
  exists member : User,
    In member (eligible_users db)
    /\ In (user_score flog db member)
          (filter (in_winner_group (affordable flog db)) (affordable flog db))
    /\ l_user loan = Some (id member)
    /\ l_amount loan = Some (loan_request_amount member)
    /\ selected (l_log loan) = Some (id member)
    /\ random_pool (l_log loan)
       = map us_user_id
             (filter (in_winner_group (affordable flog db)) (affordable flog db))
    /\ participated (l_log loan)
       = map (participated_entry flog db) (eligible_users db).
Proof.
  intros Hrun Hstate.
  destruct (run_returns db jalali_year jalali_month now draw db' loan Hrun)
    as (_ & _ & _ & [[_ ->] | [(_ & _ & ->) | (winner & _ & Hwin & ->)]]);
    try discriminate.
  pose proof Hwin as Hwin'.
  apply filter_In in Hwin'. destruct Hwin' as [Haff _].
  unfold affordable in Haff. apply filter_In in Haff. destruct Haff as [Hsc _].
  unfold scored in Hsc. apply in_map_iff in Hsc. destruct Hsc as (member & <- & Hel).
  exists member. repeat split; assumption.
Qed.

(** X3. Who can be granted a loan. The member of an ACTIVE allocation a run
    returns is an active member that paid for the period, held no ACTIVE
    loan, asked for a positive amount that the fund balance covers and,
    unless it is a main member, that its own balance covers; the amount
    granted is that request; and the selected id is in the random pool,
    whose ids all belong to participants. *)
Theorem granted_loan_bounds (db : DB) (jalali_year jalali_month : nat)
    (now : Z) (draw : nat) (db' : DB) (loan : Loan) :
  run_loan_assignment flog db jalali_year jalali_month now draw = (db', inr loan) ->
  l_state loan = ACTIVE ->
  exists member : User,
    In member (users db)
    /\ is_active member = true
    /\ In (id member) (paid_user_ids db jalali_year jalali_month)
    /\ has_active_loan db member = false
    /\ l_user loan = Some (id member)
    /\ l_amount loan = Some (loan_request_amount member)
    /\ 0 < loan_request_amount member
    /\ loan_request_amount member <= sum_balance (active_users db)
    /\ (is_main member = true \/ loan_request_amount member <= balance member)
    /\ selected (l_log loan) = Some (id member)
    /\ In (id member) (random_pool (l_log loan))
    /\ incl (random_pool (l_log loan)) (map pe_user_id (participated (l_log loan))).
Proof.
  intros Hrun Hstate.
  destruct (run_returns db jalali_year jalali_month now draw db' loan Hrun)
    as (Hpaid & _).
  destruct (returned_active_member db jalali_year jalali_month now draw db' loan
              Hrun Hstate)
    as (member & Hel & Hwin & Hu & Ham & Hsel & Hpool & Hpart).
  pose proof Hwin as Hwin'.
  apply filter_In in Hwin'. destruct Hwin' as [Haff _].
  unfold affordable in Haff. apply filter_In in Haff. destruct Haff as [_ Hle].
  cbn [user_score us_loan_request_amount] in Hle.
  apply Qle_bool_iff in Hle. rewrite saghat_balance_sum in Hle.
  pose proof (proj1 (eligible_users_In db member) Hel) as [Hact Hnone].
  apply (proj1 (exclusion_reason_None db member)) in Hnone.
  destruct Hnone as (Ha & Hb & Hc).
  pose proof Hact as Hact'. unfold active_users in Hact'. apply filter_In in Hact'.
  exists member. rewrite Hpool, Hpart.
  repeat (split; [tauto || (now apply unpaid_users_nil) || assumption | ]).
  split.
  - apply (in_map us_user_id) in Hwin. exact Hwin.
  - intros x Hx. apply in_map_iff in Hx. destruct Hx as (us & <- & Hus).
    apply filter_In in Hus. destruct Hus as [Hus _].
    unfold affordable in Hus. apply filter_In in Hus. destruct Hus as [Hus _].
    unfold scored in Hus. apply in_map_iff in Hus. destruct Hus as (u & <- & Hu').
    rewrite map_map. apply in_map_iff. exists u. split; [reflexivity | exact Hu'].
Qed.

(** X4. One loan per member, for good. A member named by an ACTIVE
    allocation of the table fails condition (b) and is not eligible; the
    code never moves an allocation out of ACTIVE, so after a run has
    returned an allocation for a member, no run on a later database that
    still holds that row (whatever was paid or repaid meanwhile) returns
    an allocation for that member again. *)
Theorem winner_never_wins_again (db : DB) (jalali_year jalali_month : nat)
    (now : Z) (draw : nat) (db' : DB) (loan : Loan) (uid : Z) :
  run_loan_assignment flog db jalali_year jalali_month now draw = (db', inr loan) ->
  l_user loan = Some uid ->
  In loan (loans db')
  /\ forall later_db : DB,
       In loan (loans later_db) ->
       (forall user : User,
          id user = uid ->
          has_active_loan later_db user = true
          /\ ~ In user (eligible_users later_db))
       /\ forall (year' month' : nat) (now' : Z) (draw' : nat)
                 (db'' : DB) (loan' : Loan),
            run_loan_assignment flog later_db year' month' now' draw'
            = (db'', inr loan') ->
            l_user loan' <> Some uid.
Proof.
  intros Hrun Huser.
  destruct (run_returns db jalali_year jalali_month now draw db' loan Hrun)
    as (_ & _ & Hdb & Hcases).
  assert (Hstate : l_state loan = ACTIVE).
  { destruct Hcases as [[_ ->] | [(_ & _ & ->) | (winner & _ & _ & ->)]];
      cbn in Huser |- *; congruence. }
  split.
  { rewrite Hdb. cbn [add_loan loans]. apply in_or_app. right. now left. }
  intros later_db Hin.
  assert (Hactive : forall user : User,
            id user = uid -> has_active_loan later_db user = true).
  { intros user Hid. unfold has_active_loan.
    assert (Hl : In loan (active_loans_of later_db user)).
    { unfold active_loans_of. apply filter_In. split; [exact Hin | ].
      rewrite Huser, Hstate, Hid, Z.eqb_refl. reflexivity. }
    destruct (active_loans_of later_db user); [destruct Hl | reflexivity]. }
  split.
  - intros user Hid. split; [now apply Hactive | ].
    intros Hel. apply eligible_users_In in Hel. destruct Hel as [_ Hnone].
    apply (proj1 (exclusion_reason_None later_db user)) in Hnone.
    destruct Hnone as (_ & Hno & _). rewrite (Hactive user Hid) in Hno.
    discriminate.
  - intros year' month' now' draw' db'' loan' Hrun' Huser'.
    assert (Hstate' : l_state loan' = ACTIVE).
    { destruct (run_returns later_db year' month' now' draw' db'' loan' Hrun')
        as (_ & _ & _ & [[_ ->] | [(_ & _ & ->) | (winner & _ & _ & ->)]]);
        cbn in Huser' |- *; congruence. }
    destruct (returned_active_member later_db year' month' now' draw' db'' loan'
                Hrun' Hstate')
      as (member & Hel & _ & Hu & _).
    rewrite Hu in Huser'. injection Huser' as Hid.
    apply eligible_users_In in Hel. destruct Hel as [_ Hnone].
    apply (proj1 (exclusion_reason_None later_db member)) in Hnone.
    destruct Hnone as (_ & Hno & _).
    rewrite (Hactive member Hid) in Hno. discriminate.
Qed.




(** X8. What a run may write. Whatever its outcome, a run leaves the
    tables of members, payments and repayments as they are, keeps every
    allocation already stored, adds at most one allocation, and leaves the
    configuration row in place (the stored one, or the defaults when there
    was none). *)
Theorem run_frame (db : DB) (jalali_year jalali_month : nat) (now : Z)
    (draw : nat) :
  let db' := fst (run_loan_assignment flog db jalali_year jalali_month now draw) in
  users db' = users db
  /\ payments db' = payments db
  /\ loan_payments db' = loan_payments db
  /\ (exists added : list Loan,
        loans db' = loans db ++ added /\ (List.length added <= 1)%nat)
  /\ config db' = Some (current_config db)
  /\ current_config db' = current_config db.
Proof.
  cbv zeta.
  destruct (run_cases flog db jalali_year jalali_month now draw)
    as [[_ Hrun] | [_ (loan & Hrun & _)]]; rewrite Hrun.
  - cbn [fst set_config users payments loan_payments loans config].
    repeat split. exists []. rewrite app_nil_r. split; [reflexivity | cbn; lia].
  - unfold Loan_create.
    destruct (period_taken (set_config db (current_config db))
                (l_jalali_year loan) (l_jalali_month loan));
      cbn [fst add_loan set_config users payments loan_payments loans config];
      repeat split.
    + exists []. rewrite app_nil_r. split; [reflexivity | cbn; lia].
    + exists [loan]. split; [reflexivity | cbn; lia].
Qed.

End RunExtras.

(** ** Further properties of the queries *)

Lemma later_spec (p q : Payment) :
  later p q = true
  <-> (p_jalali_year q < p_jalali_year p)%nat
      \/ (p_jalali_year q = p_jalali_year p
          /\ (p_jalali_month q < p_jalali_month p)%nat).
Proof.
  unfold later. rewrite orb_true_iff, andb_true_iff, !Nat.ltb_lt, Nat.eqb_eq.
  reflexivity.
Qed.

Lemma latest_payment_spec (ps : list Payment) :
  match latest_payment ps with
  | None => ps = []
  | Some p => In p ps /\ forall q, In q ps -> later q p = false
  end.
Proof.
  induction ps as [ | p rest IH]; [reflexivity | ].
  cbn [latest_payment].
  destruct (latest_payment rest) as [m | ].
  - destruct IH as [Hin Hmax].
    destruct (later m p) eqn:E.
    + split; [now right | ]. intros q [<- | Hq]; [ | now apply Hmax].
      apply not_true_is_false. intros H.
      apply later_spec in E. apply later_spec in H. lia.
    + split; [now left | ]. intros q [<- | Hq].
      * apply not_true_is_false. intros H. apply later_spec in H. lia.
      * apply not_true_is_false. intros H.
        pose proof (Hmax q Hq) as Hq'.
        apply not_true_iff_false in Hq'. apply not_true_iff_false in E.
        rewrite later_spec in *. lia.
  - subst rest. split; [now left | ]. intros q [<- | []].
    apply not_true_is_false. intros H. apply later_spec in H. lia.
Qed.

(** X6. The payment the score starts from. [last_payment] is a payment of
    the member and no payment of the member is of a later period; there is
    none exactly when the member never paid, and then the score is
    unlimited whatever the logarithm. *)
Theorem last_payment_is_latest (db : DB) (user : User) :
  match last_payment db user with
  | Some p =>
      In p (payments db) /\ p_user p = id user
      /\ forall q : Payment,
           In q (payments db) -> p_user q = id user -> later q p = false
  | None =>
      (forall q : Payment, In q (payments db) -> p_user q <> id user)
      /\ forall flog : Q -> Q, compute_user_score flog db user = None
  end.
Proof.
  pose proof (latest_payment_spec (payments_of db user)) as H.
  unfold last_payment in *.
  destruct (latest_payment (payments_of db user)) as [p | ] eqn:E.
  - destruct H as [Hin Hmax]. unfold payments_of in Hin. apply filter_In in Hin.
    destruct Hin as [Hin Hu]. apply Z.eqb_eq in Hu.
    repeat split; try assumption.
    intros q Hq Hqu. apply Hmax. unfold payments_of. apply filter_In.
    split; [exact Hq | now apply Z.eqb_eq].
  - split.
    + intros q Hq Hqu.
      assert (Hin : In q (payments_of db user))
        by (unfold payments_of; apply filter_In; split; [exact Hq | now apply Z.eqb_eq]).
      rewrite H in Hin. exact Hin.
    + intros flog. unfold compute_user_score, score_of, score_trace, history.
      cbn [h_last_payment]. unfold last_payment. rewrite E. reflexivity.
Qed.

Lemma distinct_In (l : list (nat * nat)) (a : nat * nat) :
  In a (distinct l) <-> In a l.
Proof.
  induction l as [ | b rest IH]; [reflexivity | ].
  cbn [distinct]. split.
  - intros [<- | H]; [now left | ]. apply filter_In in H. right. now apply IH.
  - intros [<- | H]; [now left | ].
    destruct (period_eqb b a) eqn:E.
    + left. unfold period_eqb in E. apply andb_true_iff in E.
      destruct E as [E1 E2]. apply Nat.eqb_eq in E1, E2.
      destruct a, b; cbn in *; congruence.
    + right. apply filter_In. split; [now apply IH | now rewrite E].
Qed.

Lemma distinct_NoDup (l : list (nat * nat)) : NoDup (distinct l).
Proof.
  induction l as [ | b rest IH]; [constructor | ].
  cbn [distinct]. constructor.
  - intros H. apply filter_In in H. destruct H as [_ H].
    unfold period_eqb in H. now rewrite !Nat.eqb_refl in H.
  - apply NoDup_filter, IH.
Qed.

Lemma loan_payment_periods_incl (db : DB) (user : User) :
  incl (loan_payment_periods db user)
       (map (fun p => (p_jalali_year p, p_jalali_month p)) (payments_of db user)).
Proof.
  intros a Ha. unfold loan_payment_periods in Ha. apply in_flat_map in Ha.
  destruct Ha as (lp & Hlp & Ha).
  unfold loan_payments_of in Hlp. apply filter_In in Hlp. destruct Hlp as [_ Hu].
  destruct (payment_of db lp) as [p | ] eqn:E; [ | destruct Ha].
  destruct Ha as [<- | []].
  unfold payment_of in E. apply find_some in E. destruct E as [Hin _].
  apply in_map_iff. exists p. split; [reflexivity | ].
  unfold payments_of. apply filter_In. split; assumption.
Qed.

(** X5. The count of paid periods without a repayment needs no clamp. The
    distinct repayment periods of a member are periods the member paid
    for, each counted once, so they never outnumber the member's payments:
    [max(0, ...)] always returns the plain difference. *)
Theorem total_month_no_loan_unclamped (db : DB) (user : User) :
  NoDup (distinct (loan_payment_periods db user))
  /\ (forall period : nat * nat,
        In period (distinct (loan_payment_periods db user)) ->
        exists p : Payment,
          In p (payments db) /\ p_user p = id user
          /\ period = (p_jalali_year p, p_jalali_month p))
  /\ (h_months_with_loan_payment (history db user)
      <= h_total_payments_count (history db user))%nat
  /\ total_month_no_loan (history db user)
     = (Z.of_nat (h_total_payments_count (history db user))
        - Z.of_nat (h_months_with_loan_payment (history db user)))%Z.
Proof.
  assert (Hle : (List.length (distinct (loan_payment_periods db user))
                 <= List.length (payments_of db user))%nat).
  { rewrite <- (length_map (fun p => (p_jalali_year p, p_jalali_month p))
                           (payments_of db user)).
    apply NoDup_incl_length; [apply distinct_NoDup | ].
    intros a Ha. apply loan_payment_periods_incl. now apply distinct_In. }
  split; [apply distinct_NoDup | split; [ | split]].
  - intros period Hin. apply distinct_In, loan_payment_periods_incl in Hin.
    apply in_map_iff in Hin. destruct Hin as (p & <- & Hp).
    unfold payments_of in Hp. apply filter_In in Hp. destruct Hp as [Hp Hu].
    apply Z.eqb_eq in Hu. exists p. auto.
  - exact Hle.
  - unfold total_month_no_loan.
    cbn [history h_total_payments_count h_months_with_loan_payment]. lia.
Qed.

(** ** The rest of the loan model *)

Module LoanFacts.
Import Dec DecFacts.

(** The context leaves alone what 28 digits can hold: here, a multiple of
    10^-8 whose digits number at most 28. *)
Lemma fix_pos_exact (q : Q) (k : Z) :
  0 < q -> q == inject_Z k * pow10 (- 8) ->
  (k < 10 ^ 28)%Z ->
  fix_pos q == q.
Proof.
  intros Hq Hk Hbound.
  destruct (adjusted_spec q Hq) as [Hlo Hhi].
  assert (Hlt : q < pow10 20).
  { rewrite Hk. rewrite (pow10_nonneg_Z 20) by lia.
    assert (H8 : pow10 (- 8) == 1 # 100000000) by (vm_compute; reflexivity).
    rewrite H8.
    assert (Hb : inject_Z k < inject_Z (10 ^ 28)) by (rewrite <- Zlt_Qlt; exact Hbound).
    change (inject_Z (10 ^ 28)) with (inject_Z (10 ^ 20) * 100000000) in Hb.
    set (a := inject_Z k) in *. set (b := inject_Z (10 ^ 20)) in *. lra. }
  assert (Hadj : (adjusted q < 20)%Z).
  { destruct (Z_lt_le_dec (adjusted q) 20) as [H | H]; [exact H | exfalso].
    pose proof (pow10_le 20 (adjusted q) H). lra. }
  unfold fix_pos. set (e := adjusted q) in *.
  assert (Hscaled : q * pow10 (prec - 1 - e) == inject_Z (k * 10 ^ (19 - e))).
  { rewrite Hk, inject_Z_mult, <- (pow10_nonneg_Z (19 - e)) by lia.
    rewrite <- Qmult_assoc, <- pow10_add.
    replace (- 8 + (prec - 1 - e))%Z with (19 - e)%Z by (unfold prec; lia).
    reflexivity. }
  rewrite (round_half_even_comp _ _ Hscaled), round_half_even_inject_Z.
  rewrite <- Hscaled, <- Qmult_assoc, <- pow10_add.
  replace (prec - 1 - e + (e - (prec - 1)))%Z with 0%Z by lia.
  rewrite pow10_0. ring.
Qed.

Lemma fix_ctx_exact (q : Q) (k : Z) :
  q == inject_Z k * pow10 (- 8) -> (Z.abs k < 10 ^ 28)%Z -> fix_ctx q == q.
Proof.
  intros Hk Hbound.
  destruct (Q_dec 0 q) as [[Hpos | Hneg] | Hz].
  - rewrite fix_ctx_pos_eq by exact Hpos.
    apply (fix_pos_exact q k Hpos Hk). lia.
  - rewrite fix_ctx_neg_eq by exact Hneg.
    assert (H : fix_pos (- q) == - q).
    { apply (fix_pos_exact (- q) (- k)); [lra | | lia].
      rewrite Hk, inject_Z_opp. ring. }
    rewrite H. ring.
  - rewrite fix_ctx_zero by (symmetry; exact Hz). exact Hz.
Qed.

Lemma fix_ctx_sign (q : Q) : fix_ctx q <= 0 <-> q <= 0.
Proof.
  split; intros H.
  - destruct (Qlt_le_dec 0 q) as [Hq | Hq]; [ | exact Hq].
    pose proof (fix_ctx_pos q Hq). lra.
  - apply fix_ctx_nonpos, H.
Qed.

End LoanFacts.

Lemma total_paid_sum (payments : list LoanPayment) :
  total_paid payments == sum_amount payments.
Proof.
  unfold total_paid, or_zero.
  assert (H : match Sum (map (fun lp => Some (lp_amount lp)) payments) with
              | Some t => t == sum_amount payments
              | None => payments = []
              end).
  { induction payments as [ | lp rest IH];
      cbn [map Sum sum_amount fold_right]; [reflexivity | ].
    destruct (Sum (map (fun lp => Some (lp_amount lp)) rest)) as [t | ].
    - fold (sum_amount rest). now rewrite IH.
    - subst rest. cbn. ring. }
  destruct (Sum (map (fun lp => Some (lp_amount lp)) payments)) as [t | ].
  - destruct (Qeq_bool t 0) eqn:E; [ | exact H].
    apply Qeq_bool_iff in E. now rewrite <- H, E.
  - rewrite H. reflexivity.
Qed.

Lemma sum_amount_column (payments : list LoanPayment) :
  Forall (fun lp => column_value (lp_amount lp)) payments ->
  exists k : Z,
    sum_amount payments == inject_Z k * Dec.pow10 (- 8)
    /\ (Z.abs k <= Z.of_nat (List.length payments) * 10 ^ 20)%Z.
Proof.
  induction 1 as [ | lp rest (k0 & Hk0 & Hb0) _ (k & Hk & Hb)].
  - exists 0%Z. split; [cbn; ring | cbn; lia].
  - exists (k0 + k)%Z. split.
    + cbn [sum_amount fold_right]. fold (sum_amount rest).
      rewrite Hk0, Hk, inject_Z_plus. ring.
    + cbn [List.length]. lia.
Qed.

(** X12. Settling a loan. An allocation without amount owes nothing and is
    settled; one with an amount is settled exactly when the repayments sum
    to at least the amount, so a further repayment that is not negative
    keeps a settled loan settled; and with amounts as the columns hold
    them (8 fractional digits) and at most ten million repayments, the
    remaining balance is exactly the amount less the repayments. *)
Theorem settlement (l : Loan) (payments : list LoanPayment) :
  total_paid payments == sum_amount payments
  /\ (is_settled l payments = true
      <-> match l_amount l with
          | None => True
          | Some amount => amount <= sum_amount payments
          end)
  /\ (l_amount l = None -> remaining_balance l payments = 0)
  /\ (forall lp : LoanPayment,
        0 <= lp_amount lp ->
        is_settled l payments = true -> is_settled l (lp :: payments) = true)
  /\ (forall amount : Q,
        l_amount l = Some amount ->
        column_value amount ->
        Forall (fun lp => column_value (lp_amount lp)) payments ->
        (Z.of_nat (List.length payments) <= 10 ^ 7)%Z ->
        remaining_balance l payments == amount - sum_amount payments).
Proof.
  assert (Hiff : forall ps,
            is_settled l ps = true
            <-> match l_amount l with
                | None => True
                | Some amount => amount <= sum_amount ps
                end).
  { intros ps. unfold is_settled, remaining_balance.
    destruct (l_amount l) as [amount | ].
    - rewrite Qle_bool_iff. unfold dec_sub. rewrite LoanFacts.fix_ctx_sign.
      rewrite total_paid_sum. split; intros H; lra.
    - split; [trivial | intros _; reflexivity]. }
  split; [apply total_paid_sum | ].
  split; [apply Hiff | ].
  split; [intros H; unfold remaining_balance; now rewrite H | ].
  split.
  - intros lp Hlp. rewrite !Hiff.
    destruct (l_amount l) as [amount | ]; [ | trivial].
    cbn [sum_amount fold_right]. fold (sum_amount payments). intros H. lra.
  - intros amount Ha (ka & Hka & Hba) Hall Hlen.
    unfold remaining_balance. rewrite Ha. unfold dec_sub.
    destruct (sum_amount_column payments Hall) as (ks & Hks & Hbs).
    transitivity (amount - total_paid payments);
      [ | rewrite total_paid_sum; reflexivity].
    apply (LoanFacts.fix_ctx_exact _ (ka - ks)).
    + rewrite total_paid_sum, Hka, Hks.
      unfold Z.sub. rewrite inject_Z_plus, inject_Z_opp. ring.
    + change (10 ^ 28)%Z with 10000000000000000000000000000%Z.
      change (10 ^ 20)%Z with 100000000000000000000%Z in *.
      change (10 ^ 7)%Z with 10000000%Z in *.
      nia.
Qed.

(** ** The endpoint that starts the assignment *)

Section EndpointFacts.

Variable flog : Q -> Q.

(** The three answers of the endpoint. *)
Lemma start_cases (db : DB) (jalali : nat * nat) (now : Z) (draw : nat) :
  (period_taken db (fst jalali) (snd jalali) = true
   /\ start_loan_assignment flog db jalali now draw
      = (db, inr (409%nat,
                  ErrorResponse (already_done_detail (fst jalali) (snd jalali)))))
  \/ (period_taken db (fst jalali) (snd jalali) = false
      /\ unpaid_users db (fst jalali) (snd jalali) <> []
      /\ start_loan_assignment flog db jalali now draw
         = (set_config db (current_config db),
            inr (400%nat,
                 ErrorResponse (unpaid_message (fst jalali) (snd jalali)
                                  (unpaid_users db (fst jalali) (snd jalali))))))
  \/ (period_taken db (fst jalali) (snd jalali) = false
      /\ unpaid_users db (fst jalali) (snd jalali) = []
      /\ exists loan : Loan,
           run_loan_assignment flog db (fst jalali) (snd jalali) now draw
           = (add_loan (set_config db (current_config db)) loan, inr loan)
           /\ terminal_allocation loan
           /\ start_loan_assignment flog db jalali now draw
              = (add_loan (set_config db (current_config db)) loan,
                 inr (201%nat,
                      StartLoanResponse
                        (_build_loan_response
                           (add_loan (set_config db (current_config db)) loan)
                           loan [])
                        (state_message loan)))).
Proof.
  unfold start_loan_assignment.
  destruct (period_taken db (fst jalali) (snd jalali)) eqn:Htaken.
  - left. split; reflexivity.
  - right.
    destruct (run_cases flog db (fst jalali) (snd jalali) now draw)
      as [[Hne Hrun] | [Hpaid (loan & Hrun & Hy & Hm & Hterm)]].
    + left. rewrite Hrun. repeat split. exact Hne.
    + right. split; [reflexivity | split; [exact Hpaid | ]].
      assert (Hcreate : Loan_create (set_config db (current_config db)) loan
                        = (add_loan (set_config db (current_config db)) loan,
                           inr loan)).
      { apply Loan_create_free. rewrite Hy, Hm. exact Htaken. }
      rewrite Hcreate in Hrun. exists loan. rewrite Hrun. auto.
Qed.

(** X9. The endpoint answers 409, 400 or 201 and lets no exception
    through: 409 exactly when the period has its allocation, and then not
    even the configuration row is written; 400 exactly when the period is
    free and an active member has not paid, with the message that names
    them and no allocation created; 201 exactly when the period is free
    and all active members paid, with one terminal allocation appended.
    The uniqueness violation of the table is out of reach behind the
    first check. *)
Theorem start_answers (db : DB) (jalali : nat * nat) (now : Z) (draw : nat) :
  exists (db' : DB) (status : nat) (body : StartBody),
    start_loan_assignment flog db jalali now draw = (db', inr (status, body))
    /\ (status = 409%nat <-> period_taken db (fst jalali) (snd jalali) = true)
    /\ (status = 400%nat
        <-> period_taken db (fst jalali) (snd jalali) = false
            /\ unpaid_users db (fst jalali) (snd jalali) <> [])
    /\ (status = 201%nat
        <-> period_taken db (fst jalali) (snd jalali) = false
            /\ unpaid_users db (fst jalali) (snd jalali) = [])
    /\ (status = 409%nat -> db' = db)
    /\ (status = 400%nat ->
        loans db' = loans db
        /\ body = ErrorResponse (unpaid_message (fst jalali) (snd jalali)
                                   (unpaid_users db (fst jalali) (snd jalali))))
    /\ (status = 201%nat ->
        exists loan : Loan,
          loans db' = loans db ++ [loan]
          /\ l_jalali_year loan = fst jalali
          /\ l_jalali_month loan = snd jalali
          /\ terminal_allocation loan
          /\ body = StartLoanResponse (_build_loan_response db' loan [])
                                      (state_message loan)).
Proof.
  destruct (start_cases db jalali now draw)
    as [[Htaken ->] | [(Hfree & Hne & ->) | (Hfree & Hpaid & loan & Hrun & Hterm & ->)]];
    eexists _, _, _; (split; [reflexivity | ]).
  - rewrite Htaken. repeat split; try discriminate; try tauto;
      try (intros [H _]; discriminate).
  - rewrite Hfree. repeat split; try discriminate; try tauto;
      try (intros [_ H]; now elim Hne).
  - rewrite Hfree, Hpaid. repeat split; try discriminate; try tauto;
      try (intros [_ H]; now elim H).
    + intros _. exists loan.
      pose proof (run_cases flog db (fst jalali) (snd jalali) now draw)
        as [[Hne _] | [_ (loan' & Hrun' & Hy & Hm & _)]]; [now elim Hne | ].
      rewrite Hrun in Hrun'.
      assert (Hcreate : Loan_create (set_config db (current_config db)) loan'
                        = (add_loan (set_config db (current_config db)) loan',
                           inr loan')).
      { apply Loan_create_free. rewrite Hy, Hm. exact Hfree. }
      rewrite Hcreate in Hrun'. injection Hrun' as _ E. subst loan'.
      split; [reflexivity | ].
      split; [exact Hy | split; [exact Hm | split; [exact Hterm | reflexivity]]].
Qed.

(** X10. Starting twice. After the endpoint has answered 201 for a period,
    every further call for that period answers 409 and leaves the database
    as the first call left it. *)
Theorem start_twice (db : DB) (jalali : nat * nat) (now : Z) (draw : nat)
    (db' : DB) (body : StartBody) :
  start_loan_assignment flog db jalali now draw = (db', inr (201%nat, body)) ->
  forall (now' : Z) (draw' : nat),
    start_loan_assignment flog db' jalali now' draw'
    = (db', inr (409%nat,
                 ErrorResponse (already_done_detail (fst jalali) (snd jalali)))).
Proof.
  intros Hstart now' draw'.
  destruct (start_cases db jalali now draw)
    as [[_ H] | [(_ & _ & H) | (Hfree & Hpaid & loan & Hrun & _ & H)]];
    rewrite H in Hstart; try discriminate.
  injection Hstart as <- _.
  pose proof (run_cases flog db (fst jalali) (snd jalali) now draw)
    as [[Hne _] | [_ (loan' & Hrun' & Hy & Hm & _)]]; [now elim Hne | ].
  rewrite Hrun in Hrun'.
  assert (Hcreate : Loan_create (set_config db (current_config db)) loan'
                    = (add_loan (set_config db (current_config db)) loan',
                       inr loan')).
  { apply Loan_create_free. rewrite Hy, Hm. exact Hfree. }
  rewrite Hcreate in Hrun'. injection Hrun' as _ E. subst loan'.
  unfold start_loan_assignment.
  assert (Htaken : period_taken (add_loan (set_config db (current_config db)) loan)
                     (fst jalali) (snd jalali) = true)
    by (rewrite <- Hy, <- Hm; apply period_taken_add_loan).
  now rewrite Htaken.
Qed.

(** X11. What a 201 reports. The message goes with the state of the new
    allocation: the winner and the amount, both present, for an ACTIVE
    one, the no-eligible-user message for an UNALLOCATED one, never the
    message of the INITIAL state; the response shows nothing repaid, an
    empty list of repayments, and the name of a member with the winner's
    id. *)
Theorem start_created_response (db : DB) (jalali : nat * nat) (now : Z)
    (draw : nat) (db' : DB) (response : LoanResponse) (message : StartMessage) :
  start_loan_assignment flog db jalali now draw
  = (db', inr (201%nat, StartLoanResponse response message)) ->
  r_total_paid response = 0
  /\ r_payments response = []
  /\ r_jalali_year response = fst jalali
  /\ r_jalali_month response = snd jalali
  /\ ((r_state response = NO_ONE
       /\ message = NoEligibleUser
       /\ r_user_id response = None /\ r_username response = None
       /\ r_amount response = None
       /\ r_remaining_balance response = 0)
      \/ (r_state response = ACTIVE
          /\ exists member : User,
               In member (users db)
               /\ is_active member = true
               /\ message = AssignedTo (Some (id member))
                                      (Some (loan_request_amount member))
               /\ r_user_id response = Some (id member)
               /\ r_amount response = Some (loan_request_amount member)
               /\ (exists named : User,
                     In named (users db) /\ id named = id member
                     /\ r_username response = Some (username named))
               /\ (column_value (loan_request_amount member) ->
                   r_remaining_balance response == loan_request_amount member))).
Proof.
  intros Hstart.
  destruct (start_cases db jalali now draw)
    as [[_ H] | [(_ & _ & H) | (Hfree & Hpaid & loan & Hrun & _ & H)]];
    rewrite H in Hstart; try discriminate.
  injection Hstart as <- <- <-.
  destruct (run_returns flog db (fst jalali) (snd jalali) now draw _ loan Hrun)
    as (_ & _ & _ & Hcases).
  split; [reflexivity | split; [reflexivity | ]].
  destruct Hcases as [[_ ->] | [(_ & _ & ->) | (winner & _ & Hwin & ->)]].
  - split; [reflexivity | split; [reflexivity | left]]. repeat split.
  - split; [reflexivity | split; [reflexivity | left]]. repeat split.
  - split; [reflexivity | split; [reflexivity | right]].
    split; [reflexivity | ].
    apply filter_In in Hwin. destruct Hwin as [Haff _].
    unfold affordable in Haff. apply filter_In in Haff. destruct Haff as [Hsc _].
    unfold scored in Hsc. apply in_map_iff in Hsc.
    destruct Hsc as (member & <- & Hel).
    apply eligible_users_In in Hel. destruct Hel as [Hact _].
    unfold active_users in Hact. apply filter_In in Hact. destruct Hact as [Hin Hactive].
    exists member. split; [exact Hin | split; [exact Hactive | ]].
    split; [reflexivity | split; [reflexivity | split; [reflexivity | ]]].
    split.
    2: { intros (k & Hk & Hb).
         cbn [_build_loan_response r_remaining_balance remaining_balance allocated
              l_amount user_score us_loan_request_amount].
         unfold dec_sub.
         assert (Hz : total_paid [] = 0) by reflexivity. rewrite Hz.
         transitivity (loan_request_amount member - 0); [ | ring].
         apply (LoanFacts.fix_ctx_exact _ k).
         - rewrite Hk. ring.
         - change (10 ^ 28)%Z with 10000000000000000000000000000%Z.
           change (10 ^ 20)%Z with 100000000000000000000%Z in Hb. lia. }
    cbn [_build_loan_response r_username allocated l_user user_score us_user_id
         add_loan set_config users].
    destruct (find (fun u => (id u =? id member)%Z) (users db)) as [named | ] eqn:E.
    + apply find_some in E. destruct E as [Hn E]. apply Z.eqb_eq in E.
      exists named. auto.
    + exfalso. pose proof (find_none _ _ E member Hin) as Hn.
      cbn in Hn. rewrite Z.eqb_refl in Hn. discriminate.
Qed.

End EndpointFacts.

(** ** The payment gateway check *)

Lemma existsb_string_In (s : string) (l : list string) :
  existsb (String.eqb s) l = true <-> In s l.
Proof.
  rewrite existsb_exists. split.
  - intros (x & Hx & E). apply String.eqb_eq in E. now subst x.
  - intros H. exists s. split; [exact H | apply String.eqb_refl].
Qed.

Lemma verify_accepted_iff (get_payment : string -> option BitpinPaymentInfo)
    (payment_id : string) (e : Q) :
  verify_payment_amount get_payment payment_id e = (true, NoReason)
  <-> exists info : BitpinPaymentInfo,
        get_payment payment_id = Some info
        /\ In (bp_status info) completed_statuses
        /\ e <= bp_amount info.
Proof.
  unfold verify_payment_amount.
  destruct (get_payment payment_id) as [info | ].
  - destruct (existsb (String.eqb (bp_status info)) completed_statuses) eqn:Es;
      cbn [negb].
    + apply existsb_string_In in Es.
      destruct (Qle_bool e (bp_amount info)) eqn:Ea; cbn [negb].
      * apply Qle_bool_iff in Ea. split; [ | reflexivity].
        intros _. exists info. auto.
      * split; [discriminate | ]. intros (i & E & _ & Hle). injection E as <-.
        apply Qle_bool_iff in Hle. congruence.
    + split; [discriminate | ]. intros (i & E & Hin & _). injection E as <-.
      apply existsb_string_In in Hin. congruence.
  - split; [discriminate | ]. intros (i & E & _). discriminate.
Qed.

Lemma verify_accepted_shape (get_payment : string -> option BitpinPaymentInfo)
    (payment_id : string) (e : Q) :
  fst (verify_payment_amount get_payment payment_id e) = true
  <-> verify_payment_amount get_payment payment_id e = (true, NoReason).
Proof.
  unfold verify_payment_amount.
  destruct (get_payment payment_id) as [info | ]; [ | split; discriminate].
  destruct (negb (existsb (String.eqb (bp_status info)) completed_statuses));
    [split; discriminate | ].
  destruct (negb (Qle_bool e (bp_amount info))); [split; discriminate | ].
  split; reflexivity.
Qed.

(** X14. The gateway check accepts a payment exactly when the exchange
    knows it, reports one of the four completed statuses and an amount of
    at least the expected one; it gives the empty reason exactly then;
    a payment accepted for an amount is accepted for every smaller one;
    and the currency of the payment plays no part. *)
Theorem verification_accepts (get_payment : string -> option BitpinPaymentInfo)
    (payment_id : string) (expected_amount : Q) :
  (fst (verify_payment_amount get_payment payment_id expected_amount) = true
   <-> exists info : BitpinPaymentInfo,
         get_payment payment_id = Some info
         /\ In (bp_status info) completed_statuses
         /\ expected_amount <= bp_amount info)
  /\ (fst (verify_payment_amount get_payment payment_id expected_amount) = true
      <-> snd (verify_payment_amount get_payment payment_id expected_amount)
          = NoReason)
  /\ (forall smaller : Q,
        smaller <= expected_amount ->
        fst (verify_payment_amount get_payment payment_id expected_amount) = true ->
        verify_payment_amount get_payment payment_id smaller = (true, NoReason))
  /\ (forall get_payment' : string -> option BitpinPaymentInfo,
        option_map (fun i => (bp_status i, bp_amount i)) (get_payment payment_id)
        = option_map (fun i => (bp_status i, bp_amount i)) (get_payment' payment_id) ->
        verify_payment_amount get_payment payment_id expected_amount
        = verify_payment_amount get_payment' payment_id expected_amount).
Proof.
  pose proof (verify_accepted_iff get_payment payment_id) as Hiff.
  pose proof (verify_accepted_shape get_payment payment_id) as Hshape.
  split; [rewrite Hshape; apply Hiff | ].
  split.
  - rewrite Hshape. unfold verify_payment_amount.
    destruct (get_payment payment_id) as [info | ]; [ | split; discriminate].
    destruct (negb (existsb (String.eqb (bp_status info)) completed_statuses));
      [split; discriminate | ].
    destruct (negb (Qle_bool expected_amount (bp_amount info)));
      [split; discriminate | split; reflexivity].
  - split.
    + intros smaller Hle H. apply Hshape, Hiff in H.
      destruct H as (info & E & Hin & Ha).
      apply Hiff. exists info. repeat split; try assumption. lra.
    + intros get' H. unfold verify_payment_amount.
      destruct (get_payment payment_id) as [i | ],
               (get' payment_id) as [i' | ]; try discriminate;
        [ | reflexivity].
      cbn in H. injection H as Hs Ha. now rewrite Hs, Ha.
Qed.

(** ** The payment endpoint *)

(** A sum of [10 ** (Emax + 1)] or more overflows. *)
Lemma decimal_add_overflow (x y : Q) :
  Dec.pow10 (Emax + 1) <= x + y -> decimal_add x y = None.
Proof.
  intros Hbig. unfold decimal_add, fix_limits.
  set (q := x + y) in *.
  pose proof (DecFacts.pow10_pos (Emax + 1)) as Hp.
  assert (Hq : 0 < q) by lra.
  assert (Habs : Qabs q == q) by (apply Qabs_pos; lra).
  assert (Hqa : 0 < Qabs q) by (rewrite Habs; exact Hq).
  assert (Hadj : (Emax + 1 <= Dec.adjusted (Qabs q))%Z).
  { destruct (DecFacts.adjusted_spec (Qabs q) Hqa) as [_ Hhi].
    destruct (Z_le_gt_dec (Emax + 1) (Dec.adjusted (Qabs q))) as [H | H];
      [exact H | exfalso].
    assert (Hle : Dec.pow10 (Dec.adjusted (Qabs q) + 1) <= Dec.pow10 (Emax + 1))
      by (apply DecFacts.pow10_le; lia).
    lra. }
  destruct (Qeq_bool q 0) eqn:E0.
  { apply Qeq_bool_iff in E0. lra. }
  destruct (Dec.adjusted (Qabs q) <? Emin)%Z eqn:E1.
  { apply Z.ltb_lt in E1. unfold Emin, Emax in *. lia. }
  assert (Hfix : 0 < Dec.fix_ctx q) by (apply DecFacts.fix_ctx_pos, Hq).
  assert (Hfa : Qabs (Dec.fix_ctx q) == Dec.fix_ctx q) by (apply Qabs_pos; lra).
  assert (Hge : Dec.pow10 (Emax + 1) <= Qabs (Dec.fix_ctx q)).
  { pose proof (DecFacts.fix_ctx_pos_eq q Hq) as Heq.
    destruct (DecFacts.fix_pos_bounds q Hq) as [Hlo _].
    rewrite <- Heq in Hlo.
    assert (Hadjq : (Emax + 1 <= Dec.adjusted q)%Z).
    { destruct (DecFacts.adjusted_spec q Hq) as [_ Hhi].
      destruct (Z_le_gt_dec (Emax + 1) (Dec.adjusted q)) as [H | H];
        [exact H | exfalso].
      assert (Hle : Dec.pow10 (Dec.adjusted q + 1) <= Dec.pow10 (Emax + 1))
        by (apply DecFacts.pow10_le; lia).
      lra. }
    pose proof (DecFacts.pow10_le _ _ Hadjq). lra. }
  assert (Hadjf : (Emax + 1 <= Dec.adjusted (Qabs (Dec.fix_ctx q)))%Z).
  { assert (Hpos : 0 < Qabs (Dec.fix_ctx q)) by lra.
    destruct (DecFacts.adjusted_spec _ Hpos) as [_ Hhi].
    destruct (Z_le_gt_dec (Emax + 1) (Dec.adjusted (Qabs (Dec.fix_ctx q))))
      as [H | H]; [exact H | exfalso].
    assert (Hle : Dec.pow10 (Dec.adjusted (Qabs (Dec.fix_ctx q)) + 1)
                  <= Dec.pow10 (Emax + 1))
      by (apply DecFacts.pow10_le; lia).
    lra. }
  destruct (Emax <? Dec.adjusted (Qabs (Dec.fix_ctx q)))%Z eqn:E2;
    [reflexivity | ].
  apply Z.ltb_ge in E2. lia.
Qed.

Section PayFacts.

Variable store : Q -> option Q.
Variable slot : nat.
Variable bitpin : option (string -> option BitpinPaymentInfo).

(** What the atomic block has written when it commits. *)
Lemma pay_commit_inr (books : Books) (user : User) (payload : PaymentRequest)
    (jalali : nat * nat) (new_id : Z) (total_amount : Q)
    (active_loan : option Loan) (books' : Books) :
  pay_commit store slot books user payload jalali new_id total_amount active_loan
  = inr books' ->
  exists new_balance stored_balance stored_request stored_total stored_fee : Q,
    decimal_add (balance user) (pr_membership_fee payload) = Some new_balance
    /\ store new_balance = Some stored_balance
    /\ store (match pr_loan_request_amount payload with
              | Some r => r
              | None => loan_request_amount user
              end) = Some stored_request
    /\ store total_amount = Some stored_total
    /\ store (pr_membership_fee payload) = Some stored_fee
    /\ existsb (fun p => (p_id p =? new_id)%Z) (payments (books_db books)) = false
    /\ paid_for (books_db books) (id user) jalali = false
    /\ users (books_db books')
       = move_row slot (id user) stored_balance stored_request
                  (users (books_db books))
    /\ payments (books_db books')
       = payments (books_db books)
         ++ [{| p_id := new_id; p_user := id user; p_amount := stored_total;
                p_jalali_year := fst jalali; p_jalali_month := snd jalali |}]
    /\ loans (books_db books') = loans (books_db books)
    /\ config (books_db books') = config (books_db books)
    /\ membership_fee_payments books'
       = membership_fee_payments books
         ++ [{| mf_payment := new_id; mf_amount := stored_fee |}]
    /\ match active_loan, pr_loan payload with
       | Some _, Some repayment =>
           exists stored_repayment : Q,
             store repayment = Some stored_repayment
             /\ loan_payments (books_db books')
                = loan_payments (books_db books)
                  ++ [{| lp_payment := new_id; lp_amount := stored_repayment |}]
       | _, _ => loan_payments (books_db books') = loan_payments (books_db books)
       end.
Proof.
  unfold pay_commit. cbv zeta.
  destruct (decimal_add (balance user) (pr_membership_fee payload))
    as [nb | ]; [ | discriminate].
  destruct (store nb) as [sb | ] eqn:Esb; [ | discriminate].
  destruct (store match pr_loan_request_amount payload with
                  | Some r => r
                  | None => loan_request_amount user
                  end) as [sr | ]; [ | discriminate].
  destruct (negb (existsb (fun u => (id u =? id user)%Z) (users (books_db books))));
    [discriminate | ].
  destruct (store total_amount) as [st | ]; [ | discriminate].
  destruct (existsb (fun p => (p_id p =? new_id)%Z) (payments (books_db books)))
    eqn:Eid; cbn [orb]; [discriminate | ].
  destruct (paid_for (books_db books) (id user) jalali) eqn:Epaid; [discriminate | ].
  destruct (store (pr_membership_fee payload)) as [sf | ]; [ | discriminate].
  destruct (existsb (fun mf => (mf_payment mf =? new_id)%Z)
                    (membership_fee_payments books)); [discriminate | ].
  intros H. exists nb, sb, sr, st, sf.
  destruct active_loan as [al | ], (pr_loan payload) as [rep | ].
  - destruct (store rep) as [srep | ]; [ | discriminate].
    destruct (existsb (fun lp => (lp_payment lp =? new_id)%Z)
                      (loan_payments (books_db books))); [discriminate | ].
    injection H as <-. cbn. repeat split; try assumption.
    exists srep. split; reflexivity.
  - injection H as <-. cbn. repeat split; assumption.
  - injection H as <-. cbn. repeat split; assumption.
  - injection H as <-. cbn. repeat split; assumption.
Qed.

(** The leaves of [pay]: one goal for each way through its checks. *)
Ltac pay_leaves :=
  unfold pay, pay_verified; rewrite get_config_spec; cbv zeta;
  repeat match goal with
         | |- context [paid_for (set_config ?db ?c) ?u ?j] =>
             change (paid_for (set_config db c) u j) with (paid_for db u j)
         | |- context [loans_get_active (set_config ?db ?c) ?u] =>
             change (loans_get_active (set_config db c) u)
               with (loans_get_active db u)
         end;
  match goal with
  | |- context [paid_for ?db ?u ?j] => destruct (paid_for db u j) eqn:?
  end;
  [ | match goal with
      | |- context [Qle_bool (min_membership_fee ?c) ?f] =>
          destruct (Qle_bool (min_membership_fee c) f) eqn:?
      end; cbn [negb];
      [ match goal with
        | |- context [loans_get_active ?db ?u] =>
            destruct (loans_get_active db u) as [ | active | ] eqn:?
        end;
        try match goal with
            | |- context [match pr_loan ?p with _ => _ end] =>
                destruct (pr_loan p) as [repayment | ] eqn:?
            end;
        try match goal with
            | |- context [l_min_amount_for_each_payment ?l] =>
                destruct (l_min_amount_for_each_payment l) as [minimum | ] eqn:?;
                [ match goal with
                  | |- context [Qle_bool minimum ?r] =>
                      destruct (Qle_bool minimum r) eqn:?
                  end; cbn [negb]
                | ]
            end;
        cbv beta iota;
        try match goal with
            | |- context [match decimal_add ?a ?b with _ => _ end] =>
                destruct (decimal_add a b) as [total | ] eqn:?
            end;
        try match goal with
            | |- context [negb (fst ?v)] =>
                destruct (fst v) eqn:?; cbn [negb];
                [ match goal with
                  | |- context [pay_commit ?s ?b ?u ?p ?j ?n ?t ?a] =>
                      destruct (pay_commit s b u p j n t a) as [failure | committed] eqn:?
                  end
                | ]
            end
      | ] ].

Lemma loans_get_active_spec (db : DB) (user : User) :
  match loans_get_active db user with
  | DoesNotExist => active_loans_of db user = []
  | Got l => active_loans_of db user = [l]
  | MoreThanOne => (2 <= List.length (active_loans_of db user))%nat
  end.
Proof.
  unfold loans_get_active.
  destruct (active_loans_of db user) as [ | l [ | l' rest]]; cbn; try reflexivity; lia.
Qed.

(** A response that carries a payment: the checks passed and the atomic
    block committed. *)
Lemma pay_created_inv (books0 : Books) (user : User) (payload : PaymentRequest)
    (jalali : nat * nat) (new_id : Z) (books' : Books) (status : nat)
    (response : PaymentResponse) :
  pay store slot bitpin books0 user payload jalali new_id
  = (books', inr (status, PaymentCreated response)) ->
  status = 201%nat
  /\ paid_for (books_db books0) (id user) jalali = false
  /\ min_membership_fee (current_config (books_db books0))
     <= pr_membership_fee payload
  /\ exists active_loan : option Loan,
       active_loans_of (books_db books0) user
       = match active_loan with Some l => [l] | None => [] end
       /\ match active_loan with
          | Some l =>
              exists repayment minimum : Q,
                pr_loan payload = Some repayment
                /\ l_min_amount_for_each_payment l = Some minimum
                /\ minimum <= repayment
          | None => pr_loan payload = None
          end
       /\ pay_commit store slot
            {| books_db := set_config (books_db books0)
                                      (current_config (books_db books0));
               membership_fee_payments := membership_fee_payments books0 |}
            user payload jalali new_id (resp_amount response) active_loan
          = inr books'
       /\ match pr_loan payload with
          | Some repayment => decimal_add (pr_membership_fee payload) repayment
          | None => Some (pr_membership_fee payload)
          end = Some (resp_amount response)
       /\ resp_id response = new_id
       /\ resp_user_id response = id user
       /\ resp_jalali_year response = fst jalali
       /\ resp_jalali_month response = snd jalali
       /\ resp_membership_fee response = pr_membership_fee payload
       /\ resp_loan_payment response = pr_loan payload
       /\ fst match bitpin with
              | Some get_payment =>
                  verify_payment_amount get_payment (pr_bitpin_payment_id payload)
                                        (resp_amount response)
              | None => (true, NoReason)
              end = true.
Proof.
  pay_leaves; intros E; try discriminate.
  - injection E as <- <- <-.
    pose proof (loans_get_active_spec (books_db books0) user) as Hg.
    match goal with H : loans_get_active _ _ = DoesNotExist |- _ => rewrite H in Hg end.
    match goal with H : Qle_bool (min_membership_fee _) _ = true |- _ =>
      apply Qle_bool_iff in H end.
    repeat (split; [assumption || reflexivity | ]).
    exists None. cbn [resp_amount resp_id resp_user_id resp_jalali_year
                      resp_jalali_month resp_membership_fee resp_loan_payment].
    repeat (split; [assumption || reflexivity | ]). assumption.
  - injection E as <- <- <-.
    pose proof (loans_get_active_spec (books_db books0) user) as Hg.
    match goal with H : loans_get_active _ _ = Got _ |- _ => rewrite H in Hg end.
    match goal with H : Qle_bool (min_membership_fee _) _ = true |- _ =>
      apply Qle_bool_iff in H end.
    match goal with H : Qle_bool minimum _ = true |- _ =>
      apply Qle_bool_iff in H end.
    repeat (split; [assumption || reflexivity | ]).
    exists (Some active). cbn [resp_amount resp_id resp_user_id resp_jalali_year
                               resp_jalali_month resp_membership_fee resp_loan_payment].
    split; [assumption | ].
    split; [exists repayment, minimum; auto | ].
    repeat (split; [assumption || reflexivity | ]). assumption.
Qed.


(** Any other outcome leaves the books as [Config.get_config()] left
    them. *)
Lemma pay_other (books0 : Books) (user : User) (payload : PaymentRequest)
    (jalali : nat * nat) (new_id : Z) (books' : Books)
    (res : PayException + nat * PayBody) :
  pay store slot bitpin books0 user payload jalali new_id = (books', res) ->
  (forall response : PaymentResponse,
     res <> inr (201%nat, PaymentCreated response)) ->
  books' = {| books_db := set_config (books_db books0)
                                     (current_config (books_db books0));
              membership_fee_payments := membership_fee_payments books0 |}.
Proof.
  pay_leaves; intros E Hno; injection E as <- <-; try reflexivity.
  - exfalso. eapply Hno. reflexivity.
  - exfalso. eapply Hno. reflexivity.
Qed.

Lemma pay_conflict (books0 : Books) (user : User) (payload : PaymentRequest)
    (jalali : nat * nat) (new_id : Z) :
  paid_for (books_db books0) (id user) jalali = true
  <-> snd (pay store slot bitpin books0 user payload jalali new_id)
      = inr (409%nat,
             PayErrorResponse (AlreadySubmitted (fst jalali) (snd jalali))).
Proof.
  pay_leaves; cbn [snd]; split; intros E; try reflexivity; try discriminate.
Qed.

Lemma pay_commit_inl (books : Books) (user : User) (payload : PaymentRequest)
    (jalali : nat * nat) (new_id : Z) (total_amount : Q)
    (active_loan : option Loan) (e : PayException) :
  pay_commit store slot books user payload jalali new_id total_amount active_loan
  = inl e ->
  (e = Overflow
   /\ decimal_add (balance user) (pr_membership_fee payload) = None)
  \/ (e = DatabaseError
      /\ decimal_add (balance user) (pr_membership_fee payload) <> None).
Proof.
  unfold pay_commit. cbv zeta.
  destruct (decimal_add (balance user) (pr_membership_fee payload)) as [nb | ].
  - intros H. right. split; [ | discriminate]. revert H.
    repeat match goal with
           | |- context [match ?c with _ => _ end] => destruct c
           end; intros H; try discriminate; now injection H.
  - intros H. injection H as <-. left. split; reflexivity.
Qed.

Lemma pay_exceptions (books0 : Books) (user : User) (payload : PaymentRequest)
    (jalali : nat * nat) (new_id : Z) (e : PayException) :
  snd (pay store slot bitpin books0 user payload jalali new_id) = inl e ->
  match e with
  | MultipleObjectsReturned =>
      (2 <= List.length (active_loans_of (books_db books0) user))%nat
  | TypeError =>
      exists l : Loan,
        active_loans_of (books_db books0) user = [l]
        /\ l_min_amount_for_each_payment l = None
  | Overflow =>
      (exists repayment : Q,
         pr_loan payload = Some repayment
         /\ decimal_add (pr_membership_fee payload) repayment = None)
      \/ decimal_add (balance user) (pr_membership_fee payload) = None
  | DatabaseError =>
      exists (total_amount : Q) (active_loan : option Loan),
        pay_commit store slot
          {| books_db := set_config (books_db books0)
                                    (current_config (books_db books0));
             membership_fee_payments := membership_fee_payments books0 |}
          user payload jalali new_id total_amount active_loan
        = inl DatabaseError
  end.
Proof.
  pose proof (loans_get_active_spec (books_db books0) user) as Hg. revert Hg.
  pay_leaves; cbn [snd]; intros Hg E; try discriminate; injection E as <-;
    try match goal with
        | H : pay_commit _ _ _ _ _ _ _ _ _ = inl ?x |- _ =>
            destruct (pay_commit_inl _ _ _ _ _ _ _ _ H) as [[-> Hov] | [-> _]];
            [right; exact Hov | eexists _, _; exact H]
        end.
  - left. eexists. split; [reflexivity | eassumption].
  - eexists. split; eassumption.
  - exact Hg.
Qed.


Lemma pay_status (books0 : Books) (user : User) (payload : PaymentRequest)
    (jalali : nat * nat) (new_id : Z) (status : nat) (body : PayBody) :
  snd (pay store slot bitpin books0 user payload jalali new_id) = inr (status, body) ->
  (status = 201%nat /\ exists response, body = PaymentCreated response)
  \/ ((status = 400%nat \/ status = 409%nat)
      /\ exists detail, body = PayErrorResponse detail).
Proof.
  pay_leaves; cbn [snd]; intros E; try discriminate; injection E as <- <-;
    try (right; split; [auto | eexists; reflexivity]);
    (left; split; [reflexivity | eexists; reflexivity]).
Qed.

(** The addition of fee and repayment that overflows is raised as it
    is, before the gateway is asked. *)
Lemma pay_total_overflow (books0 : Books) (user : User)
    (payload : PaymentRequest) (jalali : nat * nat) (new_id : Z)
    (l : Loan) (minimum repayment : Q) :
  paid_for (books_db books0) (id user) jalali = false ->
  min_membership_fee (current_config (books_db books0))
  <= pr_membership_fee payload ->
  active_loans_of (books_db books0) user = [l] ->
  l_min_amount_for_each_payment l = Some minimum ->
  pr_loan payload = Some repayment ->
  minimum <= repayment ->
  decimal_add (pr_membership_fee payload) repayment = None ->
  pay store slot bitpin books0 user payload jalali new_id
  = ({| books_db := set_config (books_db books0)
                               (current_config (books_db books0));
        membership_fee_payments := membership_fee_payments books0 |},
     inl Overflow).
Proof.
  intros Hpaid Hfee Hloan Hmin Hrep Hle Hov.
  apply Qle_bool_iff in Hfee, Hle.
  unfold pay, pay_verified. rewrite get_config_spec.
  change (paid_for (set_config (books_db books0)
                      (current_config (books_db books0))) (id user) jalali)
    with (paid_for (books_db books0) (id user) jalali).
  rewrite Hpaid, Hfee. cbn [negb]. unfold loans_get_active.
  change (active_loans_of (set_config (books_db books0)
                             (current_config (books_db books0))) user)
    with (active_loans_of (books_db books0) user).
  rewrite Hloan, Hrep, Hmin, Hle. cbn [negb]. rewrite Hov. reflexivity.
Qed.

(** X15. A payment that is not accepted writes nothing. [pay] answers 409
    exactly when the member already has a payment for the period; an
    answer of it is a 201, a 400 or a 409; and unless it answers 201, the
    tables of members, payments, membership fees, repayments and
    allocations are as before, the one write being the configuration row
    of [Config.get_config()]. When it raises [MultipleObjectsReturned]
    the member has several ACTIVE loans; when [TypeError], an ACTIVE loan
    without minimum repayment; when [decimal.Overflow], the sum of fee and
    repayment, or of balance and fee, is above the context's [Emax]; when
    [DatabaseError], the atomic block failed (all rolled back). A
    repayment that passed its checks and makes a total of
    [10 ** 1000000] or more is answered by that [Overflow]. *)
Theorem pay_rejected_writes_nothing (books0 : Books) (user : User)
    (payload : PaymentRequest) (jalali : nat * nat) (new_id : Z) :
  let outcome := pay store slot bitpin books0 user payload jalali new_id in
  (paid_for (books_db books0) (id user) jalali = true
   <-> snd outcome
       = inr (409%nat,
              PayErrorResponse (AlreadySubmitted (fst jalali) (snd jalali))))
  /\ (forall (status : nat) (body : PayBody),
        snd outcome = inr (status, body) ->
        (status = 201%nat /\ exists response, body = PaymentCreated response)
        \/ ((status = 400%nat \/ status = 409%nat)
            /\ exists detail, body = PayErrorResponse detail))
  /\ (forall e : PayException,
        snd outcome = inl e ->
        match e with
        | MultipleObjectsReturned =>
            (2 <= List.length (active_loans_of (books_db books0) user))%nat
        | TypeError =>
            exists l : Loan,
              active_loans_of (books_db books0) user = [l]
              /\ l_min_amount_for_each_payment l = None
        | Overflow =>
            (exists repayment : Q,
               pr_loan payload = Some repayment
               /\ decimal_add (pr_membership_fee payload) repayment = None)
            \/ decimal_add (balance user) (pr_membership_fee payload) = None
        | DatabaseError =>
            exists (total_amount : Q) (active_loan : option Loan),
              pay_commit store slot
                {| books_db := set_config (books_db books0)
                                          (current_config (books_db books0));
                   membership_fee_payments := membership_fee_payments books0 |}
                user payload jalali new_id total_amount active_loan
              = inl DatabaseError
        end)
  /\ (forall (l : Loan) (minimum repayment : Q),
        paid_for (books_db books0) (id user) jalali = false ->
        min_membership_fee (current_config (books_db books0))
        <= pr_membership_fee payload ->
        active_loans_of (books_db books0) user = [l] ->
        l_min_amount_for_each_payment l = Some minimum ->
        pr_loan payload = Some repayment ->
        minimum <= repayment ->
        Dec.pow10 (Emax + 1) <= pr_membership_fee payload + repayment ->
        snd outcome = inl Overflow)
  /\ ((forall response : PaymentResponse,
         snd outcome <> inr (201%nat, PaymentCreated response)) ->
      users (books_db (fst outcome)) = users (books_db books0)
      /\ payments (books_db (fst outcome)) = payments (books_db books0)
      /\ loan_payments (books_db (fst outcome)) = loan_payments (books_db books0)
      /\ loans (books_db (fst outcome)) = loans (books_db books0)
      /\ membership_fee_payments (fst outcome) = membership_fee_payments books0
      /\ config (books_db (fst outcome))
         = Some (current_config (books_db books0))).
Proof.
  cbv zeta. split; [apply pay_conflict | ].
  split; [intros status body; apply pay_status | ].
  split; [intros e He; exact (pay_exceptions _ _ _ _ _ _ He) | ].
  split.
  - intros l minimum repayment Hpaid Hfee Hloan Hmin Hrep Hle Hbig.
    apply decimal_add_overflow in Hbig.
    now rewrite (pay_total_overflow _ _ _ _ _ _ _ _ Hpaid Hfee Hloan Hmin Hrep
                   Hle Hbig).
  - intros Hno.
    destruct (pay store slot bitpin books0 user payload jalali new_id)
      as [books' res] eqn:E.
    cbn [fst snd] in *. rewrite (pay_other _ _ _ _ _ _ _ E Hno).
    repeat split.
Qed.

Lemma update_user_id (uid : Z) (new_balance new_request : Q) (u : User) :
  id (update_user uid new_balance new_request u) = id u
  /\ is_active (update_user uid new_balance new_request u) = is_active u
  /\ ((id u =? uid)%Z = false -> update_user uid new_balance new_request u = u).
Proof.
  unfold update_user. destruct (id u =? uid)%Z; repeat split; discriminate.
Qed.

(** The rows an [UPDATE] leaves alone keep their place among
    themselves. *)
Lemma move_row_others (k : nat) (uid : Z) (b r : Q) (rows : list User) :
  filter (fun u => negb (id u =? uid)%Z) (move_row k uid b r rows)
  = filter (fun u => negb (id u =? uid)%Z) rows.
Proof.
  unfold move_row. rewrite !filter_app.
  assert (Hup : filter (fun u => negb (id u =? uid)%Z)
                  (map (update_user uid b r)
                       (filter (fun u => (id u =? uid)%Z) rows)) = []).
  { induction rows as [ | u rest IH]; [reflexivity | ].
    cbn [filter]. destruct (id u =? uid)%Z eqn:E; [ | exact IH].
    cbn [map filter].
    rewrite (proj1 (update_user_id uid b r u)), E. exact IH. }
  rewrite Hup. cbn [app]. rewrite <- filter_app, firstn_skipn. clear Hup.
  induction rows as [ | u rest IH]; [reflexivity | ].
  cbn [filter]. destruct (negb (id u =? uid)%Z) eqn:E; [ | exact IH].
  cbn [filter]. now rewrite E, IH.
Qed.

(** The table holds the rows an in-place update would give. *)
Lemma move_row_perm (k : nat) (uid : Z) (b r : Q) (rows : list User) :
  Permutation (move_row k uid b r rows) (map (update_user uid b r) rows).
Proof.
  unfold move_row.
  set (others := filter (fun u => negb (id u =? uid)%Z) rows).
  set (updated := map (update_user uid b r)
                      (filter (fun u => (id u =? uid)%Z) rows)).
  transitivity (updated ++ others).
  - rewrite <- (firstn_skipn k others) at 3.
    rewrite app_assoc, (Permutation_app_comm (firstn k others) updated).
    now rewrite <- app_assoc.
  - unfold updated, others. clear updated others.
    induction rows as [ | u rest IH]; [reflexivity | ].
    cbn [filter map]. destruct (id u =? uid)%Z eqn:E; cbn [negb map app].
    + now constructor.
    + rewrite (proj2 (proj2 (update_user_id uid b r u)) E).
      rewrite <- Permutation_middle. now constructor.
Qed.

(** X16. What an accepted payment writes. When [pay] answers 201 the fee
    was at least the configured minimum, the gateway (when configured)
    accepted the total, no addition overflowed, and in one transaction:
    one payment of the member for the period was appended, of the fee
    plus the repayment as the column stores it; one membership fee row for
    it; the member's row was rewritten with the stored sum of balance and
    fee and the stored new request (the old one when none was given), and
    stands where the storage put it, the other rows being as they were and
    in their order; a member with an ACTIVE loan gave a repayment of at
    least its minimum, stored as one repayment portion, a member without
    one gave none; the allocations are untouched. *)
Theorem pay_created (books0 : Books) (user : User) (payload : PaymentRequest)
    (jalali : nat * nat) (new_id : Z) (books' : Books) (body : PayBody) :
  pay store slot bitpin books0 user payload jalali new_id
  = (books', inr (201%nat, body)) ->
  exists (response : PaymentResponse)
         (new_balance stored_balance stored_request stored_total stored_fee : Q),
    body = PaymentCreated response
    /\ min_membership_fee (current_config (books_db books0))
       <= pr_membership_fee payload
    /\ match pr_loan payload with
       | Some repayment => decimal_add (pr_membership_fee payload) repayment
       | None => Some (pr_membership_fee payload)
       end = Some (resp_amount response)
    /\ store (resp_amount response) = Some stored_total
    /\ payments (books_db books')
       = payments (books_db books0)
         ++ [{| p_id := new_id; p_user := id user; p_amount := stored_total;
                p_jalali_year := fst jalali; p_jalali_month := snd jalali |}]
    /\ store (pr_membership_fee payload) = Some stored_fee
    /\ membership_fee_payments books'
       = membership_fee_payments books0
         ++ [{| mf_payment := new_id; mf_amount := stored_fee |}]
    /\ decimal_add (balance user) (pr_membership_fee payload) = Some new_balance
    /\ store new_balance = Some stored_balance
    /\ store (match pr_loan_request_amount payload with
              | Some r => r
              | None => loan_request_amount user
              end) = Some stored_request
    /\ users (books_db books')
       = move_row slot (id user) stored_balance stored_request
                  (users (books_db books0))
    /\ filter (fun u => negb (id u =? id user)%Z) (users (books_db books'))
       = filter (fun u => negb (id u =? id user)%Z) (users (books_db books0))
    /\ Permutation (users (books_db books'))
                   (map (update_user (id user) stored_balance stored_request)
                        (users (books_db books0)))
    /\ loans (books_db books') = loans (books_db books0)
    /\ match active_loans_of (books_db books0) user with
       | [] =>
           pr_loan payload = None
           /\ loan_payments (books_db books') = loan_payments (books_db books0)
       | [l] =>
           exists repayment minimum stored_repayment : Q,
             pr_loan payload = Some repayment
             /\ l_min_amount_for_each_payment l = Some minimum
             /\ minimum <= repayment
             /\ store repayment = Some stored_repayment
             /\ loan_payments (books_db books')
                = loan_payments (books_db books0)
                  ++ [{| lp_payment := new_id; lp_amount := stored_repayment |}]
       | _ :: _ :: _ => False
       end
    /\ match bitpin with
       | Some get_payment =>
           exists info : BitpinPaymentInfo,
             get_payment (pr_bitpin_payment_id payload) = Some info
             /\ In (bp_status info) completed_statuses
             /\ resp_amount response <= bp_amount info
       | None => True
       end.
Proof.
  intros Hpay.
  assert (Hbody : exists response, body = PaymentCreated response).
  { pose proof (pay_status books0 user payload jalali new_id 201%nat body) as H.
    rewrite Hpay in H. destruct (H eq_refl) as [[_ Hr] | [[E | E] _]];
      [exact Hr | discriminate | discriminate]. }
  destruct Hbody as [response ->].
  destruct (pay_created_inv _ _ _ _ _ _ _ _ Hpay)
    as (_ & _ & Hfee & active_loan & Hloans & Hrule & Hcommit & Htotal & _ & _ & _
        & _ & _ & _ & Hverify).
  destruct (pay_commit_inr _ _ _ _ _ _ _ _ Hcommit)
    as (nb & sb & sr & st & sf & Hnb & Hsb & Hsr & Hst & Hsf & _ & _ & Hu & Hp
        & Hl & _ & Hm & Hlp).
  cbn [books_db membership_fee_payments set_config users payments loans
       loan_payments] in Hu, Hp, Hl, Hm, Hlp.
  exists response, nb, sb, sr, st, sf.
  repeat (split; [assumption || reflexivity | ]).
  split; [rewrite Hu; apply move_row_others | ].
  split; [rewrite Hu; apply move_row_perm | ].
  split; [exact Hl | ].
  split.
  - rewrite Hloans. destruct active_loan as [l | ].
    + destruct Hrule as (repayment & minimum & Hr & Hmin & Hle).
      rewrite Hr in Hlp. destruct Hlp as (srep & Hsrep & Hlp).
      exists repayment, minimum, srep. auto.
    + auto.
  - destruct bitpin as [get_payment | ]; [ | exact I].
    apply verify_accepted_shape, verify_accepted_iff in Hverify. exact Hverify.
Qed.

Lemma NoDup_snoc {A : Type} (l : list A) (x : A) :
  NoDup l -> ~ In x l -> NoDup (l ++ [x]).
Proof.
  intros Hl Hx. apply (Permutation_NoDup (Permutation_cons_append l x)).
  now constructor.
Qed.

Lemma paid_for_In (db : DB) (uid : Z) (jalali : nat * nat) :
  paid_for db uid jalali = true
  <-> In (uid, jalali)
         (map (fun p => (p_user p, (p_jalali_year p, p_jalali_month p)))
              (payments db)).
Proof.
  unfold paid_for. rewrite existsb_exists, in_map_iff. destruct jalali as [y m].
  cbn [fst snd]. split.
  - intros (p & Hin & H). apply andb_true_iff in H. destruct H as [H Hm].
    apply andb_true_iff in H. destruct H as [Hu Hy].
    apply Z.eqb_eq in Hu. apply Nat.eqb_eq in Hy, Hm.
    exists p. split; [congruence | exact Hin].
  - intros (p & E & Hin). injection E as Hu Hy Hm. exists p. split; [exact Hin | ].
    rewrite Hu, Hy, Hm, Z.eqb_refl, !Nat.eqb_refl. reflexivity.
Qed.

Lemma paid_for_paid_user_ids (db : DB) (uid : Z) (jalali : nat * nat) :
  paid_for db uid jalali = true
  <-> In uid (paid_user_ids db (fst jalali) (snd jalali)).
Proof.
  unfold paid_for, paid_user_ids. rewrite existsb_exists, in_map_iff. split.
  - intros (p & Hin & H). apply andb_true_iff in H. destruct H as [H Hm].
    apply andb_true_iff in H. destruct H as [Hu Hy]. apply Z.eqb_eq in Hu.
    exists p. split; [exact Hu | ]. apply filter_In. split; [exact Hin | ].
    now rewrite Hy, Hm.
  - intros (p & Hu & Hin). apply filter_In in Hin. destruct Hin as [Hin H].
    apply andb_true_iff in H. destruct H as [Hy Hm].
    exists p. split; [exact Hin | ]. now rewrite Hu, Z.eqb_refl, Hy, Hm.
Qed.

Lemma filter_filter_andb {A : Type} (f g : A -> bool) (l : list A) :
  filter f (filter g l) = filter (fun x => g x && f x) l.
Proof.
  induction l as [ | x rest IH]; [reflexivity | ].
  cbn [filter]. destruct (g x); cbn [andb filter]; [ | exact IH].
  destruct (f x); now rewrite IH.
Qed.

(** The members still to pay once the member [uid] has paid. *)
Lemma unpaid_after_payment (k : nat) (uid : Z) (new_balance new_request : Q)
    (ids : list Z) (l : list User) :
  filter (fun u => negb (existsb (Z.eqb (id u)) (ids ++ [uid])))
         (filter is_active (move_row k uid new_balance new_request l))
  = filter (fun u => negb (id u =? uid)%Z)
           (filter (fun u => negb (existsb (Z.eqb (id u)) ids))
                   (filter is_active l)).
Proof.
  rewrite !filter_filter_andb.
  transitivity
    (filter (fun u => is_active u && negb (existsb (Z.eqb (id u)) ids))
            (filter (fun u => negb (id u =? uid)%Z)
                    (move_row k uid new_balance new_request l))).
  - rewrite filter_filter_andb. apply filter_ext. intros u.
    rewrite existsb_app. cbn [existsb]. rewrite orb_false_r.
    destruct (is_active u), (existsb (Z.eqb (id u)) ids), (id u =? uid)%Z;
      reflexivity.
  - rewrite move_row_others, filter_filter_andb. apply filter_ext. intros u.
    destruct (is_active u), (existsb (Z.eqb (id u)) ids), (id u =? uid)%Z;
      reflexivity.
Qed.

(** X17. Payments stay unique. If no member has two payments for one
    period and no two payments share an id, the same holds after [pay],
    whatever it answered. *)
Theorem pay_keeps_payments_unique (books0 : Books) (user : User)
    (payload : PaymentRequest) (jalali : nat * nat) (new_id : Z) :
  unique_payments (books_db books0) ->
  unique_payments
    (books_db (fst (pay store slot bitpin books0 user payload jalali new_id))).
Proof.
  intros [Hkeys Hids].
  destruct (pay store slot bitpin books0 user payload jalali new_id)
    as [books' [e | [status [response | detail]]]] eqn:E; cbn [fst].
  - rewrite (pay_other _ _ _ _ _ _ _ E ltac:(discriminate)). now split.
  - destruct (pay_created_inv _ _ _ _ _ _ _ _ E)
      as (_ & _ & _ & active_loan & _ & _ & Hcommit & _).
    destruct (pay_commit_inr _ _ _ _ _ _ _ _ Hcommit)
      as (_ & _ & _ & st & _ & _ & _ & _ & _ & _ & Hfresh & Hnone & _ & Hp & _).
    cbn [books_db set_config payments] in Hfresh, Hnone, Hp.
    unfold unique_payments. rewrite Hp, !map_app. cbn [map p_user p_jalali_year
      p_jalali_month p_id]. split; apply NoDup_snoc; try assumption.
    + intros Hin. rewrite <- surjective_pairing in Hin.
      apply (paid_for_In (set_config (books_db books0)
                            (current_config (books_db books0)))) in Hin.
      congruence.
    + intros Hin. apply in_map_iff in Hin. destruct Hin as (p & Hid & Hin).
      assert (Ht : existsb (fun p => (p_id p =? new_id)%Z)
                           (payments (books_db books0)) = true).
      { apply existsb_exists. exists p. split; [exact Hin | ].
        now apply Z.eqb_eq. }
      congruence.
  - rewrite (pay_other _ _ _ _ _ _ _ E ltac:(discriminate)). now split.
Qed.

(** X18. An accepted payment settles the period for the payer. After a 201
    the payer is among the paid members of the period, the members still
    to pay are the former ones without the payer, the paid members of
    every other period are as before, and a second [pay] of the member for
    the period is answered 409. *)
Theorem payment_settles_the_period (books0 : Books) (user : User)
    (payload : PaymentRequest) (jalali : nat * nat) (new_id : Z)
    (books' : Books) (body : PayBody) :
  pay store slot bitpin books0 user payload jalali new_id
  = (books', inr (201%nat, body)) ->
  paid_user_ids (books_db books') (fst jalali) (snd jalali)
  = paid_user_ids (books_db books0) (fst jalali) (snd jalali) ++ [id user]
  /\ unpaid_users (books_db books') (fst jalali) (snd jalali)
     = filter (fun u => negb (id u =? id user)%Z)
              (unpaid_users (books_db books0) (fst jalali) (snd jalali))
  /\ (forall jalali_year jalali_month : nat,
        (jalali_year, jalali_month) <> jalali ->
        paid_user_ids (books_db books') jalali_year jalali_month
        = paid_user_ids (books_db books0) jalali_year jalali_month)
  /\ forall (again : User) (payload' : PaymentRequest) (new_id' : Z),
       id again = id user ->
       pay store slot bitpin books' again payload' jalali new_id'
       = (books', inr (409%nat,
                       PayErrorResponse
                         (AlreadySubmitted (fst jalali) (snd jalali)))).
Proof.
  intros Hpay.
  assert (Hbody : exists response, body = PaymentCreated response).
  { pose proof (pay_status books0 user payload jalali new_id 201%nat body) as H.
    rewrite Hpay in H. destruct (H eq_refl) as [[_ Hr] | [[E | E] _]];
      [exact Hr | discriminate | discriminate]. }
  destruct Hbody as [response ->].
  destruct (pay_created_inv _ _ _ _ _ _ _ _ Hpay)
    as (_ & _ & _ & active_loan & _ & _ & Hcommit & _).
  destruct (pay_commit_inr _ _ _ _ _ _ _ _ Hcommit)
    as (nb & sb & sr & st & _ & _ & _ & _ & _ & _ & _ & _ & Hu & Hp & _ & Hc & _).
  cbn [books_db set_config users payments config] in Hu, Hp, Hc.
  assert (Hids : paid_user_ids (books_db books') (fst jalali) (snd jalali)
                 = paid_user_ids (books_db books0) (fst jalali) (snd jalali)
                   ++ [id user]).
  { unfold paid_user_ids. rewrite Hp, filter_app, map_app. cbn [filter
      p_jalali_year p_jalali_month]. rewrite !Nat.eqb_refl. reflexivity. }
  split; [exact Hids | ].
  split.
  { unfold unpaid_users, active_users. rewrite Hids, Hu.
    apply unpaid_after_payment. }
  split.
  { intros y m Hne. unfold paid_user_ids. rewrite Hp, filter_app.
    cbn [filter p_jalali_year p_jalali_month].
    destruct ((fst jalali =? y)%nat && (snd jalali =? m)%nat) eqn:E.
    - apply andb_true_iff in E. destruct E as [Ey Em].
      apply Nat.eqb_eq in Ey, Em. elim Hne. subst y m.
      symmetry. apply surjective_pairing.
    - now rewrite app_nil_r. }
  intros again payload' new_id' Hid.
  assert (Hpaid : paid_for (books_db books') (id again) jalali = true).
  { rewrite Hid. apply paid_for_paid_user_ids. rewrite Hids.
    apply in_or_app. right. now left. }
  pose proof (proj1 (pay_conflict books' again payload' jalali new_id') Hpaid)
    as Hsnd.
  destruct (pay store slot bitpin books' again payload' jalali new_id')
    as [books'' res] eqn:E.
  cbn [snd] in Hsnd. subst res.
  rewrite (pay_other _ _ _ _ _ _ _ E ltac:(discriminate)).
  f_equal. unfold current_config. rewrite Hc.
  destruct books' as [[us ps lps ls cfg] fees]. cbn in Hc |- *.
  unfold set_config. cbn. now rewrite Hc.
Qed.

End PayFacts.

(** ** At most one ACTIVE loan per member *)

Lemma active_loans_of_same_id (db : DB) (u v : User) :
  id u = id v -> active_loans_of db u = active_loans_of db v.
Proof. intros H. unfold active_loans_of. now rewrite H. Qed.

Lemma active_loans_of_loans (db db' : DB) (user : User) :
  loans db' = loans db -> active_loans_of db' user = active_loans_of db user.
Proof. intros H. unfold active_loans_of. now rewrite H. Qed.

(** X19. At most one ACTIVE loan per member, kept by both writers. If
    every member holds at most one ACTIVE allocation, the same is true
    after a run of the assignment, whatever its outcome, and after [pay],
    whatever it answered; and under it [pay] never fails with
    [MultipleObjectsReturned] on looking up the member's ACTIVE loan. *)
Theorem one_active_loan_each (flog : Q -> Q) (db : DB) :
  at_most_one_active_loan db ->
  (forall (jalali_year jalali_month : nat) (now : Z) (draw : nat),
     at_most_one_active_loan
       (fst (run_loan_assignment flog db jalali_year jalali_month now draw)))
  /\ (forall (store : Q -> option Q) (slot : nat)
             (bitpin : option (string -> option BitpinPaymentInfo))
             (fees : list MembershipFeePayment) (user : User)
             (payload : PaymentRequest) (jalali : nat * nat) (new_id : Z),
        let outcome :=
          pay store slot bitpin
              {| books_db := db; membership_fee_payments := fees |}
              user payload jalali new_id in
        at_most_one_active_loan (books_db (fst outcome))
        /\ snd outcome <> inl MultipleObjectsReturned).
Proof.
  intros Hinv. split.
  - intros y m now draw user.
    destruct (run_loan_assignment flog db y m now draw) as [db' [e | loan]] eqn:E.
    + assert (Hl : loans db' = loans db).
      { destruct (run_cases flog db y m now draw)
          as [[_ Hrun] | [_ (loan & Hrun & _)]]; rewrite Hrun in E.
        - injection E as <- _. reflexivity.
        - unfold Loan_create in E.
          destruct (period_taken (set_config db (current_config db))
                      (l_jalali_year loan) (l_jalali_month loan));
            [injection E as <- _; reflexivity | discriminate]. }
      cbn [fst]. rewrite (active_loans_of_loans db db' user Hl). apply Hinv.
    + cbn [fst].
      destruct (run_returns flog db y m now draw db' loan E) as (_ & _ & -> & _).
      unfold active_loans_of. cbn [add_loan set_config loans].
      rewrite filter_app, length_app. cbn [filter].
      destruct (l_user loan) as [uid | ] eqn:Eu;
        [ | cbn [List.length]; rewrite Nat.add_0_r; apply Hinv].
      destruct ((uid =? id user)%Z && is_active_state (l_state loan)) eqn:Et;
        [ | cbn [List.length]; rewrite Nat.add_0_r; apply Hinv].
      apply andb_true_iff in Et. destruct Et as [Eid Est].
      apply Z.eqb_eq in Eid.
      assert (Hst : l_state loan = ACTIVE) by (destruct (l_state loan); easy).
      destruct (returned_active_member flog db y m now draw _ loan E Hst)
        as (member & Hel & _ & Hu & _).
      apply eligible_no_active_loan in Hel.
      assert (Hsame : id user = id member) by congruence.
      fold (active_loans_of db user).
      rewrite (active_loans_of_same_id db user member Hsame), Hel.
      cbn. lia.
  - intros store slot bitpin fees user payload jalali new_id. cbv zeta. split.
    + intros member.
      destruct (pay store slot bitpin {| books_db := db; membership_fee_payments := fees |}
                    user payload jalali new_id)
        as [books' [e | [status [response | detail]]]] eqn:E; cbn [fst].
      * rewrite (pay_other _ _ _ _ _ _ _ _ _ _ E ltac:(discriminate)). apply Hinv.
      * destruct (pay_created_inv _ _ _ _ _ _ _ _ _ _ _ E)
          as (_ & _ & _ & active_loan & _ & _ & Hcommit & _).
        destruct (pay_commit_inr _ _ _ _ _ _ _ _ _ _ Hcommit)
          as (_ & _ & _ & _ & _ & _ & _ & _ & _ & _ & _ & _ & _ & _ & Hl & _).
        rewrite (active_loans_of_loans _ _ member Hl). apply Hinv.
      * rewrite (pay_other _ _ _ _ _ _ _ _ _ _ E ltac:(discriminate)). apply Hinv.
    + intros He. apply pay_exceptions in He. cbn [books_db] in He.
      specialize (Hinv user). lia.
Qed.


(** ** The response built for an allocation *)

Lemma summary_leb_total (a b : LoanPaymentSummary) :
  summary_leb a b = false -> summary_leb b a = true.
Proof.
  unfold summary_leb. intros H. apply orb_false_iff in H. destruct H as [Hlt H].
  apply Nat.ltb_ge in Hlt.
  destruct (lps_jalali_year b <? lps_jalali_year a)%nat eqn:E; [reflexivity | ].
  apply Nat.ltb_ge in E.
  assert (Ey : lps_jalali_year a = lps_jalali_year b) by lia.
  rewrite Ey, Nat.eqb_refl in H. cbn in H. apply Nat.leb_gt in H.
  rewrite Ey, Nat.eqb_refl. cbn. apply Nat.leb_le. lia.
Qed.

Lemma summary_leb_trans (a b c : LoanPaymentSummary) :
  summary_leb a b = true -> summary_leb b c = true -> summary_leb a c = true.
Proof.
  unfold summary_leb. intros Hab Hbc.
  apply orb_true_iff in Hab, Hbc. apply orb_true_iff.
  rewrite Nat.ltb_lt, andb_true_iff, Nat.eqb_eq, Nat.leb_le in *. lia.
Qed.

Lemma insert_summary_perm (a : LoanPaymentSummary) (l : list LoanPaymentSummary) :
  Permutation (insert_summary a l) (a :: l).
Proof.
  induction l as [ | b rest IH]; [reflexivity | ].
  cbn [insert_summary]. destruct (summary_leb a b); [reflexivity | ].
  rewrite IH. apply perm_swap.
Qed.

Lemma insert_summary_sorted (a : LoanPaymentSummary) (l : list LoanPaymentSummary) :
  Sorted (fun x y => summary_leb x y = true) l ->
  Sorted (fun x y => summary_leb x y = true) (insert_summary a l).
Proof.
  induction l as [ | b rest IH]; intros Hs.
  - repeat constructor.
  - cbn [insert_summary]. destruct (summary_leb a b) eqn:E.
    + constructor; [exact Hs | now constructor].
    + apply Sorted_inv in Hs. destruct Hs as [Hrest Hhd].
      constructor; [now apply IH | ].
      apply summary_leb_total in E.
      destruct rest as [ | c rest']; cbn [insert_summary].
      * now constructor.
      * destruct (summary_leb a c); constructor; [exact E | ].
        now apply HdRel_inv in Hhd.
Qed.

Lemma order_by_period_spec (l : list LoanPaymentSummary) :
  StronglySorted (fun x y => summary_leb x y = true) (order_by_period l)
  /\ Permutation (order_by_period l) l.
Proof.
  split.
  - apply Sorted_StronglySorted.
    + intros a b c. apply summary_leb_trans.
    + induction l as [ | a rest IH]; [constructor | ].
      cbn [order_by_period fold_right]. now apply insert_summary_sorted.
  - induction l as [ | a rest IH]; [reflexivity | ].
    cbn [order_by_period fold_right]. rewrite insert_summary_perm.
    now constructor.
Qed.

(** X13. The response of an allocation lists its repayments by period.
    [_build_loan_response] gives one summary for each repayment portion
    (with the id and the period of its payment), in ascending order of
    year, then month; the total it reports is the sum of the listed
    amounts, and the remaining balance it reports is not positive exactly
    when the loan is settled. *)
Theorem loan_response_lists_repayments (db : DB) (loan : Loan)
    (payments : list LoanPayment) :
  let response := _build_loan_response db loan payments in
  StronglySorted
    (fun a b =>
       (lps_jalali_year a < lps_jalali_year b)%nat
       \/ (lps_jalali_year a = lps_jalali_year b
           /\ (lps_jalali_month a <= lps_jalali_month b)%nat))
    (r_payments response)
  /\ Permutation (r_payments response)
                 (flat_map (loan_payment_summary db) payments)
  /\ (Forall (fun lp => payment_of db lp <> None) payments ->
      Permutation (map lps_amount (r_payments response))
                  (map lp_amount payments)
      /\ List.length (r_payments response) = List.length payments)
  /\ r_total_paid response == sum_amount payments
  /\ (r_remaining_balance response <= 0 <-> is_settled loan payments = true).
Proof.
  cbv zeta. cbn [_build_loan_response r_payments r_total_paid r_remaining_balance].
  destruct (order_by_period_spec (flat_map (loan_payment_summary db) payments))
    as [Hsorted Hperm].
  split.
  { clear Hperm.
    induction Hsorted as [ | a l _ IH Hall]; [constructor | ].
    constructor; [exact IH | ].
    eapply Forall_impl; [ | exact Hall]. intros b H. cbv beta in H.
    unfold summary_leb in H. apply orb_true_iff in H.
    rewrite Nat.ltb_lt, andb_true_iff, Nat.eqb_eq, Nat.leb_le in H. exact H. }
  split; [exact Hperm | ].
  split.
  { intros Hall.
    assert (Hmap : map lps_amount (flat_map (loan_payment_summary db) payments)
                   = map lp_amount payments).
    { clear Hsorted Hperm.
      induction Hall as [ | lp rest Hlp _ IH]; [reflexivity | ].
      cbn [flat_map map]. rewrite map_app, IH. unfold loan_payment_summary.
      destruct (payment_of db lp); [cbn; reflexivity | now elim Hlp]. }
    split.
    - rewrite <- Hmap. now apply Permutation_map.
    - rewrite <- (length_map lps_amount), <- (length_map lp_amount payments),
        <- Hmap. apply Permutation_length. now apply Permutation_map. }
  split; [apply total_paid_sum | ].
  unfold is_settled. rewrite Qle_bool_iff. reflexivity.
Qed.


(** ** Samples of the further properties *)

(** X2 on the sample of one member: the log names the member once. *)
Lemma log_accounts_for_active_members_witness :
  exists (db' : DB) (loan : Loan),
    run_loan_assignment Sample.flog Sample.db_single 1403 1 0 7 = (db', inr loan)
    /\ Permutation (map np_user_id (not_participated (l_log loan))
                    ++ map pe_user_id (participated (l_log loan)))
                   [1%Z].
Proof.
  destruct (run_loan_assignment Sample.flog Sample.db_single 1403 1 0 7)
    as [db' [e | loan]] eqn:E; [vm_compute in E; discriminate | ].
  exists db', loan. split; [reflexivity | ].
  exact (log_accounts_for_active_members Sample.flog Sample.db_single 1403 1 0 7
           db' loan E).
Defined.

(** X3 on the same sample: the member granted the loan asked for 50 of a
    fund of 100. *)
Lemma granted_loan_bounds_witness :
  exists (db' : DB) (loan : Loan),
    run_loan_assignment Sample.flog Sample.db_single 1403 1 0 7 = (db', inr loan)
    /\ l_state loan = ACTIVE
    /\ exists member : User,
         In member (users Sample.db_single)
         /\ l_user loan = Some (id member)
         /\ l_amount loan = Some (loan_request_amount member)
         /\ loan_request_amount member <= sum_balance (active_users Sample.db_single).
Proof.
  destruct (run_loan_assignment Sample.flog Sample.db_single 1403 1 0 7)
    as [db' [e | loan]] eqn:E; [vm_compute in E; discriminate | ].
  assert (Hs : l_state loan = ACTIVE).
  { vm_compute in E. injection E as _ <-. reflexivity. }
  exists db', loan. split; [reflexivity | split; [exact Hs | ]].
  destruct (granted_loan_bounds Sample.flog Sample.db_single 1403 1 0 7
              db' loan E Hs)
    as (member & Hin & _ & _ & _ & Hu & Ha & _ & Hle & _).
  exists member. repeat split; assumption.
Defined.

(** X4 on the same sample: member 1 never wins on the database the run
    left. *)
Lemma winner_never_wins_again_witness :
  exists (db' : DB) (loan : Loan),
    run_loan_assignment Sample.flog Sample.db_single 1403 1 0 7 = (db', inr loan)
    /\ l_user loan = Some 1%Z
    /\ In loan (loans db')
    /\ forall (year' month' : nat) (now' : Z) (draw' : nat)
              (db'' : DB) (loan' : Loan),
         run_loan_assignment Sample.flog db' year' month' now' draw'
         = (db'', inr loan') ->
         l_user loan' <> Some 1%Z.
Proof.
  destruct (run_loan_assignment Sample.flog Sample.db_single 1403 1 0 7)
    as [db' [e | loan]] eqn:E; [vm_compute in E; discriminate | ].
  assert (Hu : l_user loan = Some 1%Z).
  { vm_compute in E. injection E as _ <-. reflexivity. }
  exists db', loan. split; [reflexivity | split; [exact Hu | ]].
  destruct (winner_never_wins_again Sample.flog Sample.db_single 1403 1 0 7
              db' loan 1%Z E Hu) as [Hin Hlater].
  split; [exact Hin | ]. exact (proj2 (Hlater db' Hin)).
Defined.


(** X10 on the same sample: the second start for 1403/1 answers 409. *)
Lemma start_twice_witness :
  exists (db' : DB) (body : StartBody),
    start_loan_assignment Sample.flog Sample.db_single (1403, 1)%nat 0 7
    = (db', inr (201%nat, body))
    /\ start_loan_assignment Sample.flog db' (1403, 1)%nat 1 8
       = (db', inr (409%nat, ErrorResponse (already_done_detail 1403 1))).
Proof.
  destruct (start_loan_assignment Sample.flog Sample.db_single (1403, 1)%nat 0 7)
    as [db' [e | [status body]]] eqn:E; [vm_compute in E; discriminate | ].
  assert (Hs : status = 201%nat).
  { vm_compute in E. injection E as _ <- _. reflexivity. }
  subst status. exists db', body. split; [reflexivity | ].
  exact (start_twice Sample.flog Sample.db_single (1403, 1)%nat 0 7 db' body E 1%Z 8%nat).
Defined.

(** X11 on the same sample: the response of the new ACTIVE allocation
    shows nothing repaid. *)
Lemma start_created_response_witness :
  exists (db' : DB) (response : LoanResponse) (message : StartMessage),
    start_loan_assignment Sample.flog Sample.db_single (1403, 1)%nat 0 7
    = (db', inr (201%nat, StartLoanResponse response message))
    /\ r_total_paid response = 0
    /\ r_payments response = []
    /\ r_jalali_year response = 1403%nat
    /\ r_jalali_month response = 1%nat.
Proof.
  destruct (start_loan_assignment Sample.flog Sample.db_single (1403, 1)%nat 0 7)
    as [db' [e | [status [response message | detail]]]] eqn:E;
    [vm_compute in E; discriminate | | vm_compute in E; discriminate].
  assert (Hs : status = 201%nat).
  { vm_compute in E. injection E as _ <- _ _. reflexivity. }
  subst status. exists db', response, message. split; [reflexivity | ].
  destruct (start_created_response Sample.flog Sample.db_single (1403, 1)%nat 0 7
              db' response message E) as (Ht & Hp & Hy & Hm & _).
  repeat split; assumption.
Defined.

(** X16 on the sample payment: the fee of 1403/2 of the first member is
    accepted and adds one payment, one fee and no repayment; the member's
    row now comes after the other member's. *)
Lemma pay_created_witness :
  exists (books' : Books) (body : PayBody),
    pay SamplePay.numeric_20_8 SamplePay.slot (Some SamplePay.exchange)
        SamplePay.books Sample.alice SamplePay.request (1403, 2)%nat 3
    = (books', inr (201%nat, body))
    /\ map id (users (books_db SamplePay.books)) = [1%Z; 2%Z]
    /\ map id (users (books_db books')) = [2%Z; 1%Z]
    /\ List.length (payments (books_db books')) = 3%nat
    /\ List.length (membership_fee_payments books') = 3%nat
    /\ loan_payments (books_db books') = []
    /\ loans (books_db books') = [].
Proof.
  destruct (pay SamplePay.numeric_20_8 SamplePay.slot (Some SamplePay.exchange)
                SamplePay.books Sample.alice SamplePay.request (1403, 2)%nat 3)
    as [books' [e | [status body]]] eqn:E; [vm_compute in E; discriminate | ].
  assert (Hs : status = 201%nat).
  { vm_compute in E. injection E as _ <- _. reflexivity. }
  subst status. exists books', body. split; [reflexivity | ].
  destruct (pay_created SamplePay.numeric_20_8 SamplePay.slot
              (Some SamplePay.exchange) SamplePay.books Sample.alice
              SamplePay.request (1403, 2)%nat 3 books' body E)
    as (response & nb & sb & sr & st & sf & _ & _ & _ & _ & Hp & _ & Hm & _ & _
        & _ & Hu & _ & _ & Hl & Hlp & _).
  rewrite Hp, Hm, Hu. cbn in Hlp. destruct Hlp as [_ Hlp].
  repeat split; assumption.
Defined.

(** X17 on the sample payment. *)
Lemma pay_keeps_payments_unique_witness :
  unique_payments (books_db SamplePay.books)
  /\ unique_payments
       (books_db
          (fst (pay SamplePay.numeric_20_8 SamplePay.slot
                    (Some SamplePay.exchange) SamplePay.books Sample.alice
                    SamplePay.request (1403, 2)%nat 3))).
Proof.
  assert (H : unique_payments (books_db SamplePay.books)).
  { split; cbn;
      (constructor;
       [intros [H | []]; discriminate | constructor; [intros [] | constructor]]). }
  split; [exact H | ].
  exact (pay_keeps_payments_unique SamplePay.numeric_20_8 SamplePay.slot
           (Some SamplePay.exchange) SamplePay.books Sample.alice
           SamplePay.request (1403, 2)%nat 3 H).
Defined.

(** X18 on the sample payment: of the two members still to pay for
    1403/2 the second is left, and a second payment of the first is
    answered 409. *)
Lemma payment_settles_the_period_witness :
  exists (books' : Books) (body : PayBody),
    pay SamplePay.numeric_20_8 SamplePay.slot (Some SamplePay.exchange)
        SamplePay.books Sample.alice SamplePay.request (1403, 2)%nat 3
    = (books', inr (201%nat, body))
    /\ unpaid_users (books_db SamplePay.books) 1403 2 = [Sample.alice; Sample.bob]
    /\ unpaid_users (books_db books') 1403 2 = [Sample.bob]
    /\ pay SamplePay.numeric_20_8 SamplePay.slot (Some SamplePay.exchange) books'
           Sample.alice SamplePay.request (1403, 2)%nat 4
       = (books', inr (409%nat, PayErrorResponse (AlreadySubmitted 1403 2))).
Proof.
  destruct (pay SamplePay.numeric_20_8 SamplePay.slot (Some SamplePay.exchange)
                SamplePay.books Sample.alice SamplePay.request (1403, 2)%nat 3)
    as [books' [e | [status body]]] eqn:E; [vm_compute in E; discriminate | ].
  assert (Hs : status = 201%nat).
  { vm_compute in E. injection E as _ <- _. reflexivity. }
  subst status. exists books', body. split; [reflexivity | ].
  destruct (payment_settles_the_period SamplePay.numeric_20_8 SamplePay.slot
              (Some SamplePay.exchange) SamplePay.books Sample.alice
              SamplePay.request (1403, 2)%nat 3 books' body E)
    as (_ & Hunpaid & _ & Hagain).
  split; [reflexivity | ].
  cbn [fst snd] in Hunpaid. split; [rewrite Hunpaid; reflexivity | ].
  exact (Hagain Sample.alice SamplePay.request 4%Z eq_refl).
Defined.

(** X19 on the sample of one member: no one holds a loan before the run,
    one member holds one after it. *)
Lemma one_active_loan_each_witness :
  at_most_one_active_loan Sample.db_single
  /\ at_most_one_active_loan
       (fst (run_loan_assignment Sample.flog Sample.db_single 1403 1 0 7))
  /\ loans (fst (run_loan_assignment Sample.flog Sample.db_single 1403 1 0 7))
     <> [].
Proof.
  assert (H : at_most_one_active_loan Sample.db_single).
  { intros user. cbn. lia. }
  split; [exact H | ].
  split; [ | vm_compute; discriminate].
  exact (proj1 (one_active_loan_each Sample.flog Sample.db_single H) 1403%nat 1%nat 0%Z 7%nat).
Defined.
